(** * Grade-tonnage dashboard: proximity aggregation, export and data cleaning

    A shallow embedding of the algorithmic core of the dashboard:

    - [greedy_weighted_avg_aggregation], [get_gt_model] and its guide curves
      (components/cards/gt_model.py),
    - [download_csv] and [open_url] (pages/gtmodel.py),
    - [GeoMineral.load_data_cache] and [GeoMineral.clean_and_fix]
      (models/geo.py).

    Conventions of the embedding.

    - Python [int] row labels are [Z].
    - Python [str] is [string], holding the bytes of the text's UTF-8
      encoding.  Searching and replacing an ASCII text is the same on bytes
      and on characters; a slice counts characters, so [PyStr.drop] steps
      over the continuation bytes of each character it drops.
    - Numeric columns hold rationals; a missing value (pandas NaN, Python
      [None]) is [None].  The rational stands for the number the code
      computes in binary64: what is proved of these columns are comparisons,
      sums as computed, and which values are missing or zero, never the
      digits of a quotient.  The guide curves, whose property is a numerical
      identity, are modelled over an arbitrary number type and read both in
      binary64 and in the real numbers.
    - A frame that went through [to_json] and [pd.read_json] is a list of
      [TableRow]: the decoder is a parameter [read_json], and a text cell it
      returns is a [Cell], a text or a number, because the decoder retypes a
      column all of whose values read as numbers.
    - A [dict] whose iteration order is observable (the distance cache is
      sorted with a stable sort) is an association list in insertion order.
    - A [set] used only for membership is a [gset Z].
    - A Python exception is a value [Raise e] of the [result] monad. *)

From Stdlib Require Import Rbase Rfunctions Exp_prop Rpower PrimFloat.
From Stdlib Require Import QArith Qfield Lqa Lia Ascii String DecimalString.
From stdpp Require Import base decidable list strings gmap sets.

Local Open Scope Z_scope.

(** ** Exceptions *)

Inductive exn : Type :=
| TypeError          (* comparing [None] with a number *)
| ZeroDivisionError  (* numpy: weights sum to zero *)
| KeyError           (* missing label or dictionary key *)
| IndexError.        (* subscript of an empty list *)

Inductive result (A : Type) : Type :=
| Ok (a : A)
| Raise (e : exn).

Arguments Ok {A} a.
Arguments Raise {A} e.

(** The monad structure, so that stdpp's [x ← m; k] notation and [mapM]
    apply to [result]. *)
#[export] Instance result_ret : MRet result := fun A a => Ok a.

#[export] Instance result_bind : MBind result := fun A B k m =>
  match m with
  | Ok a => k a
  | Raise e => Raise e
  end.

#[export] Instance result_fmap : FMap result := fun A B f m =>
  match m with
  | Ok a => Ok (f a)
  | Raise e => Raise e
  end.

(** ** Python string operations *)

Module PyStr.

Local Open Scope string_scope.

(** [sep.join(parts)] *)
Definition join (sep : string) (parts : list string) : string :=
  String.concat sep parts.

(** A continuation byte of the UTF-8 encoding: [10xxxxxx].  Every byte of a
    character but its first is one. *)
Definition continuation (c : ascii) : bool :=
  let n := Ascii.N_of_ascii c in ((128 <=? n) && (n <? 192))%N.

(** The text from its next character on. *)
Fixpoint skip_continuation (s : string) : string :=
  match s with
  | EmptyString => EmptyString
  | String c s' => if continuation c then skip_continuation s' else s
  end.

(** [s[n:]] for [n >= 0]: [n] characters are dropped, each with all its
    bytes. *)
Fixpoint drop (n : nat) (s : string) : string :=
  match n, s with
  | O, _ => s
  | S _, EmptyString => EmptyString
  | S k, String _ s' => drop k (skip_continuation s')
  end.

(** [old in s] *)
Fixpoint contains (old s : string) : bool :=
  String.prefix old s ||
  match s with
  | EmptyString => false
  | String _ s' => contains old s'
  end.

(** [s.replace(old, new)] for a non-empty [old]: occurrences are replaced
    left to right and do not overlap.  [skip] counts the characters of a
    matched occurrence that are still to be passed over. *)
Fixpoint replace_from (old new : string) (skip : nat) (s : string) : string :=
  match s with
  | EmptyString => EmptyString
  | String c s' =>
      match skip with
      | S k => replace_from old new k s'
      | O =>
          if String.prefix old s
          then new ++ replace_from old new (Nat.pred (String.length old)) s'
          else String c (replace_from old new 0 s')
      end
  end.

Definition replace (old new s : string) : string :=
  replace_from old new 0 s.

(** [s.count(old)] for a non-empty [old] (non-overlapping occurrences). *)
Fixpoint count_from (old : string) (skip : nat) (s : string) : nat :=
  match s with
  | EmptyString => O
  | String c s' =>
      match skip with
      | S k => count_from old k s'
      | O =>
          if String.prefix old s
          then S (count_from old (Nat.pred (String.length old)) s')
          else count_from old 0 s'
      end
  end.

Definition count (old s : string) : nat := count_from old 0 s.

(** [c not in s] for a single character *)
Fixpoint free_of (c : ascii) (s : string) : bool :=
  match s with
  | EmptyString => true
  | String a s' => negb (Ascii.eqb a c) && free_of c s'
  end.

End PyStr.

(** ** Data model *)

(** One row of the grade-tonnage table ([gt.df]). *)
Record DepositRecord : Type := mkRecord {
  ms : string;
  ms_name : string;
  commodity : string;
  top1_deposit_name : string;
  lat : option Q;
  lon : option Q;
  total_grade : option Q;
  total_tonnage : option Q;
  total_contained_metal : option Q
}.

(** A data frame of records: rows in order, each under its index label. *)
Definition DataFrame : Type := list (Z * DepositRecord).

(** The distance cache: [(i, j) -> distance], in insertion order.  A stored
    value may be Python's [None]. *)
Definition DistanceCache : Type := list ((Z * Z) * option Q).

(** One row of the frame built by the aggregation. *)
Record AggregatedCluster : Type := mkCluster {
  agg_total_grade : option Q;
  agg_total_tonnage : Q;
  agg_ms_name : string;
  agg_ms : string;
  agg_commodity : string;
  agg_top1_deposit_name : string;
  agg_lat : option Q;
  agg_lon : option Q
}.

(** ** Dictionary and frame access *)

(** [distances.get(key)]: [None] when the key is absent or maps to [None]. *)
Fixpoint dict_get (distances : DistanceCache) (key : Z * Z) : option Q :=
  match distances with
  | [] => None
  | (k, v) :: rest => if decide (k = key) then v else dict_get rest key
  end.

(** [df.index] *)
Definition df_index (df : DataFrame) : list Z := df.*1.

(** [df.loc[idx]] on a frame with unique labels. *)
Fixpoint df_loc (df : DataFrame) (idx : Z) : result DepositRecord :=
  match df with
  | [] => Raise KeyError
  | (k, r) :: rest => if decide (k = idx) then Ok r else df_loc rest idx
  end.

(** [df.loc[group, column]] *)
Definition df_loc_col {A} (df : DataFrame) (group : list Z)
    (column : DepositRecord -> A) : result (list A) :=
  mapM (fun idx => column <$> df_loc df idx) group.

(** ** Numeric helpers (pandas / numpy) *)

(** [Series.sum()]: missing values are skipped. *)
Definition series_sum (col : list (option Q)) : Q :=
  foldl (fun acc v => (acc + default 0 v)%Q) 0%Q col.

(** A numpy sum: a missing value makes the sum missing (NaN). *)
Definition nan_sum (col : list (option Q)) : option Q :=
  foldl (fun acc v => a ← acc; x ← v; Some (a + x)%Q) (Some 0%Q) col.

(** [np.average(a, weights=w)]: raises when the weights sum to zero,
    otherwise [sum(a * w) / sum(w)].  The quotient is the exact one, of which
    numpy returns the binary64 rounding; on weights that are not negative,
    as tonnages are, the sum is zero in binary64 exactly when it is zero
    here. *)
Definition np_average (a w : list (option Q)) : result (option Q) :=
  match nan_sum w with
  | None => Ok None
  | Some scl =>
      if Qeq_dec scl 0 then Raise ZeroDivisionError
      else Ok (s ← nan_sum (zip_with (fun x y => u ← x; v ← y; Some (u * v)%Q) a w);
               Some (s / scl)%Q)
  end.

(** ** The greedy aggregation (gt_model.py, lines 24-112) *)

(** [sorted(distances.items(), key=lambda x: x[1])]: a stable sort by value.
    Comparing a stored [None] raises; a list of fewer than two items is
    returned without any comparison. *)
Fixpoint insert_by_value (x : (Z * Z) * Q) (l : list ((Z * Z) * Q))
    : list ((Z * Z) * Q) :=
  match l with
  | [] => [x]
  | y :: l' =>
      if Qle_bool x.2 y.2 then x :: y :: l' else y :: insert_by_value x l'
  end.

Definition sort_by_value (l : list ((Z * Z) * Q)) : list ((Z * Z) * Q) :=
  foldr insert_by_value [] l.

Definition numeric_items (distances : DistanceCache) : option (list ((Z * Z) * Q)) :=
  mapM (fun '(k, v) => d ← v; Some (k, d)) distances.

Definition sorted_items (distances : DistanceCache) : result (list (Z * Z)) :=
  match distances with
  | [] => Ok []
  | [(k, _)] => Ok [k]
  | _ =>
      match numeric_items distances with
      | None => Raise TypeError
      | Some items => Ok (sort_by_value items).*1
      end
  end.

(** [[index for pair, _ in sorted_distances for index in pair
      if index in valid_indices]] *)
Definition flatten_pairs (valid_indices : gset Z) (pairs : list (Z * Z)) : list Z :=
  pair ← pairs; filter (fun index => index ∈ valid_indices) [pair.1; pair.2].

Section Greedy.

Variable df : DataFrame.
Variable distances : DistanceCache.
Variable proximity_threshold : Q.

Definition valid_indices : gset Z := list_to_set (df_index df).

(** The inner loop, lines 52-62: the state is [(processed_indices, group)]. *)
Fixpoint scan (i : Z) (candidates : list Z) (st : gset Z * list Z)
    : gset Z * list Z :=
  match candidates with
  | [] => st
  | j :: rest =>
      if bool_decide (i ≠ j ∧ j ∉ st.1) then
        match dict_get distances (i, j) with
        | Some distance =>
            if Qlt_le_dec distance proximity_threshold then
              if bool_decide (j ∈ valid_indices)
              then scan i rest ({[j]} ∪ st.1, st.2 ++ [j])
              else scan i rest st
            else scan i rest st
        | None => scan i rest st
        end
      else scan i rest st
  end.

(** Lines 48-65: open a cluster at seed [i]. *)
Definition open_cluster (sorted_row_indices : list Z) (processed : gset Z) (i : Z)
    : gset Z * list Z :=
  let st := scan i sorted_row_indices ({[i]} ∪ processed, [i]) in
  (st.1, filter (fun idx => idx ∈ valid_indices) st.2).

(** [":: ".join(...)] with the prefix of lines 81-90. *)
Definition combine (parts : list string) : string :=
  if (1 <? length parts)%nat
  then (":: " ++ PyStr.join ":: " parts)%string
  else PyStr.join ":: " parts.

(** Lines 71-110: the row of one cluster. *)
Definition aggregate_row (group : list Z) : result AggregatedCluster :=
  tonnages ← df_loc_col df group total_tonnage;
  grades ← df_loc_col df group total_grade;
  weighted_grade ← np_average grades tonnages;
  names ← df_loc_col df group ms_name;
  ids ← df_loc_col df group ms;
  first ← match group with
          | [] => Raise IndexError
          | g0 :: _ => df_loc df g0
          end;
  Ok {| agg_total_grade := weighted_grade;
        agg_total_tonnage := series_sum tonnages;
        agg_ms_name := combine names;
        agg_ms := combine ids;
        agg_commodity := commodity first;
        agg_top1_deposit_name := top1_deposit_name first;
        agg_lat := lat first;
        agg_lon := lon first |}.

(** The outer loop, lines 43-110. *)
Fixpoint seed_loop (sorted_row_indices seeds : list Z) (processed : gset Z)
    : result (list AggregatedCluster) :=
  match seeds with
  | [] => Ok []
  | i :: rest =>
      if bool_decide (i ∈ processed) then seed_loop sorted_row_indices rest processed
      else
        let st := open_cluster sorted_row_indices processed i in
        match st.2 with
        | [] => seed_loop sorted_row_indices rest st.1
        | _ =>
            row ← aggregate_row st.2;
            rows ← seed_loop sorted_row_indices rest st.1;
            Ok (row :: rows)
        end
  end.

(** The same loop, keeping the member lists ([group]) instead of the rows. *)
Fixpoint seed_groups (sorted_row_indices seeds : list Z) (processed : gset Z)
    : list (list Z) :=
  match seeds with
  | [] => []
  | i :: rest =>
      if bool_decide (i ∈ processed) then seed_groups sorted_row_indices rest processed
      else
        let st := open_cluster sorted_row_indices processed i in
        match st.2 with
        | [] => seed_groups sorted_row_indices rest st.1
        | _ => st.2 :: seed_groups sorted_row_indices rest st.1
        end
  end.

Definition greedy_weighted_avg_aggregation : result (list AggregatedCluster) :=
  pairs ← sorted_items distances;
  let sorted_row_indices := flatten_pairs valid_indices pairs in
  seed_loop sorted_row_indices sorted_row_indices ∅.

(** The member lists of the clusters, in order of production. *)
Definition greedy_clusters : result (list (list Z)) :=
  pairs ← sorted_items distances;
  let sorted_row_indices := flatten_pairs valid_indices pairs in
  Ok (seed_groups sorted_row_indices sorted_row_indices ∅).

(** What it takes for [j] to be merged into the cluster of seed [i]. *)
Definition mergeable (i j : Z) : Prop :=
  i ≠ j /\ j ∈ valid_indices /\
  exists d, dict_get distances (i, j) = Some d /\ (d < proximity_threshold)%Q.

(** A cluster is its seed followed by the records merged into it. *)
Definition cluster_of_seed (group : list Z) : Prop :=
  exists i added,
    group = i :: added /\ i ∈ valid_indices /\ forall j, j ∈ added -> mergeable i j.

End Greedy.

(** ** The plot dataset (gt_model.py, lines 115-252) *)

(** The object passed to [get_gt_model]: the table, the distance cache and
    the commodity dictionary ([data_cache["commodities"][code]["name"]]). *)
Record GradeTonnage : Type := mkGT {
  gt_df : DataFrame;
  distance_caches : DistanceCache;
  commodities : gmap string string
}.

(** An element of [gt.aggregated_df]: the selected rows of the table
    themselves, or the frame built by the aggregation. *)
Inductive Frame : Type :=
| Filtered (rows : DataFrame)
| Aggregated (rows : list AggregatedCluster).

(** A marker trace of the figure: legend name [d_type (count)], the plotted
    columns, the labels and the commodity names. *)
Record Trace : Type := mkTrace {
  tr_d_type : string;
  tr_count : nat;
  tr_x : list (option Q);
  tr_y : list (option Q);
  tr_text : list string;
  tr_customdata : list string
}.

(** Lines 138-140: [unique_labels.remove("Unknown")] drops the first
    occurrence, [append] puts the label at the end. *)
Fixpoint list_remove (x : string) (l : list string) : list string :=
  match l with
  | [] => []
  | y :: l' => if decide (y = x) then l' else y :: list_remove x l'
  end.

Definition unique_labels (ranked : list string) : list string :=
  if decide ("Unknown" ∈ ranked)
  then list_remove "Unknown" ranked ++ ["Unknown"]
  else ranked.

(** [len(frame)] *)
Definition frame_size (f : Frame) : nat :=
  match f with
  | Filtered rows => length rows
  | Aggregated rows => length rows
  end.

(** Every commodity code of the table is a key of the dictionary. *)
Definition known_commodities (gt : GradeTonnage) : Prop :=
  forall row, row ∈ gt_df gt -> is_Some (commodities gt !! commodity row.2).

(** [gt.df[gt.df["top1_deposit_name"] == d_type]] *)
Definition df_filter (d_type : string) (df : DataFrame) : DataFrame :=
  filter (fun row => top1_deposit_name row.2 = d_type) df.

(** Lines 151-160: the frame of one deposit type; [None] is [continue]. *)
Definition aggregate_group (gt : GradeTonnage) (proximity_value : Q)
    (d_type : string) : result (option Frame) :=
  let df_filtered := df_filter d_type (gt_df gt) in
  if Qeq_dec proximity_value 0 then Ok (Some (Filtered df_filtered))
  else if decide (d_type = "Unknown") then Ok None
  else
    rows ← greedy_weighted_avg_aggregation df_filtered (distance_caches gt)
              proximity_value;
    Ok (Some (Aggregated rows)).

(** Column access of lines 175-186.  A frame built from an empty list of
    rows has no columns, so selecting one raises. *)
Definition frame_columns (f : Frame)
    : result (list (option Q) * list (option Q) * list string * list string) :=
  match f with
  | Filtered rows =>
      Ok (total_tonnage <$> rows.*2, total_grade <$> rows.*2,
          ms_name <$> rows.*2, commodity <$> rows.*2)
  | Aggregated [] => Raise KeyError
  | Aggregated rows =>
      Ok ((fun r => Some (agg_total_tonnage r)) <$> rows, agg_total_grade <$> rows,
          agg_ms_name <$> rows, agg_commodity <$> rows)
  end.

(** Lines 171-194. *)
Definition make_trace (gt : GradeTonnage) (d_type : string) (f : Frame)
    : result Trace :=
  cols ← frame_columns f;
  let '(xs, ys, names, codes) := cols in
  customdata ← mapM (fun x => match commodities gt !! x with
                              | Some name => Ok name
                              | None => Raise KeyError
                              end) codes;
  Ok {| tr_d_type := d_type;
        tr_count := length (df_filter d_type (gt_df gt));
        tr_x := xs;
        tr_y := ys;
        tr_text := PyStr.replace "::" "<br>" <$> names;
        tr_customdata := customdata |}.

(** The loop of lines 150-194: the frames appended to [gt.aggregated_df] and
    the traces added to the figure. *)
Fixpoint groups_loop (gt : GradeTonnage) (proximity_value : Q)
    (labels : list string) : result (list Frame * list Trace) :=
  match labels with
  | [] => Ok ([], [])
  | d_type :: rest =>
      o ← aggregate_group gt proximity_value d_type;
      match o with
      | None => groups_loop gt proximity_value rest
      | Some frame =>
          trace ← make_trace gt d_type frame;
          out ← groups_loop gt proximity_value rest;
          Ok (frame :: out.1, trace :: out.2)
      end
  end.

(** [get_gt_model] for a [gt] object that is present.  [ranked] is the label
    list of lines 126-135: the names of the groups of [gt.df], sorted by
    count and mean metal per tonnage (a pandas sort on floating-point keys,
    taken as given).  The result is [gt.aggregated_df] and the marker traces
    of the figure.  The guide curves (lines 201-219) and the
    visibility flags (lines 243-250) are modelled further down; the colours
    and the layout (lines 143-144, 196-199 and 221-241) are styling and are
    left out. *)
Definition get_gt_model (gt : GradeTonnage) (ranked : list string)
    (proximity_value : Q) : result (list Frame * list Trace) :=
  groups_loop gt proximity_value (unique_labels ranked).

(** ** CSV export (pages/gtmodel.py, lines 413-475) *)

(** The eight columns that the export selects, on a frame as [get_gt_model]
    built it. *)
Record CsvRow : Type := mkCsvRow {
  csv_url : string;            (* Mineral Site URL *)
  csv_name : string;           (* Mineral Site Name *)
  csv_commodity : string;      (* Commodity *)
  csv_deposit_name : string;   (* Deposit Name *)
  csv_latitude : option Q;     (* Latitude *)
  csv_longitude : option Q;    (* Longitude *)
  csv_tonnage : option Q;      (* Total Tonnage(Million tonnes) *)
  csv_grade : option Q         (* Total Grade(Percent) *)
}.

(** Lines 459-464: [x[2:].replace("::", ",") if "::" in x else x] *)
Definition clean_text (x : string) : string :=
  if PyStr.contains "::" x then PyStr.replace "::" "," (PyStr.drop 2 x) else x.

(** The eight selected columns of a frame. *)
Definition frame_rows (f : Frame) : list CsvRow :=
  match f with
  | Filtered rows =>
      (fun r => mkCsvRow (ms r) (ms_name r) (commodity r) (top1_deposit_name r)
                         (lat r) (lon r) (total_tonnage r) (total_grade r))
        <$> rows.*2
  | Aggregated rows =>
      (fun r => mkCsvRow (agg_ms r) (agg_ms_name r) (agg_commodity r)
                         (agg_top1_deposit_name r) (agg_lat r) (agg_lon r)
                         (Some (agg_total_tonnage r)) (agg_total_grade r))
        <$> rows
  end.

(** A cell of a text column of a frame returned by [pd.read_json].  The
    decoder keeps a text, except that a column all of whose values read as
    numbers comes back as numbers, and an absent value comes back null. *)
Inductive Cell : Type :=
| Text (s : string)
| Number (x : Q)
| Null.

#[export] Instance Q_eq_dec : EqDecision Q.
Proof. solve_decision. Defined.

#[export] Instance Cell_eq_dec : EqDecision Cell.
Proof. solve_decision. Defined.

(** The eight selected columns of a row of a decoded frame. *)
Record TableRow : Type := mkRow {
  row_ms : Cell;                  (* Mineral Site URL *)
  row_ms_name : Cell;             (* Mineral Site Name *)
  row_commodity : Cell;           (* Commodity *)
  row_top1_deposit_name : Cell;   (* Deposit Name *)
  row_lat : option Q;             (* Latitude *)
  row_lon : option Q;             (* Longitude *)
  row_total_tonnage : option Q;   (* Total Tonnage(Million tonnes) *)
  row_total_grade : option Q      (* Total Grade(Percent) *)
}.

(** A frame as the decoder returns it when it retypes no text column and
    returns the numbers as they were (the sample frames are decoded so). *)
Definition decoded_frame (f : Frame) : list TableRow :=
  (fun r => mkRow (Text (csv_url r)) (Text (csv_name r)) (Text (csv_commodity r))
                  (Text (csv_deposit_name r)) (csv_latitude r) (csv_longitude r)
                  (csv_tonnage r) (csv_grade r)) <$> frame_rows f.

Definition decoded_table (df : DataFrame) : list TableRow :=
  decoded_frame (Filtered df).

(** The clean-up applied to one cell: the test [in] raises [TypeError] on a
    value that is not a text; [None] stands for that exception. *)
Definition clean_cell (x : Cell) : option Cell :=
  match x with
  | Text x => Some (Text (clean_text x))
  | _ => None
  end.

(** [download_csv] once the button was clicked.  [agg_data] is the list of
    encoded frames ([json.loads(agg_data)]), [read_json] the decoder
    [pd.read_json(dt, orient="split")] of lines 423-425, and
    [visible_traces] the names of the visible marker traces of the figure
    (lines 451-455).  [None] stands for [PreventUpdate]: it is raised when
    nothing is left to export, and the handler of lines 473-475 raises it for
    every exception of the body, here the [TypeError] of the clean-up (the
    two columns are cleaned one after the other; which of them fails first
    is not observable). *)
Definition download_csv {json : Type} (read_json : json -> list TableRow)
    (agg_data : list json) (visible_traces : list string)
    : option (list TableRow) :=
  let df := agg_data ≫= read_json in
  let df := filter (fun r => row_top1_deposit_name r ∈ Text <$> visible_traces) df in
  df ← mapM (fun r =>
               name ← clean_cell (row_ms_name r);
               url ← clean_cell (row_ms r);
               Some (mkRow url name (row_commodity r) (row_top1_deposit_name r)
                           (row_lat r) (row_lon r)
                           (row_total_tonnage r) (row_total_grade r))) df;
  match df with
  | [] => None
  | _ => Some df
  end.

(** ** Data cleaning (models/geo.py, [GeoMineral.clean_and_fix]) *)

Module Geo.

(** A JSON field of an object: the key may be absent ([None]); when present
    the value may be [null] ([Some None]). *)
Definition field (A : Type) : Type := option (option A).

(** [d.get(key)] *)
Definition get {A} (f : field A) : option A := mjoin f.

(** [not x] for a number or [None] *)
Definition falsy (x : option Q) : bool :=
  match x with
  | None => true
  | Some q => Qeq_bool q 0
  end.

Record DepositType : Type := mkDepositType {
  dt_id : string;
  dt_confidence : Q;
  dt_source : string
}.

Record Location : Type := mkLocation {
  loc_country : option (list string);
  loc_state_or_province : option (list string);
  loc_lat : option Q;    (* [location.get("lat", None)] *)
  loc_lon : option Q
}.

Record GradeTonnageEntry : Type := mkEntry {
  gte_commodity : string;
  gte_total_grade : field Q;
  gte_total_tonnage : field Q;
  gte_total_contained_metal : field Q
}.

Record RawSite : Type := mkRawSite {
  raw_id : string;
  raw_name : string;
  raw_type : string;
  raw_rank : string;
  raw_location : option Location;
  raw_deposit_types : list DepositType;
  raw_grade_tonnage : list GradeTonnageEntry
}.

Record DepositDetails : Type := mkDetails {
  dd_name : string;
  dd_group : string;
  dd_environment : string
}.

(** [self.data_cache]; countries and states map a key to its name. *)
Record DataCache : Type := mkCache {
  countries : gmap string string;
  deposit_types : gmap string DepositDetails;
  states_or_provinces : gmap string string
}.

(** [combined_data]; an optional key is a [field] or an [option]. *)
Record CombinedData : Type := mkCombined {
  cd_ms : string;
  cd_ms_name : string;
  cd_ms_type : string;
  cd_ms_rank : string;
  cd_country : option string;
  cd_state_or_province : option string;
  cd_lat : field Q;
  cd_lon : field Q;
  cd_top1_deposit_name : string;
  cd_top1_deposit_group : string;
  cd_top1_deposit_environment : string;
  cd_top1_deposit_confidence : Q;
  cd_top1_deposit_source : string;
  cd_commodity : string;
  cd_total_grade : field Q;
  cd_total_tonnage : field Q;
  cd_total_contained_metal : field Q
}.

(** Lines 59-82: the name of the first listed key, if it is in the cache. *)
Definition first_name (names : gmap string string) (keys : option (list string))
    : option string :=
  match keys with
  | Some (k :: _) => names !! k
  | _ => None
  end.

(** [max(deposit_types, key=lambda x: x["confidence"])]: the first element
    of greatest confidence. *)
Fixpoint max_confidence (best : DepositType) (l : list DepositType) : DepositType :=
  match l with
  | [] => best
  | d :: l' =>
      if Qlt_le_dec (dt_confidence best) (dt_confidence d)
      then max_confidence d l'
      else max_confidence best l'
  end.

(** A subscript [entry[key]] of a key that must be present. *)
Definition subscript {A} (f : field A) : result (option A) :=
  match f with
  | Some v => Ok v
  | None => Raise KeyError
  end.

(** The body of the loop, lines 49-126; [Ok None] is [continue]. *)
Definition clean_one (cache : DataCache) (data : RawSite)
    : result (option CombinedData) :=
  match raw_deposit_types data with
  | [] => Ok None
  | d0 :: ds =>
      let highest_confidence_deposit := max_confidence d0 ds in
      match deposit_types cache !! dt_id highest_confidence_deposit with
      | None => Ok None
      | Some deposit_details =>
          gt0 ← match raw_grade_tonnage data with
                | [] => Raise IndexError
                | e :: _ => Ok e
                end;
          gt_fields ←
            match gte_total_grade gt0 with
            | Some grade =>
                tonnage ← subscript (gte_total_tonnage gt0);
                metal ← subscript (gte_total_contained_metal gt0);
                Ok (Some grade, Some tonnage, Some metal)
            | None => Ok (None, None, None)
            end;
          let '(grade, tonnage, metal) := gt_fields in
          Ok (Some {|
            cd_ms := PyStr.join "/" ["/derived"; raw_id data];
            cd_ms_name := raw_name data;
            cd_ms_type := raw_type data;
            cd_ms_rank := raw_rank data;
            cd_country :=
              loc ← raw_location data; first_name (countries cache) (loc_country loc);
            cd_state_or_province :=
              loc ← raw_location data;
              first_name (states_or_provinces cache) (loc_state_or_province loc);
            cd_lat := loc_lat <$> raw_location data;
            cd_lon := loc_lon <$> raw_location data;
            cd_top1_deposit_name :=
              if falsy (get tonnage) || falsy (get grade)
              then "Unknown"
              else dd_name deposit_details;
            cd_top1_deposit_group := dd_group deposit_details;
            cd_top1_deposit_environment := dd_environment deposit_details;
            cd_top1_deposit_confidence := dt_confidence highest_confidence_deposit;
            cd_top1_deposit_source := dt_source highest_confidence_deposit;
            cd_commodity := gte_commodity gt0;
            cd_total_grade := grade;
            cd_total_tonnage := tonnage;
            cd_total_contained_metal := metal |})
      end
  end.

Fixpoint clean_and_fix (cache : DataCache) (raw_data : list RawSite)
    : result (list CombinedData) :=
  match raw_data with
  | [] => Ok []
  | data :: rest =>
      o ← clean_one cache data;
      results ← clean_and_fix cache rest;
      Ok (match o with
          | Some combined_data => combined_data :: results
          | None => results
          end)
  end.

(** A field that is absent, [None] or zero; a field that holds a number
    other than zero. *)
Definition missing_or_zero (f : field Q) : Prop :=
  f = None \/ f = Some None \/ exists q, f = Some (Some q) /\ (q == 0)%Q.

Definition present_nonzero (f : field Q) : Prop :=
  exists q, f = Some (Some q) /\ ¬ (q == 0)%Q.

End Geo.

(** ** Shapes of the concatenated fields *)

(** The [ms_name] / [ms] field of a cluster whose members have the names
    [parts]: the bare name for one member; for more, the prefix [":: "]
    followed by the names joined with [":: "], which holds one ["::"] per
    member when no name contains a colon. *)
Definition joined_field (parts : list string) (field : string) : Prop :=
  match parts with
  | [] => field = ""%string
  | [x] => field = x
  | _ =>
      field = (":: " ++ PyStr.join ":: " parts)%string /\
      (Forall (fun s => PyStr.free_of ":" s = true) parts ->
       PyStr.count "::" field = length parts)
  end.

(** The exported text of such a field: the names separated by [", "], after
    one leading space when there are several. *)
Definition exported_field (parts : list string) : string :=
  match parts with
  | [] => ""%string
  | [x] => x
  | _ => (" " ++ PyStr.join ", " parts)%string
  end.

(** The concatenated field as the specification words it: separator and
    prefix are the two characters ["::"]. *)
Definition combine_specified (parts : list string) : string :=
  if (1 <? length parts)%nat
  then ("::" ++ PyStr.join "::" parts)%string
  else PyStr.join "::" parts.

(** The export clean-up as the specification words it: drop two characters,
    rewrite each ["::"] to [", "]. *)
Definition clean_text_specified (x : string) : string :=
  PyStr.replace "::" ", " (PyStr.drop 2 x).

(** ** Sample tables *)

Module Sample.

Definition site (name deposit : string) (coords tonnage grade : option Q)
    : DepositRecord :=
  {| ms := ("/derived/" ++ name)%string;
     ms_name := name;
     commodity := "copper";
     top1_deposit_name := deposit;
     lat := coords;
     lon := coords;
     total_grade := grade;
     total_tonnage := tonnage;
     total_contained_metal := (t ← tonnage; g ← grade; Some (t * g / 100)%Q) |}.

(** Three located porphyry sites. *)
Definition porphyry : DataFrame :=
  [ (0, site "A" "Porphyry" (Some 1%Q) (Some 10%Q) (Some 2%Q));
    (1, site "B" "Porphyry" (Some 2%Q) (Some 30%Q) (Some 1%Q));
    (2, site "C" "Porphyry" (Some 3%Q) (Some 5%Q) (Some 1%Q)) ].

(** The same group when site C has no coordinates, hence no distance. *)
Definition porphyry_unlocated : DataFrame :=
  [ (0, site "A" "Porphyry" (Some 1%Q) (Some 10%Q) (Some 2%Q));
    (1, site "B" "Porphyry" (Some 2%Q) (Some 30%Q) (Some 1%Q));
    (2, site "C" "Porphyry" None (Some 5%Q) (Some 1%Q)) ].

(** The first two of them. *)
Definition pair_AB : DataFrame :=
  [ (0, site "A" "Porphyry" (Some 1%Q) (Some 10%Q) (Some 2%Q));
    (1, site "B" "Porphyry" (Some 2%Q) (Some 30%Q) (Some 1%Q)) ].

(** Only the pair (0, 1) has a distance. *)
Definition cache_AB : DistanceCache := [ ((0, 1), Some 5%Q) ].

(** Each pair stored once, smaller label first; (0, 2) is far. *)
Definition cache_once : DistanceCache :=
  [ ((0, 1), Some 5%Q); ((0, 2), Some 50%Q); ((1, 2), Some 1%Q) ].

(** The same distances stored under both orders of every pair. *)
Definition cache_both : DistanceCache :=
  [ ((0, 1), Some 5%Q); ((1, 0), Some 5%Q);
    ((0, 2), Some 50%Q); ((2, 0), Some 50%Q);
    ((1, 2), Some 1%Q); ((2, 1), Some 1%Q) ].

Definition copper : gmap string string := {[ "copper"%string := "Copper"%string ]}.

(** Two porphyry sites and one site without grade and tonnage. *)
Definition gt_unknown : GradeTonnage :=
  {| gt_df :=
       [ (0, site "A" "Porphyry" (Some 1%Q) (Some 10%Q) (Some 2%Q));
         (1, site "B" "Porphyry" (Some 2%Q) (Some 30%Q) (Some 1%Q));
         (2, site "U" "Unknown" (Some 3%Q) None None) ];
     distance_caches :=
       [ ((0, 1), Some 5%Q); ((0, 2), Some 7%Q); ((1, 2), Some 8%Q) ];
     commodities := copper |}.

(** Two skarn sites, and two porphyry sites of tonnage zero. *)
Definition gt_zero : GradeTonnage :=
  {| gt_df :=
       [ (0, site "S" "Skarn" (Some 1%Q) (Some 10%Q) (Some 2%Q));
         (1, site "T" "Skarn" (Some 2%Q) (Some 30%Q) (Some 1%Q));
         (2, site "Y" "Porphyry" (Some 3%Q) (Some 0%Q) (Some 2%Q));
         (3, site "Z" "Porphyry" (Some 4%Q) (Some 0%Q) (Some 1%Q)) ];
     distance_caches := [ ((0, 1), Some 5%Q); ((2, 3), Some 5%Q) ];
     commodities := copper |}.

(** The rows produced for [porphyry] with [cache_once] and threshold 10. *)
Definition rows_once : list AggregatedCluster :=
  Eval vm_compute in
    match greedy_weighted_avg_aggregation porphyry cache_once 10 with
    | Ok rows => rows
    | Raise _ => []
    end.

(** The export of these rows when the porphyry trace is visible. *)
Definition export_once : list TableRow :=
  Eval vm_compute in
    default []
      (download_csv decoded_frame [Aggregated rows_once] ["Porphyry"%string]).

(** A table in which two sites bear the name ["B"]. *)
Definition namesakes : DataFrame :=
  [ (0, site "A" "Porphyry" (Some 1%Q) (Some 10%Q) (Some 2%Q));
    (1, mkRecord "/derived/B1" "B" "copper" "Porphyry" (Some 2%Q) (Some 2%Q)
          (Some 1%Q) (Some 30%Q) (Some (3 # 10)));
    (2, mkRecord "/derived/B2" "B" "copper" "Skarn" (Some 3%Q) (Some 3%Q)
          (Some 1%Q) (Some 5%Q) (Some (1 # 20))) ].

(** The second of them, as a row of the decoded table. *)
Definition namesake : TableRow :=
  mkRow (Text "/derived/B2") (Text "B") (Text "copper") (Text "Skarn")
        (Some 3%Q) (Some 3%Q) (Some 5%Q) (Some 1%Q).

(** A frame of two sites of a deposit type named ["7"] whose names are
    ["101"] and ["102"], as the decoder returns it: the three text columns
    whose values all read as numbers have come back as numbers. *)
Definition retyped_frame : list TableRow :=
  [ mkRow (Text "/derived/101") (Number 101) (Text "copper") (Number 7)
          (Some 1%Q) (Some 1%Q) (Some 10%Q) (Some 2%Q);
    mkRow (Text "/derived/102") (Number 102) (Text "copper") (Number 7)
          (Some 2%Q) (Some 2%Q) (Some 30%Q) (Some 1%Q) ].

(** A frame whose deposit type is a text and whose site names are numbers. *)
Definition digit_names_frame : list TableRow :=
  [ mkRow (Text "/derived/101") (Number 101) (Text "copper") (Text "Porphyry")
          (Some 1%Q) (Some 1%Q) (Some 10%Q) (Some 2%Q);
    mkRow (Text "/derived/102") (Number 102) (Text "copper") (Text "Porphyry")
          (Some 2%Q) (Some 2%Q) (Some 30%Q) (Some 1%Q) ].

End Sample.

Module GeoSample.

Import Geo.

Definition cache : DataCache :=
  {| countries := {[ "Q30"%string := "United States"%string ]};
     deposit_types :=
       {[ "Q380"%string := mkDetails "Porphyry copper" "Porphyry" "Magmatic" ]};
     states_or_provinces := ∅ |}.

Definition raw (id : string) (grade tonnage : field Q) : RawSite :=
  {| raw_id := id;
     raw_name := id;
     raw_type := "Occurrence";
     raw_rank := "A";
     raw_location := Some (mkLocation (Some ["Q30"%string]) None (Some 40%Q) None);
     raw_deposit_types :=
       [ mkDepositType "Q1" (1 # 2) "algorithm";
         mkDepositType "Q380" (9 # 10) "expert" ];
     raw_grade_tonnage :=
       [ mkEntry "copper" grade tonnage (Some (Some 1%Q)) ] |}.

(** A complete site, a site of tonnage zero, a site whose grade is [null]
    and a site without grade and tonnage keys. *)
Definition raw_data : list RawSite :=
  [ raw "full" (Some (Some (3 # 2))) (Some (Some 120%Q));
    raw "zero" (Some (Some (3 # 2))) (Some (Some 0%Q));
    raw "null" (Some None) (Some (Some 120%Q));
    raw "bare" None None ].

Definition results : list CombinedData :=
  Eval vm_compute in
    match clean_and_fix cache raw_data with
    | Ok rs => rs
    | Raise _ => []
    end.

End GeoSample.

(** * Further operations of the same files *)

(** ** Exceptions of the callbacks and helpers *)

Inductive pyexn : Type :=
| Builtin (e : exn)
| ValueError       (* [min()] of an empty sequence, a failed unpacking *)
| PreventUpdate.   (* [dash.exceptions.PreventUpdate] *)

Inductive outcome (A : Type) : Type :=
| Returned (a : A)
| Raised (e : pyexn).

Arguments Returned {A} a.
Arguments Raised {A} e.

(** ** More Python string operations *)

Module PyText.

Local Open Scope string_scope.

(** [c.isspace()] on the characters below 128: tab to carriage return, the
    four separators 28 to 31, and the space. *)
Definition is_space (c : ascii) : bool :=
  let n := Ascii.N_of_ascii c in
  ((9 <=? n) && (n <=? 13) || (28 <=? n) && (n <=? 32))%N.

(** [s.split()]: the maximal runs of characters that are not spaces. *)
Fixpoint split_ws (s : string) : list string :=
  match s with
  | EmptyString => []
  | String c s' =>
      if is_space c then split_ws s'
      else
        match s' with
        | EmptyString => [String c EmptyString]
        | String c' _ =>
            if is_space c' then String c EmptyString :: split_ws s'
            else
              match split_ws s' with
              | w :: ws => String c w :: ws
              | [] => [String c EmptyString]
              end
        end
  end.

(** [s.split(sep)] for a separator of one character; the result is never
    empty. *)
Fixpoint split_on (sep : ascii) (s : string) : list string :=
  match s with
  | EmptyString => [EmptyString]
  | String c s' =>
      if Ascii.eqb c sep then EmptyString :: split_on sep s'
      else
        match split_on sep s' with
        | w :: ws => String c w :: ws
        | [] => [String c EmptyString]
        end
  end.

(** [str(n)] for a count. *)
Definition of_nat (n : nat) : string :=
  NilZero.string_of_uint (Nat.to_uint n).

(** No character of [s] is a space. *)
Fixpoint space_free (s : string) : bool :=
  match s with
  | EmptyString => true
  | String c s' => negb (is_space c) && space_free s'
  end.

(** A word: not empty, without spaces. *)
Definition word (s : string) : bool :=
  negb (String.eqb s EmptyString) && space_free s.

End PyText.

(** ** The distance extent (gt_model.py, lines 18-21) *)

(** [min(values)] and [max(values)] once the first value is taken: a later
    value replaces the current one when it is strictly smaller (greater). *)
Fixpoint py_min (current : Q) (values : list Q) : Q :=
  match values with
  | [] => current
  | v :: rest => py_min (if Qlt_le_dec v current then v else current) rest
  end.

Fixpoint py_max (current : Q) (values : list Q) : Q :=
  match values with
  | [] => current
  | v :: rest => py_max (if Qlt_le_dec current v then v else current) rest
  end.

(** [calculate_min_max_distance]: [min] and [max] raise on an empty
    dictionary; a single value is returned without any comparison;
    comparing with a stored [None] raises. *)
Definition calculate_min_max_distance (distances : DistanceCache)
    : outcome (option Q * option Q) :=
  match distances.*2 with
  | [] => Raised ValueError
  | [v] => Returned (v, v)
  | values =>
      match mapM id values with
      | Some (x :: xs) => Returned (Some (py_min x xs), Some (py_max x xs))
      | _ => Raised (Builtin TypeError)
      end
  end.

(** ** Legend names and trace visibility (gt_model.py, lines 189 and 243-250;
    pages/gtmodel.py, lines 295-299 and 451-455) *)

(** [f"{d_type} ({deposit_count})"] *)
Definition legend_name (d_type : string) (deposit_count : nat) : string :=
  (d_type ++ " (" ++ PyText.of_nat deposit_count ++ ")")%string.

Definition trace_name (t : Trace) : string :=
  legend_name (tr_d_type t) (tr_count t).

(** [" ".join(name.split()[:-1])] *)
Definition trace_label (name : string) : string :=
  PyStr.join " " (removelast (PyText.split_ws name)).

(** The [visible] attribute of a trace: [True] or ["legendonly"]. *)
Inductive Visibility : Type :=
| Shown
| LegendOnly.

(** A trace of the figure: a marker trace, which has a hover template and a
    legend name, or one of the guide lines, which has neither. *)
Inductive FigureTrace : Type :=
| Marker (t : Trace) (visible : Visibility)
| GuideLine.

(** The traces of the figure before line 243: the marker traces, added
    visible, then the twenty guide lines (their coordinates are those of
    [guide_curves] below). *)
Definition figure_data (traces : list Trace) : list FigureTrace :=
  ((fun t => Marker t Shown) <$> traces) ++ replicate 20 GuideLine.

(** Lines 243-250. *)
Definition set_visibility (visible_traces : list string)
    (data : list FigureTrace) : list FigureTrace :=
  if (0 <? length visible_traces)%nat then
    (fun trace =>
       match trace with
       | Marker t _ =>
           if decide (trace_label (trace_name t) ∈ visible_traces)
           then Marker t Shown
           else Marker t LegendOnly
       | GuideLine => GuideLine
       end) <$> data
  else data.

(** The comprehension of pages/gtmodel.py, lines 295-299 and 451-455: the
    labels of the marker traces whose [visible] is [True]. *)
Definition visible_names (data : list FigureTrace) : list string :=
  omap (fun trace =>
          match trace with
          | Marker t Shown => Some (trace_label (trace_name t))
          | _ => None
          end) data.

(** ** The guide curves (gt_model.py, lines 201-219) *)

(** One dashed line of constant contained metal.  The trace is given the
    tonnage values as [y] and the grade values as [x] (the marker traces
    have the tonnage as [x]); its hover text shows [curve_label] before
    ["Mt"]. *)
Record GuideCurve (number : Type) : Type := mkCurve {
  curve_x : list number;     (* x=grade_values *)
  curve_y : list number;     (* y=tonnage_range *)
  curve_label : number       (* metal_content / 100 *)
}.

Arguments mkCurve {number} _ _ _.
Arguments curve_x {number} _.
Arguments curve_y {number} _.
Arguments curve_label {number} _.

Section GuideCurves.

(** The numbers of the plot and their arithmetic: the conversion of an
    integer, the four operations and [power10 y], which is [10 ** y]. *)
Context {number : Type}.
Variable of_Z : Z -> number.
Variables add sub mul divide : number -> number -> number.
Variable power10 : number -> number.

(** [np.linspace(start, stop, num)] as numpy computes it when the step is
    not zero: the samples [k * step + start], the last one replaced by
    [stop]. *)
Definition linspace (start stop : Z) (num : nat) : list number :=
  let div := (num - 1)%nat in
  let delta := sub (of_Z stop) (of_Z start) in
  if (0 <? div)%nat then
    let step := divide delta (of_Z (Z.of_nat div)) in
    let y := (fun k => add (mul (of_Z (Z.of_nat k)) step) (of_Z start)) <$> seq 0 num in
    take div y ++ [of_Z stop]
  else
    (fun k => add (mul (of_Z (Z.of_nat k)) delta) (of_Z start)) <$> seq 0 num.

(** [np.logspace(start, stop, num)]: ten to the power of each sample. *)
Definition logspace (start stop : Z) (num : nat) : list number :=
  power10 <$> linspace start stop num.

(** The body of the loop once [tonnage_range] is computed. *)
Definition guide_curve (tonnage_range : list number) (metal_content : number)
    : GuideCurve number :=
  let grade_values := (fun tonnage => divide metal_content tonnage) <$> tonnage_range in
  {| curve_x := grade_values;
     curve_y := tonnage_range;
     curve_label := divide metal_content (of_Z 100) |}.

(** The loop of lines 202-219: one curve for each metal content. *)
Definition guide_curves : list (GuideCurve number) :=
  let metal_contents := logspace (-9) 10 20 in
  (fun metal_content =>
     let tonnage_range := logspace (-8) 8 100 in
     guide_curve tonnage_range metal_content) <$> metal_contents.

End GuideCurves.

(** The curves as the program computes them, in binary64.  The arithmetic
    is that of the processor; numpy's power function is a parameter. *)
Module Binary64.

Fixpoint of_pos (p : positive) : float :=
  match p with
  | xH => 1
  | xO p => 2 * of_pos p
  | xI p => 2 * of_pos p + 1
  end%float.

(** The conversion of an integer, exact below [2 ^ 53]. *)
Definition of_Z (z : Z) : float :=
  match z with
  | Z0 => 0%float
  | Zpos p => of_pos p
  | Zneg p => PrimFloat.opp (of_pos p)
  end.

Definition guide_curve : list float -> float -> GuideCurve float :=
  guide_curve of_Z PrimFloat.div.

Definition guide_curves (power10 : float -> float) : list (GuideCurve float) :=
  guide_curves of_Z PrimFloat.add PrimFloat.sub PrimFloat.mul PrimFloat.div power10.

End Binary64.

(** The curves in exact arithmetic, over the real numbers. *)
Module Exact.

Definition guide_curves : list (GuideCurve R) :=
  guide_curves IZR Rplus Rminus Rmult Rdiv (Rpower 10).

End Exact.

(** ** Opening a site (pages/gtmodel.py, lines 364-387) *)

(** [open_url]: [clickData] is the text of the clicked point, [df_data] the
    encoded table and [read_json] the decoder of line 383.  The comparison
    of line 385 selects the rows whose name cell is that text: a cell that
    came back as a number equals no text.  The first component of the
    returned pair is given, a cell of the [ms] column. *)
Definition open_url {json : Type} (read_json : json -> list TableRow)
    (clickData : option string) (df_data : option json)
    : outcome (option Cell) :=
  match df_data with
  | None => Raised PreventUpdate
  | Some df_data =>
      let df_data := read_json df_data in
      match clickData with
      | Some text =>
          match filter (fun row => row_ms_name row = Text text) df_data with
          | [] => Raised (Builtin IndexError)
          | row :: _ => Returned (Some (row_ms row))
          end
      | None => Returned None
      end
  end.

(** ** Loading the reference tables (models/geo.py, lines 33-43) *)

Module GeoLoad.

Import Geo.

(** [data["uri"].split("/")[-1]] *)
Definition q_key (uri : string) : string :=
  default EmptyString (last (PyText.split_on "/" uri)).

(** The inner loop: every record is stored under the last segment of its
    URI, a later record replacing an earlier one of the same key. *)
Definition load_table {A} (records : list (string * A)) (table : gmap string A)
    : gmap string A :=
  foldl (fun m record => <[q_key record.1 := record.2]> m) table records.

(** The fetched lists, in the order of the sorted table names. *)
Record Fetched : Type := mkFetched {
  fetched_commodities : list (string * string);
  fetched_countries : list (string * string);
  fetched_deposit_types : list (string * DepositDetails);
  fetched_states_or_provinces : list (string * string)
}.

(** [load_data_cache] on the tables of [self.data_cache]; the commodity
    table is kept beside the three that [clean_and_fix] reads. *)
Definition load_data_cache (cache : DataCache) (commodity_table : gmap string string)
    (data_results : Fetched) : DataCache * gmap string string :=
  ({| countries := load_table (fetched_countries data_results) (countries cache);
      deposit_types :=
        load_table (fetched_deposit_types data_results) (deposit_types cache);
      states_or_provinces :=
        load_table (fetched_states_or_provinces data_results)
          (states_or_provinces cache) |},
   load_table (fetched_commodities data_results) commodity_table).

(** The site passes the two [continue] tests of [clean_and_fix]. *)
Definition kept (cache : DataCache) (data : RawSite) : bool :=
  match raw_deposit_types data with
  | [] => false
  | d0 :: ds =>
      bool_decide (is_Some (deposit_types cache !! dt_id (max_confidence d0 ds)))
  end.

(** The site has no grade-tonnage entry, or its first entry has a grade but
    lacks the tonnage or the contained metal. *)
Definition malformed (data : RawSite) : bool :=
  match raw_grade_tonnage data with
  | [] => true
  | e :: _ =>
      match gte_total_grade e with
      | Some _ =>
          negb (bool_decide (is_Some (gte_total_tonnage e)))
          || negb (bool_decide (is_Some (gte_total_contained_metal e)))
      | None => false
      end
  end.

End GeoLoad.

(** ** Coordinates of a point (gt_model.py, lines 8-14) *)

(** [extract_lat_lon]: [float] is Python's conversion of a text to a number,
    [None] when it raises [ValueError]; a null [wkt_point] is [None], and
    the missing coordinates of the null case are [None] too. *)
Definition extract_lat_lon {number : Type} (float : string -> option number)
    (wkt_point : option string) : outcome (option number * option number) :=
  match wkt_point with
  | None => Returned (None, None)
  | Some wkt_point =>
      let wkt_point :=
        PyStr.replace ")" "" (PyStr.replace "POINT (" "" wkt_point) in
      match PyText.split_ws wkt_point with
      | [lon; lat] =>
          match float lon with
          | Some lon =>
              match float lat with
              | Some lat => Returned (Some lat, Some lon)
              | None => Raised ValueError
              end
          | None => Raised ValueError
          end
      | _ => Raised ValueError
      end
  end.

(** ** Predicates on the clusters *)

(** No cached distance under the key [(i, j)] is below the threshold. *)
Definition far (distances : DistanceCache) (proximity_threshold : Q) (i j : Z)
    : Prop :=
  forall d, dict_get distances (i, j) = Some d -> (proximity_threshold <= d)%Q.

(** Each cluster's seed is far from every member of the clusters opened
    after it. *)
Fixpoint seeds_far_from_later (distances : DistanceCache) (proximity_threshold : Q)
    (clusters : list (list Z)) : Prop :=
  match clusters with
  | [] => True
  | group :: later =>
      (forall i added j, group = i :: added -> j ∈ concat later ->
         far distances proximity_threshold i j) /\
      seeds_far_from_later distances proximity_threshold later
  end.

(** ** More sample data *)

Module MoreSamples.

(** Two located porphyry sites and a skarn site without coordinates. *)
Definition gt_lone : GradeTonnage :=
  {| gt_df :=
       [ (0, Sample.site "A" "Porphyry" (Some 1%Q) (Some 10%Q) (Some 2%Q));
         (1, Sample.site "B" "Porphyry" (Some 2%Q) (Some 30%Q) (Some 1%Q));
         (2, Sample.site "S" "Skarn" None (Some 5%Q) (Some 1%Q)) ];
     distance_caches := [ ((0, 1), Some 5%Q) ];
     commodities := Sample.copper |}.

(** The dataset of [Sample.gt_unknown] aggregated with threshold 10. *)
Definition dataset_unknown : list Frame * list Trace :=
  Eval vm_compute in
    match get_gt_model Sample.gt_unknown ["Porphyry"; "Unknown"]%string 10 with
    | Ok out => out
    | Raise _ => ([], [])
    end.

End MoreSamples.

(** * Properties *)

(** ** The result monad *)

Lemma bind_Ok {A B} (m : result A) (k : A -> result B) b :
  m ≫= k = Ok b -> exists a, m = Ok a /\ k a = Ok b.
Proof. destruct m as [a|e]; [eauto|discriminate]. Qed.

(** Split a successful sequence [H : (x ← m; k) = Ok b] into its first step
    [E : m = Ok x] and the rest. *)
Ltac bind_inv H x E := apply bind_Ok in H as (x & E & H).

Lemma mapM_result_Ok_length {A B} (f : A -> result B) l bs :
  mapM f l = Ok bs -> length bs = length l.
Proof.
  revert bs. induction l as [|a l IH]; simpl; intros bs H.
  - inversion H. reflexivity.
  - destruct (f a) as [b|e]; simpl in H; [|discriminate].
    destruct (mapM f l) as [bs'|e]; simpl in H; [|discriminate].
    inversion H; subst. simpl. f_equal. apply IH. reflexivity.
Qed.

Lemma mapM_result_Forall2 {A B} (f : A -> result B) l bs :
  mapM f l = Ok bs <-> Forall2 (fun a b => f a = Ok b) l bs.
Proof.
  revert bs. induction l as [|a l IH]; simpl; intros bs.
  - split; intros H; inversion H; subst; constructor.
  - split.
    + intros H. destruct (f a) as [b|e] eqn:Ea; simpl in H; [|discriminate].
      destruct (mapM f l) as [bs'|e] eqn:El; simpl in H; [|discriminate].
      inversion H; subst. constructor; [assumption|]. apply IH. reflexivity.
    + intros H. inversion H as [|? b ? bs' Hab Hl]; subst. rewrite Hab. simpl.
      apply IH in Hl. rewrite Hl. reflexivity.
Qed.

(** ** The frame *)

Lemma df_loc_valid df idx :
  idx ∈ df_index df -> exists r, df_loc df idx = Ok r /\ (idx, r) ∈ df.
Proof.
  unfold df_index. induction df as [|[k r] df IH]; simpl; intros H.
  - inversion H.
  - destruct (decide (k = idx)) as [->|Hne].
    + exists r. split; [reflexivity|left].
    + apply elem_of_cons in H as [H|H]; [congruence|].
      destruct (IH H) as (r' & E & Hin). exists r'. split; [assumption|right; assumption].
Qed.

Lemma df_loc_col_valid {A} df group (column : DepositRecord -> A) :
  (forall idx, idx ∈ group -> idx ∈ df_index df) ->
  exists col, df_loc_col df group column = Ok col /\ length col = length group.
Proof.
  unfold df_loc_col. induction group as [|g group IH]; simpl; intros H.
  - exists []. split; reflexivity.
  - destruct (df_loc_valid df g) as (r & E & _); [apply H; left|].
    destruct IH as (col & Ec & Hl); [intros; apply H; right; assumption|].
    rewrite E. simpl. rewrite Ec. simpl. exists (column r :: col).
    split; [reflexivity|simpl; congruence].
Qed.

(** ** The inner scan *)

Section GreedyFacts.

Variable df : DataFrame.
Variable distances : DistanceCache.
Variable proximity_threshold : Q.

Local Abbreviation valid := (valid_indices df).
Local Abbreviation scan := (scan df distances proximity_threshold).
Local Abbreviation open_cluster := (open_cluster df distances proximity_threshold).
Local Abbreviation seed_groups := (seed_groups df distances proximity_threshold).
Local Abbreviation seed_loop := (seed_loop df distances proximity_threshold).
Local Abbreviation mergeable := (mergeable df distances proximity_threshold).
Local Abbreviation cluster_of_seed :=
  (cluster_of_seed df distances proximity_threshold).

Lemma scan_spec i candidates st :
  exists added,
    (scan i candidates st).2 = st.2 ++ added /\
    (scan i candidates st).1 = list_to_set added ∪ st.1 /\
    NoDup added /\
    forall j, j ∈ added -> j ∈ candidates /\ (j ∉ st.1) /\ mergeable i j.
Proof.
  revert st. induction candidates as [|j rest IH]; intros st; simpl.
  - exists []. rewrite app_nil_r. split; [reflexivity|]. split; [set_solver|]. split; [apply NoDup_nil_2|].
    intros j Hj. inversion Hj.
  - assert (Hskip : exists added,
        (scan i rest st).2 = st.2 ++ added /\
        (scan i rest st).1 = list_to_set added ∪ st.1 /\
        NoDup added /\
        forall j0, j0 ∈ added -> j0 ∈ j :: rest /\ (j0 ∉ st.1) /\ mergeable i j0).
    { destruct (IH st) as (added & H2 & H1 & Hnd & Hall).
      exists added. repeat split; try assumption; try (apply Hall; assumption).
      right. apply Hall. assumption. }
    case_bool_decide as Hc; [|exact Hskip].
    destruct (dict_get distances (i, j)) as [d|] eqn:Eget; [|exact Hskip].
    destruct (Qlt_le_dec d proximity_threshold) as [Hlt|]; [|exact Hskip].
    case_bool_decide as Hv; [|exact Hskip].
    destruct (IH ({[j]} ∪ st.1, st.2 ++ [j])) as (added & H2 & H1 & Hnd & Hall).
    simpl in *. exists (j :: added). split; [|split; [|split]].
    + rewrite H2, <- app_assoc. reflexivity.
    + rewrite H1. set_solver.
    + constructor; [|assumption]. intros Hin. apply Hall in Hin. set_solver.
    + intros j0 Hj0. apply elem_of_cons in Hj0 as [->|Hj0].
      * split; [left|]. split; [tauto|]. split; [tauto|]. split; [assumption|].
        exists d. split; assumption.
      * destruct (Hall j0 Hj0) as (Hr & Hp & Hm).
        split; [right; assumption|]. split; [set_solver|assumption].
Qed.

Lemma open_cluster_spec sorted_row_indices processed i :
  i ∈ valid ->
  exists added,
    (open_cluster sorted_row_indices processed i).2 = i :: added /\
    (open_cluster sorted_row_indices processed i).1
      = list_to_set (i :: added) ∪ processed /\
    NoDup (i :: added) /\
    forall j, j ∈ added ->
      j ∈ sorted_row_indices /\ (j ∉ processed) /\ mergeable i j.
Proof.
  intros Hi. unfold open_cluster.
  destruct (scan_spec i sorted_row_indices ({[i]} ∪ processed, [i]))
    as (added & H2 & H1 & Hnd & Hall).
  simpl in *. exists added. split; [|split; [|split]].
  - rewrite H2. simpl. rewrite filter_cons_True by assumption. f_equal.
    clear H2 H1 Hnd. induction added as [|a added IH]; [reflexivity|].
    rewrite filter_cons_True by (apply (Hall a); left).
    f_equal. apply IH. intros j Hj. apply Hall. right. assumption.
  - rewrite H1. set_solver.
  - constructor; [|assumption]. intros Hin. apply Hall in Hin. set_solver.
  - intros j Hj. destruct (Hall j Hj) as (Hc & Hp & Hm).
    split; [assumption|]. split; [set_solver|assumption].
Qed.

(** ** The seed loop *)

Lemma seed_groups_cons sorted_row_indices i rest processed :
  seed_groups sorted_row_indices (i :: rest) processed
  = if bool_decide (i ∈ processed)
    then seed_groups sorted_row_indices rest processed
    else match (open_cluster sorted_row_indices processed i).2 with
         | [] => seed_groups sorted_row_indices rest
                   (open_cluster sorted_row_indices processed i).1
         | _ => (open_cluster sorted_row_indices processed i).2
                :: seed_groups sorted_row_indices rest
                     (open_cluster sorted_row_indices processed i).1
         end.
Proof. reflexivity. Qed.

Lemma seed_loop_cons sorted_row_indices i rest processed :
  seed_loop sorted_row_indices (i :: rest) processed
  = if bool_decide (i ∈ processed)
    then seed_loop sorted_row_indices rest processed
    else match (open_cluster sorted_row_indices processed i).2 with
         | [] => seed_loop sorted_row_indices rest
                   (open_cluster sorted_row_indices processed i).1
         | _ =>
             row ← aggregate_row df (open_cluster sorted_row_indices processed i).2;
             rows ← seed_loop sorted_row_indices rest
                      (open_cluster sorted_row_indices processed i).1;
             Ok (row :: rows)
         end.
Proof. reflexivity. Qed.

Lemma seed_loop_groups sorted_row_indices seeds processed :
  seed_loop sorted_row_indices seeds processed
  = mapM (aggregate_row df) (seed_groups sorted_row_indices seeds processed).
Proof.
  revert processed. induction seeds as [|i rest IH]; intros processed.
  - reflexivity.
  - rewrite seed_loop_cons, seed_groups_cons.
    case_bool_decide; [apply IH|].
    destruct (open_cluster sorted_row_indices processed i).2 as [|g0 g] eqn:Eg.
    + apply IH.
    + rewrite IH. reflexivity.
Qed.

Lemma seed_groups_spec sorted_row_indices seeds processed :
  (forall x, x ∈ seeds -> x ∈ valid) ->
  NoDup (concat (seed_groups sorted_row_indices seeds processed)) /\
  (forall x, x ∈ concat (seed_groups sorted_row_indices seeds processed) ->
     (x ∉ processed) /\ x ∈ valid /\ (x ∈ seeds \/ x ∈ sorted_row_indices)) /\
  (forall x, x ∈ seeds ->
     x ∈ processed \/ x ∈ concat (seed_groups sorted_row_indices seeds processed)) /\
  Forall cluster_of_seed (seed_groups sorted_row_indices seeds processed).
Proof.
  revert processed. induction seeds as [|i rest IH]; intros processed Hv;
    [simpl|rewrite seed_groups_cons].
  - split; [apply NoDup_nil_2|]. split; [intros x Hx; inversion Hx|].
    split; [intros x Hx; inversion Hx|constructor].
  - assert (Hrest : forall x, x ∈ rest -> x ∈ valid)
      by (intros x Hx; apply Hv; right; assumption).
    case_bool_decide as Hp.
    + destruct (IH processed Hrest) as (Hnd & Hin & Hcov & Hcl).
      split; [assumption|]. split; [|split; [|assumption]].
      * intros x Hx. destruct (Hin x Hx) as (? & ? & [?|?]); set_solver.
      * intros x Hx. apply elem_of_cons in Hx as [->|Hx]; [left; assumption|].
        apply Hcov. assumption.
    + destruct (open_cluster_spec sorted_row_indices processed i)
        as (added & E2 & E1 & Hnd0 & Hall); [apply Hv; left|].
      rewrite E2, E1.
      destruct (IH (list_to_set (i :: added) ∪ processed) Hrest)
        as (Hnd & Hin & Hcov & Hcl).
      simpl. split; [|split; [|split]].
      * change (NoDup ((i :: added) ++
          concat (seed_groups sorted_row_indices rest
                    (list_to_set (i :: added) ∪ processed)))).
        apply NoDup_app. split; [assumption|]. split; [|assumption].
        intros x Hx Hx'. apply Hin in Hx'. set_solver.
      * intros x Hx.
        change (x ∈ (i :: added) ++
          concat (seed_groups sorted_row_indices rest
                    (list_to_set (i :: added) ∪ processed))) in Hx.
        apply elem_of_app in Hx as [Hx|Hx].
        -- apply elem_of_cons in Hx as [->|Hx].
           ++ split; [assumption|]. split; [apply Hv; left|left; left].
           ++ destruct (Hall x Hx) as (Hs & Hnp & ? & ? & ?).
              split; [assumption|]. split; [assumption|right; assumption].
        -- destruct (Hin x Hx) as (Hnp & ? & Hor).
           split; [set_solver|]. split; [assumption|].
           destruct Hor; [left; right; assumption|right; assumption].
      * intros x Hx. apply elem_of_cons in Hx as [->|Hx].
        -- right. left.
        -- destruct (Hcov x Hx) as [Hc|Hc].
           ++ apply elem_of_union in Hc as [Hc|Hc]; [|left; assumption].
              right. apply elem_of_list_to_set in Hc.
              apply elem_of_cons in Hc as [->|Hc]; [left|].
              right. apply elem_of_app. left. assumption.
           ++ right. right. apply elem_of_app. right. assumption.
      * constructor; [|assumption].
        exists i, added. split; [reflexivity|]. split; [apply Hv; left|].
        intros j Hj. apply Hall. assumption.
Qed.

(** ** Sorting and flattening the cache *)

Lemma insert_by_value_perm x l : insert_by_value x l ≡ₚ x :: l.
Proof.
  induction l as [|y l IH]; simpl; [reflexivity|].
  destruct (Qle_bool x.2 y.2); [reflexivity|].
  rewrite IH. apply Permutation_swap.
Qed.

Lemma sort_by_value_perm l : sort_by_value l ≡ₚ l.
Proof.
  induction l as [|x l IH]; simpl; [reflexivity|].
  rewrite insert_by_value_perm, IH. reflexivity.
Qed.

Lemma numeric_items_keys d items :
  numeric_items d = Some items -> items.*1 = d.*1.
Proof.
  unfold numeric_items. revert items.
  induction d as [|[k v] d IH]; simpl; intros items H.
  - inversion H. reflexivity.
  - destruct v as [q|]; simpl in H; [|discriminate].
    destruct (mapM _ d) as [items'|] eqn:E; simpl in H; [|discriminate].
    inversion H; subst. simpl. f_equal. apply IH. reflexivity.
Qed.

Lemma sorted_items_perm d pairs :
  sorted_items d = Ok pairs -> pairs ≡ₚ d.*1.
Proof.
  unfold sorted_items. intros H.
  destruct d as [|[k v] [|kv d]].
  - inversion H. reflexivity.
  - inversion H. reflexivity.
  - destruct (numeric_items _) as [items|] eqn:E; [|discriminate].
    inversion H; subst. rewrite sort_by_value_perm.
    rewrite (numeric_items_keys _ _ E). reflexivity.
Qed.

Lemma elem_of_flatten_pairs (valid_set : gset Z) pairs x :
  x ∈ flatten_pairs valid_set pairs <->
  x ∈ valid_set /\ exists pair, pair ∈ pairs /\ (x = pair.1 \/ x = pair.2).
Proof.
  unfold flatten_pairs. rewrite list_elem_of_bind. split.
  - intros (pair & Hx & Hp). apply list_elem_of_filter in Hx as [Hv Hx].
    split; [assumption|]. exists pair. split; [assumption|].
    apply elem_of_cons in Hx as [->|Hx]; [left; reflexivity|].
    apply elem_of_cons in Hx as [->|Hx]; [right; reflexivity|inversion Hx].
  - intros (Hv & pair & Hp & Hx). exists pair. split; [|assumption].
    apply list_elem_of_filter. split; [assumption|].
    destruct Hx as [->| ->]; [left|right; left].
Qed.

(** ** The aggregation as a whole *)

Lemma greedy_rows_of_clusters :
  greedy_weighted_avg_aggregation df distances proximity_threshold
  = (clusters ← greedy_clusters df distances proximity_threshold;
     mapM (aggregate_row df) clusters).
Proof.
  unfold greedy_weighted_avg_aggregation, greedy_clusters.
  destruct (sorted_items distances) as [pairs|e]; simpl; [|reflexivity].
  apply seed_loop_groups.
Qed.

(** The clusters are pairwise disjoint and duplicate-free, they cover exactly
    the labels of the frame that occur in a key of the cache, and each one is
    a seed followed by records mergeable into it. *)
Lemma greedy_clusters_spec clusters :
  greedy_clusters df distances proximity_threshold = Ok clusters ->
  NoDup (concat clusters) /\
  (forall x, x ∈ concat clusters <->
     x ∈ valid /\ exists key, key ∈ distances.*1 /\ (x = key.1 \/ x = key.2)) /\
  Forall cluster_of_seed clusters.
Proof.
  unfold greedy_clusters.
  destruct (sorted_items distances) as [pairs|e] eqn:Es; simpl; [|discriminate].
  intros H. inversion H; subst; clear H.
  pose proof (sorted_items_perm _ _ Es) as Hperm.
  set (sri := flatten_pairs valid pairs).
  destruct (seed_groups_spec sri sri ∅) as (Hnd & Hin & Hcov & Hcl).
  { intros x Hx. apply elem_of_flatten_pairs in Hx. tauto. }
  split; [assumption|]. split; [|assumption].
  intros x. split.
  - intros Hx. destruct (Hin x Hx) as (_ & Hv & Hor).
    assert (Hs : x ∈ sri) by tauto.
    apply elem_of_flatten_pairs in Hs as (_ & pair & Hp & Hxp).
    split; [assumption|]. exists pair. split; [|assumption].
    rewrite <- Hperm. assumption.
  - intros (Hv & key & Hk & Hx).
    destruct (Hcov x) as [Hc|Hc]; [|set_solver|assumption].
    apply elem_of_flatten_pairs. split; [assumption|].
    exists key. split; [|assumption]. rewrite Hperm. assumption.
Qed.

End GreedyFacts.

(** ** Strings without a colon *)

Section ColonFree.

Local Open Scope string_scope.

Lemma append_empty_right s : s ++ "" = s.
Proof.
  induction s as [|c s IH]; [reflexivity|].
  change (String c (s ++ "") = String c s). rewrite IH. reflexivity.
Qed.

Lemma prefix_colons_free c s t :
  PyStr.free_of ":" (String c s) = true ->
  String.prefix "::" (String c s ++ t) = false.
Proof.
  intros H.
  change (String.prefix "::" (String c s ++ t))
    with (if Ascii.ascii_dec ":" c then String.prefix ":" (s ++ t) else false).
  destruct (Ascii.ascii_dec ":" c) as [<-|]; [|reflexivity].
  simpl in H. discriminate.
Qed.

Lemma count_free s t :
  PyStr.free_of ":" s = true ->
  PyStr.count_from "::" 0 (s ++ t) = PyStr.count_from "::" 0 t.
Proof.
  induction s as [|c s IH]; intros H; [reflexivity|].
  change (PyStr.count_from "::" 0 (String c s ++ t))
    with (if String.prefix "::" (String c s ++ t)
          then S (PyStr.count_from "::" 1 (s ++ t))
          else PyStr.count_from "::" 0 (s ++ t)).
  rewrite (prefix_colons_free c s t H).
  apply IH. simpl in H. apply andb_prop in H as [_ H]. exact H.
Qed.

Lemma replace_free new s t :
  PyStr.free_of ":" s = true ->
  PyStr.replace_from "::" new 0 (s ++ t) = s ++ PyStr.replace_from "::" new 0 t.
Proof.
  induction s as [|c s IH]; intros H; [reflexivity|].
  change (PyStr.replace_from "::" new 0 (String c s ++ t))
    with (if String.prefix "::" (String c s ++ t)
          then new ++ PyStr.replace_from "::" new 1 (s ++ t)
          else String c (PyStr.replace_from "::" new 0 (s ++ t))).
  rewrite (prefix_colons_free c s t H).
  rewrite IH; [reflexivity|]. simpl in H. apply andb_prop in H as [_ H]. exact H.
Qed.

Lemma contains_free s :
  PyStr.free_of ":" s = true -> PyStr.contains "::" s = false.
Proof.
  induction s as [|c s IH]; intros H; [reflexivity|].
  change (PyStr.contains "::" (String c s))
    with (String.prefix "::" (String c s) || PyStr.contains "::" s).
  pose proof (prefix_colons_free c s "" H) as Hp.
  rewrite append_empty_right in Hp. rewrite Hp. simpl.
  apply IH. simpl in H. apply andb_prop in H as [_ H]. exact H.
Qed.

(** The names joined by [":: "] hold one ["::"] per separator. *)
Lemma count_join x parts :
  Forall (fun s => PyStr.free_of ":" s = true) (x :: parts) ->
  PyStr.count "::" (PyStr.join ":: " (x :: parts)) = length parts.
Proof.
  unfold PyStr.count, PyStr.join. revert x.
  induction parts as [|y parts IH]; intros x H.
  - simpl. rewrite <- (append_empty_right x). rewrite count_free; [reflexivity|].
    inversion H; assumption.
  - change (String.concat ":: " (x :: y :: parts))
      with (x ++ ":: " ++ String.concat ":: " (y :: parts)).
    rewrite count_free by (inversion H; assumption).
    change (S (PyStr.count_from "::" 0 (String.concat ":: " (y :: parts)))
            = S (length parts)).
    f_equal. apply IH. inversion H; assumption.
Qed.

(** Rewriting ["::"] to [","] in the joined names leaves them separated by
    [", "]. *)
Lemma replace_join x parts :
  Forall (fun s => PyStr.free_of ":" s = true) (x :: parts) ->
  PyStr.replace "::" "," (PyStr.join ":: " (x :: parts))
  = PyStr.join ", " (x :: parts).
Proof.
  unfold PyStr.replace, PyStr.join. revert x.
  induction parts as [|y parts IH]; intros x H.
  - simpl. rewrite <- (append_empty_right x) at 1.
    rewrite replace_free by (inversion H; assumption).
    simpl. apply append_empty_right.
  - change (String.concat ":: " (x :: y :: parts))
      with (x ++ ":: " ++ String.concat ":: " (y :: parts)).
    change (String.concat ", " (x :: y :: parts))
      with (x ++ ", " ++ String.concat ", " (y :: parts)).
    rewrite replace_free by (inversion H; assumption).
    f_equal.
    change (", " ++ PyStr.replace_from "::" "," 0 (String.concat ":: " (y :: parts))
            = ", " ++ String.concat ", " (y :: parts)).
    f_equal. apply IH. inversion H; assumption.
Qed.

Lemma combine_joined_field parts : joined_field parts (combine parts).
Proof.
  destruct parts as [|x [|y parts]]; [reflexivity|reflexivity|].
  split; [reflexivity|]. intros H.
  change (combine (x :: y :: parts))
    with (":: " ++ PyStr.join ":: " (x :: y :: parts)).
  change (S (PyStr.count "::" (PyStr.join ":: " (x :: y :: parts)))
          = length (x :: y :: parts)).
  rewrite count_join by assumption. reflexivity.
Qed.

End ColonFree.

(** ** Claims about the greedy aggregation *)

Lemma elem_of_valid_indices df x : x ∈ valid_indices df <-> x ∈ df_index df.
Proof. unfold valid_indices. apply elem_of_list_to_set. Qed.

(** C1 (code defect).  The clusters are meant to partition the group's
    labels, a label without any cached distance forming a singleton.  On a
    group of three sites where site 2 has no coordinates, so that only the
    pair (0, 1) is cached, the aggregation returns the single cluster
    [[0; 1]]: label 2 belongs to the group and to no cluster, and the member
    lists are not a rearrangement of the group's labels. *)
Theorem greedy_loses_record_without_distance :
  greedy_clusters Sample.porphyry_unlocated Sample.cache_AB 10 = Ok [[0; 1]] /\
  2 ∈ df_index Sample.porphyry_unlocated /\
  (2 ∉ concat [[0; 1]]) /\
  ¬ (concat [[0; 1]] ≡ₚ df_index Sample.porphyry_unlocated) /\
  exists rows,
    greedy_weighted_avg_aggregation Sample.porphyry_unlocated Sample.cache_AB 10
    = Ok rows /\ agg_ms_name <$> rows = [":: A:: B"%string].
Proof.
  split; [vm_compute; reflexivity|].
  split; [vm_compute; set_solver|].
  split; [simpl; set_solver|].
  split; [intros Hp; apply Permutation_length in Hp; discriminate|].
  eexists. split; [vm_compute; reflexivity|reflexivity].
Qed.

(** C5 (code defect).  Lookups are meant to treat both orders of a pair
    alike.  With every pair stored once, smaller label first, the seed 1 looks
    up the key (1, 0), finds nothing although (0, 1) holds the distance 5
    below the threshold 10, and site 0 stays alone; with both orders stored
    the three sites form one cluster. *)
Theorem lookup_misses_reversed_key :
  dict_get Sample.cache_once (0, 1) = Some 5%Q /\
  dict_get Sample.cache_once (1, 0) = None /\
  greedy_clusters Sample.porphyry Sample.cache_once 10 = Ok [[1; 2]; [0]] /\
  greedy_clusters Sample.porphyry Sample.cache_both 10 = Ok [[1; 2; 0]].
Proof. repeat split; vm_compute; reflexivity. Qed.

(** C7.  Every cluster is a seed [i] followed by the records merged into it,
    and each merged record [j] differs from [i] and has, under the key
    [(i, j)], a stored distance that is a number strictly below the
    threshold.  An absent key, a stored [None] and a distance equal to the
    threshold therefore never merge.  The rows of the aggregation are the
    rows of exactly these clusters. *)
Theorem merge_requires_cached_distance_below_threshold
    df distances proximity_threshold clusters :
  greedy_clusters df distances proximity_threshold = Ok clusters ->
  greedy_weighted_avg_aggregation df distances proximity_threshold
    = mapM (aggregate_row df) clusters /\
  forall group, group ∈ clusters ->
    exists i added,
      group = i :: added /\
      forall j, j ∈ added ->
        j ≠ i /\
        exists d, dict_get distances (i, j) = Some d /\
                  (d < proximity_threshold)%Q /\
                  ¬ (proximity_threshold <= d)%Q.
Proof.
  intros H. split.
  - rewrite greedy_rows_of_clusters, H. reflexivity.
  - destruct (greedy_clusters_spec _ _ _ _ H) as (_ & _ & Hcl).
    intros group Hg. rewrite Forall_forall in Hcl.
    destruct (Hcl group Hg) as (i & added & -> & _ & Hall).
    exists i, added. split; [reflexivity|].
    intros j Hj. destruct (Hall j Hj) as (Hne & _ & d & Hd & Hlt).
    split; [congruence|]. exists d. split; [assumption|]. split; [assumption|].
    apply Qlt_not_le. assumption.
Qed.

Lemma merge_requires_cached_distance_witness :
  greedy_clusters Sample.porphyry Sample.cache_once 10 = Ok [[1; 2]; [0]] /\
  forall group, group ∈ [[1; 2]; [0]] ->
    exists i added,
      group = i :: added /\
      forall j, j ∈ added ->
        j ≠ i /\
        exists d, dict_get Sample.cache_once (i, j) = Some d /\
                  (d < 10)%Q /\ ¬ (10 <= d)%Q.
Proof.
  split; [vm_compute; reflexivity|].
  apply (merge_requires_cached_distance_below_threshold
           Sample.porphyry Sample.cache_once 10 [[1; 2]; [0]]).
  vm_compute; reflexivity.
Defined.

Lemma aggregate_row_fields df group row :
  aggregate_row df group = Ok row ->
  exists names ids,
    df_loc_col df group ms_name = Ok names /\
    df_loc_col df group ms = Ok ids /\
    agg_ms_name row = combine names /\
    agg_ms row = combine ids.
Proof.
  unfold aggregate_row. intros H.
  bind_inv H tonnages Et. bind_inv H grades Eg. bind_inv H g Ea.
  bind_inv H names En. bind_inv H ids Ei. bind_inv H seed_row Ef.
  inversion H; subst; clear H. exists names, ids. simpl. auto.
Qed.

(** C4 (as amended).  Each row of the aggregation belongs to one cluster, and
    its [ms_name] and [ms] are the members' names and identifiers in
    cluster-build order: the bare value for a single member; for several, the
    values joined with the three characters [":: "] after a leading [":: "],
    so that a field whose values contain no colon holds exactly one ["::"]
    per member (the prefix and one per separator). *)
Theorem cluster_fields_joined_with_colon_colon_space
    df distances proximity_threshold rows :
  greedy_weighted_avg_aggregation df distances proximity_threshold = Ok rows ->
  exists clusters,
    greedy_clusters df distances proximity_threshold = Ok clusters /\
    Forall2 (fun group row =>
      exists names ids,
        df_loc_col df group ms_name = Ok names /\
        df_loc_col df group ms = Ok ids /\
        length names = length group /\
        length ids = length group /\
        joined_field names (agg_ms_name row) /\
        joined_field ids (agg_ms row)) clusters rows.
Proof.
  rewrite greedy_rows_of_clusters. intros H.
  destruct (greedy_clusters df distances proximity_threshold) as [clusters|];
    simpl in H; [|discriminate].
  exists clusters. split; [reflexivity|].
  apply mapM_result_Forall2 in H.
  eapply Forall2_impl; [exact H|].
  intros group row Hrow. simpl in Hrow.
  destruct (aggregate_row_fields _ _ _ Hrow) as (names & ids & Hn & Hi & En & Ei).
  exists names, ids. split; [assumption|]. split; [assumption|].
  split; [exact (mapM_result_Ok_length _ _ _ Hn)|].
  split; [exact (mapM_result_Ok_length _ _ _ Hi)|].
  rewrite En, Ei. split; apply combine_joined_field.
Qed.

Lemma cluster_fields_joined_witness :
  greedy_weighted_avg_aggregation Sample.porphyry Sample.cache_once 10
    = Ok Sample.rows_once /\
  exists clusters,
    greedy_clusters Sample.porphyry Sample.cache_once 10 = Ok clusters /\
    Forall2 (fun group row =>
      exists names ids,
        df_loc_col Sample.porphyry group ms_name = Ok names /\
        df_loc_col Sample.porphyry group ms = Ok ids /\
        length names = length group /\
        length ids = length group /\
        joined_field names (agg_ms_name row) /\
        joined_field ids (agg_ms row)) clusters Sample.rows_once.
Proof.
  split; [vm_compute; reflexivity|].
  apply (cluster_fields_joined_with_colon_colon_space
           Sample.porphyry Sample.cache_once 10 Sample.rows_once).
  vm_compute; reflexivity.
Defined.

(** C4, counterexample.  The cluster of sites B and C gets the name
    [":: B:: C"], with a space after each pair of colons; joining with the
    two characters ["::"] alone would give ["::B::C"]. *)
Lemma separator_has_three_characters :
  agg_ms_name <$> Sample.rows_once = [":: B:: C"; "A"]%string /\
  agg_ms <$> Sample.rows_once = [":: /derived/B:: /derived/C"; "/derived/A"]%string /\
  greedy_weighted_avg_aggregation Sample.porphyry Sample.cache_once 10
    = Ok Sample.rows_once /\
  greedy_clusters Sample.porphyry Sample.cache_once 10 = Ok [[1; 2]; [0]] /\
  combine_specified ["B"; "C"]%string = "::B::C"%string /\
  ":: B:: C"%string ≠ combine_specified ["B"; "C"]%string.
Proof.
  split; [reflexivity|]. split; [reflexivity|].
  split; [vm_compute; reflexivity|]. split; [vm_compute; reflexivity|].
  split; [reflexivity|]. vm_compute. discriminate.
Qed.

(** ** Weights that sum to zero *)

Lemma np_average_zero_weights a w s :
  nan_sum w = Some s -> (s == 0)%Q -> np_average a w = Raise ZeroDivisionError.
Proof.
  intros Hs Hz. unfold np_average. rewrite Hs.
  destruct (Qeq_dec s 0); [reflexivity|contradiction].
Qed.

Lemma np_average_cases a w :
  (exists g, np_average a w = Ok g) \/ np_average a w = Raise ZeroDivisionError.
Proof.
  unfold np_average. destruct (nan_sum w) as [scl|]; [|left; eauto].
  destruct (Qeq_dec scl 0); [right; reflexivity|left; eauto].
Qed.

(** On labels of the frame the row of a cluster is computed unless the
    average raises: no label or subscript is missing. *)
Lemma aggregate_row_cases df group :
  group ≠ [] ->
  (forall idx, idx ∈ group -> idx ∈ df_index df) ->
  exists tonnages grades,
    df_loc_col df group total_tonnage = Ok tonnages /\
    df_loc_col df group total_grade = Ok grades /\
    match np_average grades tonnages with
    | Ok g =>
        exists row, aggregate_row df group = Ok row /\
                    agg_total_grade row = g /\
                    agg_total_tonnage row = series_sum tonnages
    | Raise e => aggregate_row df group = Raise e
    end.
Proof.
  intros Hne Hv. unfold aggregate_row.
  destruct (df_loc_col_valid df group total_tonnage Hv) as (tonnages & Et & _).
  destruct (df_loc_col_valid df group total_grade Hv) as (grades & Eg & _).
  destruct (df_loc_col_valid df group ms_name Hv) as (names & En & _).
  destruct (df_loc_col_valid df group ms Hv) as (ids & Ei & _).
  exists tonnages, grades. rewrite Et, Eg. split; [reflexivity|]. split; [reflexivity|].
  simpl. destruct (np_average grades tonnages) as [g|e]; simpl; [|reflexivity].
  rewrite En, Ei. simpl.
  destruct group as [|g0 group]; [congruence|].
  destruct (df_loc_valid df g0) as (first & Ef & _); [apply Hv; left|].
  rewrite Ef. simpl. eexists. split; [reflexivity|]. split; reflexivity.
Qed.

Lemma mapM_result_raise {A B} (f : A -> result B) e l a :
  (forall x, x ∈ l -> (exists b, f x = Ok b) \/ f x = Raise e) ->
  a ∈ l -> f a = Raise e -> mapM f l = Raise e.
Proof.
  induction l as [|x l IH]; intros Hall Ha Hf; [inversion Ha|].
  simpl. apply elem_of_cons in Ha as [<-|Ha].
  - rewrite Hf. reflexivity.
  - destruct (Hall x) as [(b & Eb)|Eb]; [left| |rewrite Eb; reflexivity].
    rewrite Eb. simpl. rewrite IH; [reflexivity| |assumption|assumption].
    intros y Hy. apply Hall. right. assumption.
Qed.

Lemma elem_of_concat_groups (clusters : list (list Z)) group idx :
  group ∈ clusters -> idx ∈ group -> idx ∈ concat clusters.
Proof.
  intros Hg Hi. induction clusters as [|c clusters IH]; [inversion Hg|].
  simpl. apply elem_of_app. apply elem_of_cons in Hg as [<-|Hg]; [left; assumption|].
  right. apply IH. assumption.
Qed.

(** Every cluster of the aggregation is non-empty and made of labels of the
    frame, so its row is computed or the average raises. *)
Lemma cluster_rows_cases df distances proximity_threshold clusters group :
  greedy_clusters df distances proximity_threshold = Ok clusters ->
  group ∈ clusters ->
  group ≠ [] /\ (forall idx, idx ∈ group -> idx ∈ df_index df) /\
  ((exists row, aggregate_row df group = Ok row) \/
   aggregate_row df group = Raise ZeroDivisionError).
Proof.
  intros H Hg.
  destruct (greedy_clusters_spec _ _ _ _ H) as (_ & Hin & Hcl).
  rewrite Forall_forall in Hcl.
  assert (Hne : group ≠ []).
  { destruct (Hcl group Hg) as (i & added & -> & _). discriminate. }
  assert (Hv : forall idx, idx ∈ group -> idx ∈ df_index df).
  { intros idx Hi. apply elem_of_valid_indices.
    apply (Hin idx). eapply elem_of_concat_groups; eassumption. }
  split; [assumption|]. split; [assumption|].
  destruct (aggregate_row_cases df group Hne Hv) as (tonnages & grades & _ & _ & Hrow).
  destruct (np_average_cases grades tonnages) as [(g & Eg)|Eg]; rewrite Eg in Hrow.
  - left. destruct Hrow as (row & Er & _). eauto.
  - right. assumption.
Qed.

(** ** The loop over the deposit types *)

Lemma elem_of_list_remove x y l : y ∈ list_remove x l -> y ∈ l.
Proof.
  induction l as [|z l IH]; simpl; [trivial|].
  destruct (decide (z = x)); intros H; [right; assumption|].
  apply elem_of_cons in H as [->|H]; [left|right; apply IH; assumption].
Qed.

Lemma elem_of_list_remove_ne x y l : y ∈ l -> y ≠ x -> y ∈ list_remove x l.
Proof.
  induction l as [|z l IH]; simpl; intros H Hne; [assumption|].
  apply elem_of_cons in H as [->|H].
  - rewrite decide_False by assumption. left.
  - destruct (decide (z = x)); [assumption|right; apply IH; assumption].
Qed.

Lemma elem_of_unique_labels ranked d_type :
  d_type ∈ unique_labels ranked <-> d_type ∈ ranked.
Proof.
  unfold unique_labels. destruct (decide ("Unknown"%string ∈ ranked)) as [Hu|Hu];
    [|reflexivity].
  rewrite elem_of_app, list_elem_of_singleton. split.
  - intros [H| ->]; [eapply elem_of_list_remove; eassumption|assumption].
  - intros H. destruct (decide (d_type = "Unknown"%string)) as [->|Hne];
      [right; reflexivity|left; apply elem_of_list_remove_ne; assumption].
Qed.

Lemma groups_loop_raise gt proximity_value labels d_type e :
  d_type ∈ labels ->
  aggregate_group gt proximity_value d_type = Raise e ->
  exists e', groups_loop gt proximity_value labels = Raise e'.
Proof.
  intros Hin Hr. induction labels as [|l labels IH]; [inversion Hin|].
  simpl. apply elem_of_cons in Hin as [<-|Hin].
  - rewrite Hr. simpl. eauto.
  - destruct (IH Hin) as (e' & He').
    destruct (aggregate_group gt proximity_value l) as [[frame|]|e0]; simpl;
      [|eauto|eauto].
    destruct (make_trace gt l frame); simpl; [|eauto].
    rewrite He'. simpl. eauto.
Qed.

(** C3 (as amended).  When the member tonnages of a cluster are all present
    and sum to zero, the weighted average of its grade raises
    [ZeroDivisionError]; nothing handles it, so the aggregation of that
    deposit type raises the same error and [get_gt_model] ends with an error
    instead of a dataset.  No unweighted mean is substituted. *)
Theorem zero_tonnage_cluster_raises
    gt ranked proximity_value d_type clusters group tonnages s :
  ¬ (proximity_value == 0)%Q ->
  d_type ∈ ranked ->
  d_type ≠ "Unknown"%string ->
  greedy_clusters (df_filter d_type (gt_df gt)) (distance_caches gt) proximity_value
    = Ok clusters ->
  group ∈ clusters ->
  df_loc_col (df_filter d_type (gt_df gt)) group total_tonnage = Ok tonnages ->
  nan_sum tonnages = Some s ->
  (s == 0)%Q ->
  aggregate_row (df_filter d_type (gt_df gt)) group = Raise ZeroDivisionError /\
  greedy_weighted_avg_aggregation (df_filter d_type (gt_df gt)) (distance_caches gt)
    proximity_value = Raise ZeroDivisionError /\
  exists e, get_gt_model gt ranked proximity_value = Raise e.
Proof.
  intros Hp Hd Hu Hcl Hg Ht Hs Hz.
  set (df := df_filter d_type (gt_df gt)) in *.
  destruct (cluster_rows_cases _ _ _ _ _ Hcl Hg) as (Hne & Hv & _).
  assert (Hrow : aggregate_row df group = Raise ZeroDivisionError).
  { destruct (aggregate_row_cases df group Hne Hv) as (tonnages' & grades & Et & _ & Hrow).
    rewrite Ht in Et. inversion Et; subst tonnages'.
    rewrite (np_average_zero_weights grades tonnages s Hs Hz) in Hrow. exact Hrow. }
  assert (Hagg : greedy_weighted_avg_aggregation df (distance_caches gt) proximity_value
                 = Raise ZeroDivisionError).
  { rewrite greedy_rows_of_clusters, Hcl. simpl.
    apply (mapM_result_raise _ _ _ group); [|assumption|assumption].
    intros x Hx. destruct (cluster_rows_cases _ _ _ _ _ Hcl Hx) as (_ & _ & Hc).
    exact Hc. }
  split; [assumption|]. split; [assumption|].
  unfold get_gt_model.
  apply (groups_loop_raise gt proximity_value _ d_type ZeroDivisionError).
  - apply elem_of_unique_labels. assumption.
  - unfold aggregate_group. destruct (Qeq_dec proximity_value 0); [contradiction|].
    rewrite decide_False by assumption. fold df. rewrite Hagg. reflexivity.
Qed.

Lemma zero_tonnage_cluster_raises_witness :
  ¬ (10 == 0)%Q /\
  aggregate_row (df_filter "Porphyry" (gt_df Sample.gt_zero)) [2; 3]
    = Raise ZeroDivisionError /\
  greedy_weighted_avg_aggregation (df_filter "Porphyry" (gt_df Sample.gt_zero))
    (distance_caches Sample.gt_zero) 10 = Raise ZeroDivisionError /\
  exists e, get_gt_model Sample.gt_zero ["Skarn"; "Porphyry"]%string 10 = Raise e.
Proof.
  split; [discriminate|].
  apply (zero_tonnage_cluster_raises Sample.gt_zero ["Skarn"; "Porphyry"]%string 10
           "Porphyry" [[2; 3]] [2; 3] [Some 0%Q; Some 0%Q] (0 + 0 + 0)%Q).
  - discriminate.
  - set_solver.
  - discriminate.
  - vm_compute; reflexivity.
  - set_solver.
  - vm_compute; reflexivity.
  - reflexivity.
  - reflexivity.
Defined.

(** C3, counterexample.  Two porphyry sites of tonnage zero form one cluster;
    its average raises, the skarn group that was aggregated before it is
    lost with it, and the request yields no dataset. *)
Lemma zero_tonnage_aborts_request :
  greedy_clusters (df_filter "Porphyry" (gt_df Sample.gt_zero))
    (distance_caches Sample.gt_zero) 10 = Ok [[2; 3]] /\
  df_loc_col (df_filter "Porphyry" (gt_df Sample.gt_zero)) [2; 3] total_tonnage
    = Ok [Some 0%Q; Some 0%Q] /\
  (exists rows,
     greedy_weighted_avg_aggregation (df_filter "Skarn" (gt_df Sample.gt_zero))
       (distance_caches Sample.gt_zero) 10 = Ok rows) /\
  get_gt_model Sample.gt_zero ["Skarn"; "Porphyry"]%string 10
    = Raise ZeroDivisionError /\
  ¬ exists out, get_gt_model Sample.gt_zero ["Skarn"; "Porphyry"]%string 10 = Ok out.
Proof.
  split; [vm_compute; reflexivity|]. split; [vm_compute; reflexivity|].
  split; [eexists; vm_compute; reflexivity|].
  assert (H : get_gt_model Sample.gt_zero ["Skarn"; "Porphyry"]%string 10
              = Raise ZeroDivisionError) by (vm_compute; reflexivity).
  split; [exact H|]. intros (out & Hout). rewrite H in Hout. discriminate.
Qed.

(** ** Threshold zero *)

Lemma lookup_commodities_ok (names : gmap string string) codes :
  (forall x, x ∈ codes -> is_Some (names !! x)) ->
  exists customdata,
    mapM (fun x => match names !! x with
                   | Some name => Ok name
                   | None => Raise KeyError
                   end) codes = Ok customdata.
Proof.
  induction codes as [|c codes IH]; intros H; simpl; [eauto|].
  destruct (H c) as [name Ec]; [left|]. rewrite Ec. simpl.
  destruct IH as (cd & Ecd); [intros x Hx; apply H; right; assumption|].
  rewrite Ecd. simpl. eauto.
Qed.

Lemma make_trace_filtered gt d_type :
  known_commodities gt ->
  exists trace,
    make_trace gt d_type (Filtered (df_filter d_type (gt_df gt))) = Ok trace /\
    tr_d_type trace = d_type /\
    tr_x trace = total_tonnage <$> (df_filter d_type (gt_df gt)).*2 /\
    tr_y trace = total_grade <$> (df_filter d_type (gt_df gt)).*2.
Proof.
  intros Hk. unfold make_trace. simpl.
  destruct (lookup_commodities_ok (commodities gt)
              (commodity <$> (df_filter d_type (gt_df gt)).*2)) as (cd & Ecd).
  { intros x Hx. apply list_elem_of_fmap in Hx as (r & -> & Hr).
    apply list_elem_of_fmap in Hr as (row & -> & Hrow).
    apply Hk. unfold df_filter in Hrow. apply list_elem_of_filter in Hrow. tauto. }
  rewrite Ecd. simpl. eexists. split; [reflexivity|]. simpl. auto.
Qed.

Lemma aggregate_group_zero gt proximity_value d_type :
  (proximity_value == 0)%Q ->
  aggregate_group gt proximity_value d_type
  = Ok (Some (Filtered (df_filter d_type (gt_df gt)))).
Proof.
  intros Hz. unfold aggregate_group.
  destruct (Qeq_dec proximity_value 0); [reflexivity|contradiction].
Qed.

Lemma groups_loop_zero gt proximity_value labels :
  (proximity_value == 0)%Q ->
  known_commodities gt ->
  exists traces,
    groups_loop gt proximity_value labels
    = Ok ((fun d => Filtered (df_filter d (gt_df gt))) <$> labels, traces) /\
    Forall2 (fun d trace =>
      tr_d_type trace = d /\
      tr_x trace = total_tonnage <$> (df_filter d (gt_df gt)).*2 /\
      tr_y trace = total_grade <$> (df_filter d (gt_df gt)).*2) labels traces.
Proof.
  intros Hz Hk. induction labels as [|d labels IH]; simpl.
  - exists []. split; [reflexivity|constructor].
  - rewrite (aggregate_group_zero gt proximity_value d Hz). simpl.
    destruct (make_trace_filtered gt d Hk) as (trace & Et & Htr).
    rewrite Et. simpl. destruct IH as (traces & El & Hall).
    rewrite El. simpl. exists (trace :: traces). split; [reflexivity|].
    constructor; assumption.
Qed.

(** C6.  With a threshold equal to zero the frame of every deposit type is
    the selection of its records from the table, unchanged: one row per
    record, nothing merged, as many rows as the group has records.  When
    every commodity of the table is in the dictionary, [get_gt_model] returns
    these selections for all the labels and plots each record's own tonnage
    and grade. *)
Theorem threshold_zero_is_identity gt ranked proximity_value :
  (proximity_value == 0)%Q ->
  (forall d_type,
     exists frame,
       aggregate_group gt proximity_value d_type = Ok (Some frame) /\
       frame = Filtered (df_filter d_type (gt_df gt)) /\
       frame_size frame = length (df_filter d_type (gt_df gt))) /\
  (known_commodities gt ->
   exists traces,
     get_gt_model gt ranked proximity_value
     = Ok ((fun d => Filtered (df_filter d (gt_df gt))) <$> unique_labels ranked,
           traces) /\
     Forall2 (fun d trace =>
       tr_d_type trace = d /\
       tr_x trace = total_tonnage <$> (df_filter d (gt_df gt)).*2 /\
       tr_y trace = total_grade <$> (df_filter d (gt_df gt)).*2)
       (unique_labels ranked) traces).
Proof.
  intros Hz. split.
  - intros d_type. eexists. split; [apply aggregate_group_zero; assumption|].
    split; reflexivity.
  - intros Hk. unfold get_gt_model. apply groups_loop_zero; assumption.
Qed.

Lemma threshold_zero_is_identity_witness :
  (0 # 2 == 0)%Q /\
  (forall d_type,
     exists frame,
       aggregate_group Sample.gt_unknown (0 # 2) d_type = Ok (Some frame) /\
       frame = Filtered (df_filter d_type (gt_df Sample.gt_unknown)) /\
       frame_size frame = length (df_filter d_type (gt_df Sample.gt_unknown))) /\
  (known_commodities Sample.gt_unknown ->
   exists traces,
     get_gt_model Sample.gt_unknown ["Porphyry"; "Unknown"]%string (0 # 2)
     = Ok ((fun d => Filtered (df_filter d (gt_df Sample.gt_unknown)))
             <$> unique_labels ["Porphyry"; "Unknown"]%string,
           traces) /\
     Forall2 (fun d trace =>
       tr_d_type trace = d /\
       tr_x trace = total_tonnage <$> (df_filter d (gt_df Sample.gt_unknown)).*2 /\
       tr_y trace = total_grade <$> (df_filter d (gt_df Sample.gt_unknown)).*2)
       (unique_labels ["Porphyry"; "Unknown"]%string) traces).
Proof.
  split; [reflexivity|].
  apply (threshold_zero_is_identity Sample.gt_unknown
           ["Porphyry"; "Unknown"]%string (0 # 2)).
  reflexivity.
Defined.

(** ** The "Unknown" group under aggregation *)

Lemma df_loc_elem df idx r : df_loc df idx = Ok r -> (idx, r) ∈ df.
Proof.
  induction df as [|[k r'] df IH]; simpl; intros H; [discriminate|].
  destruct (decide (k = idx)) as [->|].
  - inversion H; subst. left.
  - right. apply IH. assumption.
Qed.

(** A row carries the deposit type of a record of the aggregated frame. *)
Lemma aggregate_row_deposit_name df group row :
  aggregate_row df group = Ok row ->
  exists idx r, (idx, r) ∈ df /\ agg_top1_deposit_name row = top1_deposit_name r.
Proof.
  unfold aggregate_row. intros H.
  bind_inv H tonnages Et. bind_inv H grades Eg. bind_inv H g Ea.
  bind_inv H names En. bind_inv H ids Ei. bind_inv H seed_row Ef.
  destruct group as [|g0 group]; [discriminate|].
  inversion H; subst; clear H. exists g0, seed_row. split; [|reflexivity].
  apply df_loc_elem. assumption.
Qed.

Lemma aggregation_rows_deposit_name gt proximity_value d_type rows :
  greedy_weighted_avg_aggregation (df_filter d_type (gt_df gt)) (distance_caches gt)
    proximity_value = Ok rows ->
  Forall (fun row => agg_top1_deposit_name row = d_type) rows.
Proof.
  rewrite greedy_rows_of_clusters. intros H.
  destruct (greedy_clusters _ _ _) as [clusters|]; simpl in H; [|discriminate].
  apply mapM_result_Forall2 in H. apply Forall_forall. intros row Hrow.
  destruct (proj1 (list_elem_of_lookup _ _) Hrow) as (n & Hn).
  destruct (Forall2_lookup_r _ _ _ _ _ H Hn) as (group & _ & Hg).
  destruct (aggregate_row_deposit_name _ _ _ Hg) as (idx & r & Hin & ->).
  unfold df_filter in Hin. apply list_elem_of_filter in Hin as [Hd _]. exact Hd.
Qed.

Lemma groups_loop_skips_unknown gt proximity_value labels :
  ¬ (proximity_value == 0)%Q ->
  groups_loop gt proximity_value labels
  = groups_loop gt proximity_value (filter (fun d => d ≠ "Unknown"%string) labels).
Proof.
  intros Hp. induction labels as [|d labels IH]; [reflexivity|].
  destruct (decide (d = "Unknown"%string)) as [->|Hd].
  - rewrite filter_cons_False by (intros H; apply H; reflexivity).
    rewrite <- IH. simpl. unfold aggregate_group.
    destruct (Qeq_dec proximity_value 0); [contradiction|]. reflexivity.
  - rewrite filter_cons_True by assumption. simpl. rewrite IH. reflexivity.
Qed.

Lemma filter_list_remove_unknown labels :
  filter (fun d => d ≠ "Unknown"%string) (list_remove "Unknown" labels)
  = filter (fun d => d ≠ "Unknown"%string) labels.
Proof.
  induction labels as [|d labels IH]; [reflexivity|]. simpl.
  destruct (decide (d = "Unknown"%string)) as [->|Hd].
  - rewrite filter_cons_False by (intros H; apply H; reflexivity). reflexivity.
  - rewrite !filter_cons_True by assumption. rewrite IH. reflexivity.
Qed.

Lemma filter_unique_labels ranked :
  filter (fun d => d ≠ "Unknown"%string) (unique_labels ranked)
  = filter (fun d => d ≠ "Unknown"%string) ranked.
Proof.
  unfold unique_labels. destruct (decide ("Unknown"%string ∈ ranked)); [|reflexivity].
  rewrite filter_app, filter_list_remove_unknown.
  rewrite filter_cons_False by (intros H; apply H; reflexivity).
  rewrite filter_nil. apply app_nil_r.
Qed.

Lemma groups_loop_output gt proximity_value labels frames traces :
  ¬ (proximity_value == 0)%Q ->
  groups_loop gt proximity_value labels = Ok (frames, traces) ->
  Forall (fun trace => tr_d_type trace ≠ "Unknown"%string) traces /\
  Forall (fun frame =>
    exists rows, frame = Aggregated rows /\
      Forall (fun row => agg_top1_deposit_name row ≠ "Unknown"%string) rows) frames.
Proof.
  intros Hp. revert frames traces.
  induction labels as [|d labels IH]; intros frames traces H; simpl in H.
  - inversion H. split; constructor.
  - unfold aggregate_group in H.
    destruct (Qeq_dec proximity_value 0); [contradiction|].
    destruct (decide (d = "Unknown"%string)) as [->|Hd]; simpl in H; [auto|].
    destruct (greedy_weighted_avg_aggregation _ _ _) as [rows|] eqn:Er;
      simpl in H; [|discriminate].
    destruct (make_trace gt d (Aggregated rows)) as [trace|] eqn:Et;
      simpl in H; [|discriminate].
    destruct (groups_loop gt proximity_value labels) as [[fs ts]|] eqn:El;
      simpl in H; [|discriminate].
    inversion H; subst; clear H.
    destruct (IH fs ts eq_refl) as (Hts & Hfs). split.
    + constructor; [|assumption].
      unfold make_trace in Et.
      destruct (frame_columns (Aggregated rows)) as [[[[xs ys] names] codes]|];
        simpl in Et; [|discriminate].
      destruct (mapM _ codes); simpl in Et; [|discriminate].
      inversion Et; subst. simpl. assumption.
    + constructor; [|assumption]. exists rows. split; [reflexivity|].
      eapply Forall_impl; [apply (aggregation_rows_deposit_name _ _ _ _ Er)|].
      simpl. intros row ->. assumption.
Qed.

(** C2 (as amended).  With a threshold different from zero the loop passes
    over the label ["Unknown"], which the ranking puts last: the aggregation
    is not run on that group, no error is raised for it, and neither a frame
    nor a trace is produced for it.  The result is the one of the loop over
    the other labels, and it holds aggregated rows of other deposit types
    only: the records of the group are left out of the dataset. *)
Theorem unknown_group_is_left_out gt ranked proximity_value :
  ¬ (proximity_value == 0)%Q ->
  aggregate_group gt proximity_value "Unknown" = Ok None /\
  ("Unknown"%string ∈ ranked -> last (unique_labels ranked) = Some "Unknown"%string) /\
  get_gt_model gt ranked proximity_value
    = groups_loop gt proximity_value
        (filter (fun d => d ≠ "Unknown"%string) ranked) /\
  forall frames traces,
    get_gt_model gt ranked proximity_value = Ok (frames, traces) ->
    Forall (fun trace => tr_d_type trace ≠ "Unknown"%string) traces /\
    Forall (fun frame =>
      exists rows, frame = Aggregated rows /\
        Forall (fun row => agg_top1_deposit_name row ≠ "Unknown"%string) rows)
      frames.
Proof.
  intros Hp. split; [|split; [|split]].
  - unfold aggregate_group. destruct (Qeq_dec proximity_value 0); [contradiction|].
    reflexivity.
  - intros Hu. unfold unique_labels. rewrite decide_True by assumption.
    apply last_snoc.
  - unfold get_gt_model. rewrite groups_loop_skips_unknown by assumption.
    rewrite filter_unique_labels. reflexivity.
  - intros frames traces H. unfold get_gt_model in H.
    eapply groups_loop_output; eassumption.
Qed.

Lemma unknown_group_is_left_out_witness :
  ¬ (10 == 0)%Q /\
  aggregate_group Sample.gt_unknown 10 "Unknown" = Ok None /\
  ("Unknown"%string ∈ ["Unknown"; "Porphyry"]%string ->
   last (unique_labels ["Unknown"; "Porphyry"]%string) = Some "Unknown"%string) /\
  get_gt_model Sample.gt_unknown ["Unknown"; "Porphyry"]%string 10
    = groups_loop Sample.gt_unknown 10
        (filter (fun d => d ≠ "Unknown"%string) ["Unknown"; "Porphyry"]%string) /\
  forall frames traces,
    get_gt_model Sample.gt_unknown ["Unknown"; "Porphyry"]%string 10
      = Ok (frames, traces) ->
    Forall (fun trace => tr_d_type trace ≠ "Unknown"%string) traces /\
    Forall (fun frame =>
      exists rows, frame = Aggregated rows /\
        Forall (fun row => agg_top1_deposit_name row ≠ "Unknown"%string) rows)
      frames.
Proof.
  split; [discriminate|].
  apply (unknown_group_is_left_out Sample.gt_unknown
           ["Unknown"; "Porphyry"]%string 10).
  discriminate.
Defined.

(** C2, counterexample.  A table of two porphyry sites and one site of
    unknown type, aggregated with threshold 10: the dataset has the single
    frame of the porphyry cluster and the figure the single porphyry trace.
    The selection of the unknown site is not among the frames, although no
    error was raised. *)
Lemma unknown_records_are_not_passed_through :
  df_filter "Unknown" (gt_df Sample.gt_unknown)
    = [(2, Sample.site "U" "Unknown" (Some 3%Q) None None)] /\
  exists frames traces,
    get_gt_model Sample.gt_unknown ["Unknown"; "Porphyry"]%string 10
      = Ok (frames, traces) /\
    csv_name <$> (frames ≫= frame_rows) = [":: A:: B"%string] /\
    tr_d_type <$> traces = ["Porphyry"%string] /\
    Filtered (df_filter "Unknown" (gt_df Sample.gt_unknown)) ∉ frames.
Proof.
  split; [vm_compute; reflexivity|].
  eexists _, _. split; [vm_compute; reflexivity|].
  split; [reflexivity|]. split; [reflexivity|].
  intros H. apply elem_of_cons in H as [H|H]; [discriminate|inversion H].
Qed.

(** ** The CSV export *)

Lemma clean_text_combine parts :
  Forall (fun s => PyStr.free_of ":" s = true) parts ->
  clean_text (combine parts) = exported_field parts.
Proof.
  intros H. destruct parts as [|x [|y parts]].
  - reflexivity.
  - change (combine [x]) with x. unfold clean_text.
    rewrite contains_free by (inversion H; assumption). reflexivity.
  - change (combine (x :: y :: parts))
      with (":: " ++ PyStr.join ":: " (x :: y :: parts))%string.
    change (clean_text (":: " ++ PyStr.join ":: " (x :: y :: parts))%string)
      with (PyStr.replace_from "::" "," 0
              (" " ++ PyStr.join ":: " (x :: y :: parts))%string).
    rewrite (replace_free "," " ") by reflexivity.
    change (PyStr.replace_from "::" "," 0 (PyStr.join ":: " (x :: y :: parts)))
      with (PyStr.replace "::" "," (PyStr.join ":: " (x :: y :: parts))).
    rewrite replace_join by assumption. reflexivity.
Qed.

Lemma mapM_option_Forall2 {A B} (f : A -> option B) l k :
  mapM f l = Some k -> Forall2 (fun x y => f x = Some y) l k.
Proof.
  revert k. induction l as [|x l IH]; simpl; intros k H.
  - inversion H. constructor.
  - destruct (f x) as [y|] eqn:Ex; simpl in H; [|discriminate].
    destruct (mapM f l) as [k'|]; simpl in H; [|discriminate].
    inversion H; subst. constructor; [assumption|]. apply IH. reflexivity.
Qed.

Lemma Forall2_mapM_option {A B} (f : A -> option B) l k :
  Forall2 (fun x y => f x = Some y) l k -> mapM f l = Some k.
Proof.
  induction 1 as [|x y l k Hxy _ IH]; simpl; [reflexivity|].
  rewrite Hxy. simpl. rewrite IH. reflexivity.
Qed.

(** What [download_csv] returns: one row for each visible row, in order,
    the two cleaned cells being texts. *)
Lemma download_csv_rows {json : Type} (read_json : json -> list TableRow)
    agg_data visible_traces out :
  download_csv read_json agg_data visible_traces = Some out ->
  Forall2 (fun source row =>
      exists url name,
        row_ms source = Text url /\
        row_ms_name source = Text name /\
        row = mkRow (Text (clean_text url)) (Text (clean_text name))
                    (row_commodity source) (row_top1_deposit_name source)
                    (row_lat source) (row_lon source)
                    (row_total_tonnage source) (row_total_grade source))
    (filter (fun r => row_top1_deposit_name r ∈ Text <$> visible_traces)
       (agg_data ≫= read_json))
    out.
Proof.
  unfold download_csv. intros H.
  destruct (mapM _ (filter _ _)) as [rows|] eqn:E; simpl in H; [|discriminate].
  assert (rows = out) as -> by (destruct rows; [discriminate|congruence]).
  apply mapM_option_Forall2 in E.
  eapply Forall2_impl; [exact E|]. intros source row Hrow. simpl in Hrow.
  destruct (row_ms_name source) as [name| |]; simpl in Hrow; try discriminate.
  destruct (row_ms source) as [url| |]; simpl in Hrow; try discriminate.
  inversion Hrow; subst. exists url, name. repeat split.
Qed.

(** The export returns exactly when some row is visible and the two cleaned
    cells of every visible row are texts. *)
Lemma download_csv_returns_iff {json : Type} (read_json : json -> list TableRow)
    agg_data visible_traces :
  (exists out, download_csv read_json agg_data visible_traces = Some out) <->
  let visible := filter (fun r => row_top1_deposit_name r ∈ Text <$> visible_traces)
                   (agg_data ≫= read_json) in
  visible ≠ [] /\
  Forall (fun r => (exists url, row_ms r = Text url) /\
                   (exists name, row_ms_name r = Text name)) visible.
Proof.
  simpl. split.
  - intros (out & H). pose proof (download_csv_rows _ _ _ _ H) as Hrows.
    split.
    + intros E. rewrite E in Hrows. inversion Hrows; subst.
      unfold download_csv in H. rewrite E in H. discriminate.
    + apply Forall_forall. intros r Hr.
      apply list_elem_of_lookup in Hr as (n & Hn).
      destruct (Forall2_lookup_l _ _ _ _ _ Hrows Hn) as (row & _ & url & name & Hu & Hname & _).
      eauto.
  - intros [Hne Hall]. unfold download_csv.
    set (visible := filter _ _) in *.
    set (clean := fun r : TableRow => _).
    assert (Hk : exists k, Forall2 (fun x y => clean x = Some y) visible k).
    { clear Hne. induction Hall as [|r rs [[url Hu] [name Hn]] _ (k & IH)].
      - exists []. constructor.
      - eexists (_ :: k). constructor; [|exact IH].
        unfold clean. rewrite Hu, Hn. reflexivity. }
    destruct Hk as (k & Hk). pose proof (Forall2_length _ _ _ Hk) as Hlen.
    apply Forall2_mapM_option in Hk. rewrite Hk. simpl.
    destruct k as [|row k]; [destruct visible; [congruence|discriminate]|].
    eauto.
Qed.

(** A frame whose site names came back as numbers cannot be exported, and a
    frame whose deposit type came back as a number is never visible. *)
Example retyped_names_prevent_export :
  download_csv id [Sample.digit_names_frame] ["Porphyry"%string] = None /\
  download_csv id [Sample.retyped_frame] ["7"%string] = None /\
  download_csv id [Sample.digit_names_frame; decoded_table Sample.porphyry]
    ["Porphyry"%string] = None.
Proof. repeat split. Qed.

(** C8 (as amended).  When the export returns, some row is visible and its
    rows are the visible rows of the decoded frames, one for one and in
    order; the URL and name cells of every visible row were texts.  The URL
    and name cells of each exported row are the source texts cleaned by
    dropping two characters and
    rewriting each ["::"] to [","] (applied when the text contains ["::"]);
    the other six columns are unchanged.  On a field built by the
    aggregation from values without colons this yields the bare value for
    one member and, for several, the values separated by [", "] after one
    leading space. *)
Theorem export_cleans_joined_fields {json : Type} (read_json : json -> list TableRow)
    agg_data visible_traces out :
  download_csv read_json agg_data visible_traces = Some out ->
  out ≠ [] /\
  Forall2 (fun source row =>
      (exists url name,
         row_ms source = Text url /\
         row_ms_name source = Text name /\
         row_ms row = Text (clean_text url) /\
         row_ms_name row = Text (clean_text name) /\
         forall parts,
           Forall (fun s => PyStr.free_of ":" s = true) parts ->
           (url = combine parts -> row_ms row = Text (exported_field parts)) /\
           (name = combine parts -> row_ms_name row = Text (exported_field parts))) /\
      row_commodity row = row_commodity source /\
      row_top1_deposit_name row = row_top1_deposit_name source /\
      row_lat row = row_lat source /\
      row_lon row = row_lon source /\
      row_total_tonnage row = row_total_tonnage source /\
      row_total_grade row = row_total_grade source)
    (filter (fun r => row_top1_deposit_name r ∈ Text <$> visible_traces)
       (agg_data ≫= read_json))
    out.
Proof.
  intros H. split.
  { intros ->. unfold download_csv in H.
    destruct (mapM _ (filter _ _)) as [[|row rows]|]; discriminate. }
  eapply Forall2_impl; [exact (download_csv_rows _ _ _ _ H)|].
  intros source row (url & name & Hu & Hn & ->). simpl.
  split; [|repeat split].
  exists url, name. do 4 (split; [first [assumption|reflexivity]|]).
  intros parts Hp. split; intros ->; f_equal; apply clean_text_combine; assumption.
Qed.

Lemma export_cleans_joined_fields_witness :
  download_csv decoded_frame [Aggregated Sample.rows_once] ["Porphyry"%string]
    = Some Sample.export_once /\
  Sample.export_once ≠ [] /\
  Forall2 (fun source row =>
      (exists url name,
         row_ms source = Text url /\
         row_ms_name source = Text name /\
         row_ms row = Text (clean_text url) /\
         row_ms_name row = Text (clean_text name) /\
         forall parts,
           Forall (fun s => PyStr.free_of ":" s = true) parts ->
           (url = combine parts -> row_ms row = Text (exported_field parts)) /\
           (name = combine parts -> row_ms_name row = Text (exported_field parts))) /\
      row_commodity row = row_commodity source /\
      row_top1_deposit_name row = row_top1_deposit_name source /\
      row_lat row = row_lat source /\
      row_lon row = row_lon source /\
      row_total_tonnage row = row_total_tonnage source /\
      row_total_grade row = row_total_grade source)
    (filter (fun r => row_top1_deposit_name r ∈ Text <$> ["Porphyry"%string])
       ([Aggregated Sample.rows_once] ≫= decoded_frame))
    Sample.export_once.
Proof.
  split; [vm_compute; reflexivity|].
  apply (export_cleans_joined_fields decoded_frame [Aggregated Sample.rows_once]
           ["Porphyry"%string] Sample.export_once).
  vm_compute; reflexivity.
Defined.

(** C8, counterexample.  Each ["::"] is rewritten to a single comma, not to
    a comma and a space: ["::A::B"] is exported as ["A,B"].  On the field
    [":: B:: C"] that the aggregation builds, the export reads [" B, C"]
    (the spaces are those of the field), where dropping two characters and
    rewriting ["::"] to [", "] would give [" B,  C"]. *)
Lemma export_rewrites_to_single_comma :
  clean_text "::A::B" = "A,B"%string /\
  clean_text_specified "::A::B" = "A, B"%string /\
  clean_text "::A::B" ≠ clean_text_specified "::A::B" /\
  row_ms_name <$> Sample.export_once = [Text " B, C"; Text "A"] /\
  clean_text_specified ":: B:: C" = " B,  C"%string /\
  clean_text ":: B:: C" ≠ clean_text_specified ":: B:: C".
Proof.
  split; [reflexivity|]. split; [reflexivity|].
  split; [vm_compute; discriminate|]. split; [reflexivity|].
  split; [reflexivity|]. vm_compute; discriminate.
Qed.

(** ** Data cleaning *)

Section CleanAndFix.

Import Geo.

Lemma falsy_get_true (f : field Q) : falsy (get f) = true <-> missing_or_zero f.
Proof.
  unfold missing_or_zero. destruct f as [[q|]|]; simpl.
  - rewrite Qeq_bool_iff. split.
    + intros H. right. right. exists q. split; [reflexivity|assumption].
    + intros [H|[H|(q' & H & Hz)]]; try discriminate. inversion H; subst. assumption.
  - split; [intros _; right; left; reflexivity|reflexivity].
  - split; [intros _; left; reflexivity|reflexivity].
Qed.

Lemma falsy_get_false (f : field Q) : falsy (get f) = false <-> present_nonzero f.
Proof.
  unfold present_nonzero. destruct f as [[q|]|]; simpl.
  - split.
    + intros H. exists q. split; [reflexivity|].
      intros Hz. apply Qeq_bool_iff in Hz. congruence.
    + intros (q' & H & Hz). inversion H; subst.
      destruct (Qeq_bool q' 0) eqn:E; [|reflexivity].
      apply Qeq_bool_iff in E. contradiction.
  - split; [discriminate|intros (q & H & _); discriminate].
  - split; [discriminate|intros (q & H & _); discriminate].
Qed.

(** The name written by the loop body is ["Unknown"] as soon as the tonnage
    or the grade is falsy. *)
Lemma clean_one_name cache data cd :
  clean_one cache data = Ok (Some cd) ->
  falsy (get (cd_total_tonnage cd)) || falsy (get (cd_total_grade cd)) = true ->
  cd_top1_deposit_name cd = "Unknown"%string.
Proof.
  unfold clean_one. intros H.
  destruct (raw_deposit_types data) as [|d0 ds]; [discriminate|].
  destruct (deposit_types cache !! _) as [details|]; [|discriminate].
  destruct (raw_grade_tonnage data) as [|gt0 ?]; simpl in H; [discriminate|].
  destruct (gte_total_grade gt0) as [grade|]; simpl in H.
  - destruct (subscript (gte_total_tonnage gt0)) as [tonnage|]; simpl in H;
      [|discriminate].
    destruct (subscript (gte_total_contained_metal gt0)) as [metal|]; simpl in H;
      [|discriminate].
    inversion H; subst; clear H. simpl.
    destruct (_ || _); [reflexivity|discriminate].
  - inversion H; subst; clear H. reflexivity.
Qed.

End CleanAndFix.

(** C10.  In every record produced by [clean_and_fix], a tonnage or a grade
    that is absent, [None] or zero comes with the deposit name ["Unknown"];
    hence a record under any other deposit name holds a tonnage and a grade
    that are numbers other than zero. *)
Theorem missing_grade_or_tonnage_is_unknown cache raw_data results :
  Geo.clean_and_fix cache raw_data = Ok results ->
  Forall (fun cd =>
    (Geo.missing_or_zero (Geo.cd_total_tonnage cd) \/
     Geo.missing_or_zero (Geo.cd_total_grade cd) ->
     Geo.cd_top1_deposit_name cd = "Unknown"%string) /\
    (Geo.cd_top1_deposit_name cd ≠ "Unknown"%string ->
     Geo.present_nonzero (Geo.cd_total_tonnage cd) /\
     Geo.present_nonzero (Geo.cd_total_grade cd))) results.
Proof.
  revert results. induction raw_data as [|data rest IH]; intros results H; simpl in H.
  - inversion H. constructor.
  - destruct (Geo.clean_one cache data) as [o|] eqn:Eo; simpl in H; [|discriminate].
    destruct (Geo.clean_and_fix cache rest) as [rs|]; simpl in H; [|discriminate].
    inversion H; subst; clear H. specialize (IH rs eq_refl).
    destruct o as [cd|]; [|assumption]. constructor; [|assumption].
    pose proof (clean_one_name cache data cd Eo) as Hname. split.
    + intros Hm. apply Hname. apply orb_true_iff.
      destruct Hm as [Hm|Hm]; [left|right]; apply falsy_get_true; assumption.
    + intros Hne.
      destruct (Geo.falsy (Geo.get (Geo.cd_total_tonnage cd))) eqn:Et;
        [exfalso; apply Hne, Hname; reflexivity|].
      destruct (Geo.falsy (Geo.get (Geo.cd_total_grade cd))) eqn:Eg;
        [exfalso; apply Hne, Hname; reflexivity|].
      split; apply falsy_get_false; assumption.
Qed.

Lemma missing_grade_or_tonnage_is_unknown_witness :
  Geo.clean_and_fix GeoSample.cache GeoSample.raw_data = Ok GeoSample.results /\
  Forall (fun cd =>
    (Geo.missing_or_zero (Geo.cd_total_tonnage cd) \/
     Geo.missing_or_zero (Geo.cd_total_grade cd) ->
     Geo.cd_top1_deposit_name cd = "Unknown"%string) /\
    (Geo.cd_top1_deposit_name cd ≠ "Unknown"%string ->
     Geo.present_nonzero (Geo.cd_total_tonnage cd) /\
     Geo.present_nonzero (Geo.cd_total_grade cd))) GeoSample.results.
Proof.
  split; [vm_compute; reflexivity|].
  apply (missing_grade_or_tonnage_is_unknown GeoSample.cache GeoSample.raw_data
           GeoSample.results).
  vm_compute; reflexivity.
Defined.

Example clean_and_fix_sample_names :
  Geo.cd_top1_deposit_name <$> GeoSample.results
  = ["Porphyry copper"; "Unknown"; "Unknown"; "Unknown"]%string.
Proof. reflexivity. Qed.

(** ** Worked examples *)

Example replace_nonoverlapping :
  PyStr.replace ":: " ", " ":: A:: B:::: C" = ", A, B::, C"%string.
Proof. reflexivity. Qed.

Example count_nonoverlapping : PyStr.count "::" ":::: A:::" = 3%nat.
Proof. reflexivity. Qed.

(** Two sites 5 km apart, threshold 10: one cluster of tonnage 40 and grade
    (10 * 2 + 30 * 1) / 40. *)
Example merge_two_sites :
  exists row,
    greedy_weighted_avg_aggregation Sample.pair_AB Sample.cache_AB 10 = Ok [row] /\
    agg_total_tonnage row = 40%Q /\
    agg_total_grade row = Some (50 # 40)%Q /\
    agg_ms_name row = ":: A:: B"%string /\
    agg_lat row = Some 1%Q.
Proof. eexists. split; [vm_compute; reflexivity|]. repeat split. Qed.

(** A distance equal to the threshold does not merge. *)
Example threshold_is_strict :
  greedy_clusters Sample.pair_AB Sample.cache_AB 5 = Ok [[0]; [1]].
Proof. vm_compute; reflexivity. Qed.

(** A stored [None] does not merge; two stored values of which one is [None]
    cannot be sorted. *)
Example none_distance_does_not_merge :
  greedy_clusters Sample.pair_AB [((0, 1), None)] 10 = Ok [[0]; [1]] /\
  greedy_clusters Sample.pair_AB [((0, 1), None); ((1, 0), Some 5%Q)] 10
    = Raise TypeError.
Proof. split; vm_compute; reflexivity. Qed.

(** An empty group gives no cluster; the frame built from no row has no
    column to plot. *)
Example empty_group :
  greedy_weighted_avg_aggregation [] Sample.cache_AB 10 = Ok [] /\
  frame_columns (Aggregated []) = Raise KeyError.
Proof. split; vm_compute; reflexivity. Qed.

(** Ties keep the insertion order of the cache. *)
Example sort_is_stable :
  sorted_items [((3, 4), Some 2%Q); ((1, 2), Some 1%Q); ((0, 5), Some 2%Q);
                ((7, 8), Some (2 # 2))]
  = Ok [(1, 2); (7, 8); (3, 4); (0, 5)].
Proof. vm_compute; reflexivity. Qed.

(** * Further properties *)

(** Decide a closed decidable proposition by evaluation. *)
Ltac by_evaluation := apply (bool_decide_unpack _); vm_compute; exact I.

(** ** The aggregation: partition, size and representative fields *)

(** X1.  When the labels of the frame are distinct and each of them occurs
    in a key of the cache, the clusters partition the frame: their members,
    taken together, are a rearrangement of the labels, no record lost and
    none repeated. *)
Theorem clusters_partition_covered_frame df distances proximity_threshold clusters :
  NoDup (df_index df) ->
  (forall idx, idx ∈ df_index df ->
     exists key, key ∈ distances.*1 /\ (idx = key.1 \/ idx = key.2)) ->
  greedy_clusters df distances proximity_threshold = Ok clusters ->
  concat clusters ≡ₚ df_index df.
Proof.
  intros Hnd Hcov H.
  destruct (greedy_clusters_spec _ _ _ _ H) as (Hnd' & Hin & _).
  apply NoDup_Permutation; [assumption|assumption|].
  intros x. rewrite Hin, elem_of_valid_indices. split; [tauto|].
  intros Hx. split; [assumption|]. apply Hcov. assumption.
Qed.

Lemma clusters_partition_covered_frame_witness :
  NoDup (df_index Sample.porphyry) /\
  concat [[1; 2]; [0]] ≡ₚ df_index Sample.porphyry.
Proof.
  split; [by_evaluation|].
  apply (clusters_partition_covered_frame Sample.porphyry Sample.cache_once 10).
  - by_evaluation.
  - intros idx Hidx. vm_compute in Hidx.
    apply elem_of_cons in Hidx as [->|Hidx]; [exists (0, 1); split; [left|left; reflexivity]|].
    apply elem_of_cons in Hidx as [->|Hidx]; [exists (0, 1); split; [left|right; reflexivity]|].
    apply elem_of_cons in Hidx as [->|Hidx]; [|inversion Hidx].
    exists (0, 2). split; [right; left|right; reflexivity].
  - vm_compute; reflexivity.
Defined.

Lemma clusters_nonempty_length (clusters : list (list Z)) :
  Forall (fun group => group ≠ []) clusters ->
  (length clusters <= length (concat clusters))%nat.
Proof.
  induction 1 as [|group clusters Hne _ IH]; simpl; [lia|].
  rewrite length_app. destruct group; [congruence|]. simpl. lia.
Qed.

Lemma clusters_at_most_records df distances proximity_threshold clusters :
  greedy_clusters df distances proximity_threshold = Ok clusters ->
  (length clusters <= length df)%nat.
Proof.
  intros Ec.
  destruct (greedy_clusters_spec _ _ _ _ Ec) as (Hnd & Hin & Hcl).
  etransitivity; [apply clusters_nonempty_length|].
  - eapply Forall_impl; [exact Hcl|]. intros group (i & added & -> & _). discriminate.
  - replace (length df) with (length (df_index df)) by apply length_fmap.
    apply submseteq_length, NoDup_submseteq; [assumption|].
    intros x Hx. apply elem_of_valid_indices, Hin. assumption.
Qed.

(** X2.  The aggregation never returns more rows than the frame has
    records. *)
Theorem aggregation_never_adds_rows df distances proximity_threshold rows :
  greedy_weighted_avg_aggregation df distances proximity_threshold = Ok rows ->
  (length rows <= length df)%nat.
Proof.
  rewrite greedy_rows_of_clusters. intros H.
  destruct (greedy_clusters df distances proximity_threshold) as [clusters|] eqn:Ec;
    simpl in H; [|discriminate].
  rewrite (mapM_result_Ok_length _ _ _ H).
  eapply clusters_at_most_records. eassumption.
Qed.

Lemma aggregation_never_adds_rows_witness :
  greedy_weighted_avg_aggregation Sample.porphyry Sample.cache_once 10
    = Ok Sample.rows_once /\
  (length Sample.rows_once <= length Sample.porphyry)%nat.
Proof.
  split; [vm_compute; reflexivity|].
  apply (aggregation_never_adds_rows Sample.porphyry Sample.cache_once 10).
  vm_compute; reflexivity.
Defined.

Lemma aggregate_row_seed df group row :
  aggregate_row df group = Ok row ->
  exists seed added r tonnages,
    group = seed :: added /\
    df_loc df seed = Ok r /\
    df_loc_col df group total_tonnage = Ok tonnages /\
    agg_total_tonnage row = series_sum tonnages /\
    agg_commodity row = commodity r /\
    agg_top1_deposit_name row = top1_deposit_name r /\
    agg_lat row = lat r /\
    agg_lon row = lon r.
Proof.
  unfold aggregate_row. intros H.
  bind_inv H tonnages Et. bind_inv H grades Eg. bind_inv H g Ea.
  bind_inv H names En. bind_inv H ids Ei. bind_inv H seed_row Ef.
  destruct group as [|seed added]; [discriminate|].
  inversion H; subst; clear H. exists seed, added, seed_row, tonnages.
  simpl. auto 10.
Qed.

Lemma Forall2_with_left {A B} (P : A -> Prop) (R : A -> B -> Prop) l k :
  Forall P l -> Forall2 R l k -> Forall2 (fun x y => P x /\ R x y) l k.
Proof.
  intros HP HR. induction HR as [|x y l k Hxy HR IH]; [constructor|].
  inversion HP; subst. constructor; [split; assumption|apply IH; assumption].
Qed.

(** X3.  Each row stands for one cluster: its tonnage is the sum of the
    members' tonnages (missing ones skipped), and its commodity, deposit
    name, latitude and longitude are those of the seed, the first member of
    the cluster.  Every other member has a cached distance to that seed
    below the threshold, so the plotted location is within the threshold of
    all the sites the row stands for. *)
Theorem row_sums_tonnage_and_copies_seed df distances proximity_threshold rows :
  greedy_weighted_avg_aggregation df distances proximity_threshold = Ok rows ->
  exists clusters,
    greedy_clusters df distances proximity_threshold = Ok clusters /\
    Forall2 (fun group row =>
      exists seed added r tonnages,
        group = seed :: added /\
        df_loc df seed = Ok r /\
        df_loc_col df group total_tonnage = Ok tonnages /\
        agg_total_tonnage row = series_sum tonnages /\
        agg_commodity row = commodity r /\
        agg_top1_deposit_name row = top1_deposit_name r /\
        agg_lat row = lat r /\
        agg_lon row = lon r /\
        forall j, j ∈ added ->
          exists d, dict_get distances (seed, j) = Some d /\
                    (d < proximity_threshold)%Q) clusters rows.
Proof.
  rewrite greedy_rows_of_clusters. intros H.
  destruct (greedy_clusters df distances proximity_threshold) as [clusters|] eqn:Ec;
    simpl in H; [|discriminate].
  exists clusters. split; [reflexivity|].
  apply mapM_result_Forall2 in H.
  destruct (greedy_clusters_spec _ _ _ _ Ec) as (_ & _ & Hcl).
  eapply Forall2_impl; [exact (Forall2_with_left _ _ _ _ Hcl H)|].
  intros group row ((i & added' & Eg & _ & Hall) & Hrow). simpl in Hrow.
  destruct (aggregate_row_seed _ _ _ Hrow)
    as (seed & added & r & tonnages & -> & Hr & Ht & Hs & Hc & Hd & Hla & Hlo).
  inversion Eg; subst i added'.
  exists seed, added, r, tonnages. do 8 (split; [assumption || reflexivity|]).
  intros j Hj. destruct (Hall j Hj) as (_ & _ & d & Hd' & Hlt). eauto.
Qed.

Lemma row_sums_tonnage_and_copies_seed_witness :
  greedy_weighted_avg_aggregation Sample.porphyry Sample.cache_once 10
    = Ok Sample.rows_once /\
  exists clusters,
    greedy_clusters Sample.porphyry Sample.cache_once 10 = Ok clusters /\
    Forall2 (fun group row =>
      exists seed added r tonnages,
        group = seed :: added /\
        df_loc Sample.porphyry seed = Ok r /\
        df_loc_col Sample.porphyry group total_tonnage = Ok tonnages /\
        agg_total_tonnage row = series_sum tonnages /\
        agg_commodity row = commodity r /\
        agg_top1_deposit_name row = top1_deposit_name r /\
        agg_lat row = lat r /\
        agg_lon row = lon r /\
        forall j, j ∈ added ->
          exists d, dict_get Sample.cache_once (seed, j) = Some d /\ (d < 10)%Q)
      clusters Sample.rows_once.
Proof.
  split; [vm_compute; reflexivity|].
  apply (row_sums_tonnage_and_copies_seed Sample.porphyry Sample.cache_once 10).
  vm_compute; reflexivity.
Defined.

Lemma aggregate_row_singleton df i row :
  aggregate_row df [i] = Ok row ->
  exists r,
    df_loc df i = Ok r /\
    agg_ms_name row = ms_name r /\
    agg_ms row = ms r /\
    agg_commodity row = commodity r /\
    agg_top1_deposit_name row = top1_deposit_name r /\
    agg_lat row = lat r /\
    agg_lon row = lon r /\
    (forall t, total_tonnage r = Some t ->
       ¬ (t == 0)%Q /\ (agg_total_tonnage row == t)%Q) /\
    (total_tonnage r = None -> (agg_total_tonnage row == 0)%Q) /\
    (is_Some (agg_total_grade row) <->
     is_Some (total_tonnage r) /\ is_Some (total_grade r)).
Proof.
  unfold aggregate_row, df_loc_col. simpl. intros H.
  destruct (df_loc df i) as [r|]; simpl in H; [|discriminate].
  exists r. split; [reflexivity|].
  unfold np_average, nan_sum in H. simpl in H.
  destruct (total_tonnage r) as [t|] eqn:Et; simpl in H.
  - destruct (Qeq_dec (0 + t) 0) as [|Hnz]; simpl in H; [discriminate|].
    inversion H; subst; clear H. simpl.
    do 6 (split; [reflexivity|]). split; [|split; [discriminate|]].
    + intros t' Ht'. inversion Ht'; subst t'. split.
      * intros Hz. apply Hnz. rewrite Hz. reflexivity.
      * unfold series_sum. simpl. apply Qplus_0_l.
    + destruct (total_grade r) as [g|]; simpl; split.
      * intros _. split; eexists; reflexivity.
      * intros _. eexists; reflexivity.
      * intros [x Hx]. discriminate.
      * intros [_ [x Hx]]. discriminate.
  - inversion H; subst; clear H. simpl.
    do 6 (split; [reflexivity|]). split; [discriminate|]. split; [reflexivity|].
    split; [intros [x Hx]; discriminate|intros [[x Hx] _]; discriminate].
Qed.

(** X5.  A cluster of a single record keeps that record's texts, coordinates
    and tonnage: the row has its name and identifier without prefix, its
    commodity, deposit name, latitude and longitude, and a tonnage equal to
    the record's, which is then not zero (a single record of tonnage zero
    yields no row, the average having raised; a missing tonnage is summed as
    zero).  The row has a grade exactly when the record has both a tonnage
    and a grade; that grade is recomputed as a quotient and nothing is said
    of its digits. *)
Theorem singleton_cluster_reproduces_record df distances proximity_threshold rows :
  greedy_weighted_avg_aggregation df distances proximity_threshold = Ok rows ->
  exists clusters,
    greedy_clusters df distances proximity_threshold = Ok clusters /\
    Forall2 (fun group row =>
      forall i, group = [i] ->
        exists r,
          df_loc df i = Ok r /\
          agg_ms_name row = ms_name r /\
          agg_ms row = ms r /\
          agg_commodity row = commodity r /\
          agg_top1_deposit_name row = top1_deposit_name r /\
          agg_lat row = lat r /\
          agg_lon row = lon r /\
          (forall t, total_tonnage r = Some t ->
             ¬ (t == 0)%Q /\ (agg_total_tonnage row == t)%Q) /\
          (total_tonnage r = None -> (agg_total_tonnage row == 0)%Q) /\
          (is_Some (agg_total_grade row) <->
           is_Some (total_tonnage r) /\ is_Some (total_grade r)))
      clusters rows.
Proof.
  rewrite greedy_rows_of_clusters. intros H.
  destruct (greedy_clusters df distances proximity_threshold) as [clusters|];
    simpl in H; [|discriminate].
  exists clusters. split; [reflexivity|].
  apply mapM_result_Forall2 in H.
  eapply Forall2_impl; [exact H|].
  intros group row Hrow i ->. apply aggregate_row_singleton. exact Hrow.
Qed.

Lemma singleton_cluster_reproduces_record_witness :
  greedy_weighted_avg_aggregation Sample.porphyry Sample.cache_once 10
    = Ok Sample.rows_once /\
  exists clusters,
    greedy_clusters Sample.porphyry Sample.cache_once 10 = Ok clusters /\
    Forall2 (fun group row =>
      forall i, group = [i] ->
        exists r,
          df_loc Sample.porphyry i = Ok r /\
          agg_ms_name row = ms_name r /\
          agg_ms row = ms r /\
          agg_commodity row = commodity r /\
          agg_top1_deposit_name row = top1_deposit_name r /\
          agg_lat row = lat r /\
          agg_lon row = lon r /\
          (forall t, total_tonnage r = Some t ->
             ¬ (t == 0)%Q /\ (agg_total_tonnage row == t)%Q) /\
          (total_tonnage r = None -> (agg_total_tonnage row == 0)%Q) /\
          (is_Some (agg_total_grade row) <->
           is_Some (total_tonnage r) /\ is_Some (total_grade r)))
      clusters Sample.rows_once.
Proof.
  split; [vm_compute; reflexivity|].
  apply (singleton_cluster_reproduces_record Sample.porphyry Sample.cache_once 10).
  vm_compute; reflexivity.
Defined.

(** ** The distance extent *)

Section Extent.

Local Open Scope Q_scope.

Lemma py_min_spec current values :
  py_min current values ∈ current :: values /\
  py_min current values <= current /\
  forall v, v ∈ values -> py_min current values <= v.
Proof.
  revert current. induction values as [|v values IH]; intros current; simpl.
  - split; [left|]. split; [apply Qle_refl|]. intros v Hv. inversion Hv.
  - destruct (IH (if Qlt_le_dec v current then v else current)) as (Hin & Hle & Hall).
    destruct (Qlt_le_dec v current) as [Hlt|Hge].
    + split; [right; assumption|]. split; [lra|].
      intros v' Hv'. apply elem_of_cons in Hv' as [->|Hv']; [assumption|auto].
    + split.
      { apply elem_of_cons in Hin as [->|Hin]; [left|right; right; assumption]. }
      split; [assumption|].
      intros v' Hv'. apply elem_of_cons in Hv' as [->|Hv']; [lra|auto].
Qed.

Lemma py_max_spec current values :
  py_max current values ∈ current :: values /\
  current <= py_max current values /\
  forall v, v ∈ values -> v <= py_max current values.
Proof.
  revert current. induction values as [|v values IH]; intros current; simpl.
  - split; [left|]. split; [apply Qle_refl|]. intros v Hv. inversion Hv.
  - destruct (IH (if Qlt_le_dec current v then v else current)) as (Hin & Hle & Hall).
    destruct (Qlt_le_dec current v) as [Hlt|Hge].
    + split; [right; assumption|]. split; [lra|].
      intros v' Hv'. apply elem_of_cons in Hv' as [->|Hv']; [assumption|auto].
    + split.
      { apply elem_of_cons in Hin as [->|Hin]; [left|right; right; assumption]. }
      split; [assumption|].
      intros v' Hv'. apply elem_of_cons in Hv' as [->|Hv']; [lra|auto].
Qed.

Lemma dict_get_elem (distances : DistanceCache) key d :
  dict_get distances key = Some d -> (key, Some d) ∈ distances.
Proof.
  induction distances as [|[k v] distances IH]; simpl; [discriminate|].
  destruct (decide (k = key)) as [->|]; intros H.
  - subst v. left.
  - right. apply IH. assumption.
Qed.

Lemma mapM_id_present (values : list (option Q)) xs :
  mapM id values = Some xs -> values = Some <$> xs.
Proof.
  intros H. apply mapM_Some in H.
  induction H as [|v x values xs Hv _ IH]; [reflexivity|].
  simpl in Hv. subst v. simpl. f_equal. assumption.
Qed.

Lemma mapM_id_missing (values : list (option Q)) :
  mapM id values = None -> None ∈ values.
Proof.
  induction values as [|[x|] values IH]; simpl; intros H; [discriminate| |left].
  right. apply IH. destruct (mapM id values); [discriminate|reflexivity].
Qed.

Lemma elem_of_values (distances : DistanceCache) v :
  v ∈ distances.*2 <-> exists key, (key, v) ∈ distances.
Proof.
  rewrite list_elem_of_fmap. split.
  - intros ([k v'] & -> & H). exists k. assumption.
  - intros (k & H). exists (k, v). split; [reflexivity|assumption].
Qed.

(** The returned pair bounds every stored distance and both bounds are
    stored distances. *)
Lemma extent_bounds (distances : DistanceCache) mn mx :
  calculate_min_max_distance distances = Returned (Some mn, Some mx) ->
  (forall entry, entry ∈ distances -> exists d, entry.2 = Some d /\ mn <= d /\ d <= mx) /\
  (exists key, (key, Some mn) ∈ distances) /\
  (exists key, (key, Some mx) ∈ distances).
Proof.
  unfold calculate_min_max_distance. intros H.
  assert (Hvals : exists x xs, distances.*2 = Some <$> (x :: xs) /\
                               mn = py_min x xs /\ mx = py_max x xs).
  { destruct (distances.*2) as [|v [|v' values]] eqn:Ev; [discriminate| |].
    - inversion H; subst. exists mn, []. repeat split. inversion H2. reflexivity.
    - destruct (mapM id (v :: v' :: values)) as [[|x xs]|] eqn:Em; try discriminate.
      inversion H; subst. exists x, xs. split; [|split; reflexivity].
      apply mapM_id_present. assumption. }
  destruct Hvals as (x & xs & Ev & -> & ->).
  destruct (py_min_spec x xs) as (Hmin_in & Hmin_le & Hmin_all).
  destruct (py_max_spec x xs) as (Hmax_in & Hmax_le & Hmax_all).
  split; [|split].
  - intros [k v] Hentry.
    assert (Hv : v ∈ distances.*2) by (apply elem_of_values; eauto).
    rewrite Ev in Hv. apply list_elem_of_fmap in Hv as (d & -> & Hd).
    exists d. split; [reflexivity|].
    apply elem_of_cons in Hd as [->|Hd]; [split; assumption|].
    split; [apply Hmin_all|apply Hmax_all]; assumption.
  - apply elem_of_values. rewrite Ev. apply list_elem_of_fmap_2. assumption.
  - apply elem_of_values. rewrite Ev. apply list_elem_of_fmap_2. assumption.
Qed.

End Extent.

Lemma extent_of_several entry1 entry2 (rest : DistanceCache) :
  calculate_min_max_distance (entry1 :: entry2 :: rest)
  = match mapM id (entry1 :: entry2 :: rest).*2 with
    | Some (x :: xs) => Returned (Some (py_min x xs), Some (py_max x xs))
    | _ => Raised (Builtin TypeError)
    end.
Proof. reflexivity. Qed.

Lemma extent_raised (distances : DistanceCache) e :
  calculate_min_max_distance distances = Raised e ->
  (e = ValueError /\ distances = []) \/
  (e = Builtin TypeError /\ (2 <= length distances)%nat /\
   exists key, (key, None) ∈ distances).
Proof.
  destruct distances as [|entry1 [|entry2 rest]].
  - intros H. inversion H. left. split; reflexivity.
  - discriminate.
  - rewrite extent_of_several.
    destruct (mapM id _) as [[|x xs]|] eqn:Em; intros H; inversion H; subst.
    + apply mapM_id_present in Em. discriminate Em.
    + right. split; [reflexivity|]. split; [simpl; lia|].
      apply elem_of_values, mapM_id_missing. assumption.
Qed.

Lemma extent_returned (distances : DistanceCache) a b :
  calculate_min_max_distance distances = Returned (a, b) ->
  (a = None /\ b = None /\ exists key, distances = [(key, None)]) \/
  (exists mn mx, a = Some mn /\ b = Some mx).
Proof.
  destruct distances as [|[k v] [|entry2 rest]].
  - discriminate.
  - intros H. inversion H; subst. destruct b as [d|]; [right; eauto|].
    left. split; [reflexivity|]. split; [reflexivity|]. exists k. reflexivity.
  - rewrite extent_of_several.
    destruct (mapM id _) as [[|x xs]|]; intros H; inversion H; subst.
    right. eauto.
Qed.

(** X6.  [calculate_min_max_distance] raises [ValueError] exactly on an
    empty cache and [TypeError] exactly when a [None] is stored in a cache of
    two or more entries; a single entry is returned as both bounds, [None]
    included; otherwise every stored distance is a number and lies between
    the two returned values, which are themselves stored distances. *)
Theorem extent_outcomes (distances : DistanceCache) :
  match calculate_min_max_distance distances with
  | Raised ValueError => distances = []
  | Raised (Builtin TypeError) =>
      (2 <= length distances)%nat /\ exists key, (key, None) ∈ distances
  | Returned (None, None) => exists key, distances = [(key, None)]
  | Returned (Some mn, Some mx) =>
      (forall entry, entry ∈ distances ->
         exists d, entry.2 = Some d /\ (mn <= d)%Q /\ (d <= mx)%Q) /\
      (exists key, (key, Some mn) ∈ distances) /\
      (exists key, (key, Some mx) ∈ distances)
  | _ => False
  end.
Proof.
  destruct (calculate_min_max_distance distances) as [[a b]|e] eqn:E.
  - destruct (extent_returned _ _ _ E) as [(-> & -> & Hk)|(mn & mx & -> & ->)];
      [assumption|].
    apply extent_bounds. assumption.
  - destruct (extent_raised _ _ E) as [[-> Hd]|(-> & Hd)]; assumption.
Qed.

(** X7.  With a threshold that does not exceed the smallest distance
    returned by [calculate_min_max_distance], and in particular with a
    threshold that is negative or zero when no distance is negative, the
    aggregation merges nothing: every cluster has a single member. *)
Theorem threshold_up_to_minimum_merges_nothing
    df distances proximity_threshold mn mx clusters :
  calculate_min_max_distance distances = Returned (Some mn, Some mx) ->
  (proximity_threshold <= mn)%Q ->
  greedy_clusters df distances proximity_threshold = Ok clusters ->
  Forall (fun group => exists i, group = [i]) clusters.
Proof.
  intros Hext Hp H.
  destruct (extent_bounds _ _ _ Hext) as (Hall & _ & _).
  destruct (greedy_clusters_spec _ _ _ _ H) as (_ & _ & Hcl).
  eapply Forall_impl; [exact Hcl|].
  intros group (i & added & -> & _ & Hadded). exists i. f_equal.
  destruct added as [|j added]; [reflexivity|exfalso].
  destruct (Hadded j) as (_ & _ & d & Hd & Hlt); [left|].
  apply dict_get_elem in Hd.
  destruct (Hall _ Hd) as (d' & Ed & Hge & _). simpl in Ed. inversion Ed; subst d'.
  apply (Qlt_irrefl d). eapply Qlt_le_trans; [exact Hlt|].
  eapply Qle_trans; eassumption.
Qed.

Lemma threshold_up_to_minimum_merges_nothing_witness :
  calculate_min_max_distance Sample.cache_once = Returned (Some 1%Q, Some 50%Q) /\
  Forall (fun group => exists i, group = [i]) [[1]; [2]; [0]].
Proof.
  split; [vm_compute; reflexivity|].
  apply (threshold_up_to_minimum_merges_nothing
           Sample.porphyry Sample.cache_once 1 1 50 [[1]; [2]; [0]]).
  - vm_compute; reflexivity.
  - discriminate.
  - vm_compute; reflexivity.
Defined.

(** ** The dataset: label order, traces and frames *)

Lemma list_remove_perm x l : x ∈ l -> x :: list_remove x l ≡ₚ l.
Proof.
  induction l as [|y l IH]; intros H; [inversion H|]. simpl.
  destruct (decide (y = x)) as [->|Hne]; [reflexivity|].
  apply elem_of_cons in H as [->|H]; [congruence|].
  rewrite Permutation_swap, IH by assumption. reflexivity.
Qed.

(** X8.  Moving ["Unknown"] to the bottom only rearranges the ranked labels:
    the result holds the same labels the same number of times, and the
    labels other than ["Unknown"] keep their ranked order. *)
Theorem unique_labels_rearranges_ranking ranked :
  unique_labels ranked ≡ₚ ranked /\
  filter (fun d => d ≠ "Unknown"%string) (unique_labels ranked)
  = filter (fun d => d ≠ "Unknown"%string) ranked.
Proof.
  split; [|apply filter_unique_labels].
  unfold unique_labels. destruct (decide ("Unknown"%string ∈ ranked)); [|reflexivity].
  rewrite <- Permutation_cons_append. apply list_remove_perm. assumption.
Qed.

Lemma make_trace_shape gt d_type frame trace :
  make_trace gt d_type frame = Ok trace ->
  tr_d_type trace = d_type /\
  tr_count trace = length (df_filter d_type (gt_df gt)) /\
  length (tr_x trace) = frame_size frame /\
  length (tr_y trace) = frame_size frame /\
  length (tr_text trace) = frame_size frame /\
  length (tr_customdata trace) = frame_size frame.
Proof.
  unfold make_trace. intros H. bind_inv H cols Ec.
  destruct cols as [[[xs ys] names] codes]. bind_inv H customdata Ed.
  inversion H; subst; clear H. simpl.
  apply mapM_result_Ok_length in Ed.
  destruct frame as [rows|[|row rows]]; simpl in Ec; inversion Ec; subst;
    simpl in *; rewrite ?length_fmap in *; repeat split; lia.
Qed.

Lemma groups_loop_aligned gt proximity_value labels frames traces :
  groups_loop gt proximity_value labels = Ok (frames, traces) ->
  tr_d_type <$> traces
    = (if Qeq_dec proximity_value 0 then labels
       else filter (fun d => d ≠ "Unknown"%string) labels) /\
  Forall2 (fun frame trace =>
    tr_count trace = length (df_filter (tr_d_type trace) (gt_df gt)) /\
    length (tr_x trace) = frame_size frame /\
    length (tr_y trace) = frame_size frame /\
    length (tr_text trace) = frame_size frame /\
    length (tr_customdata trace) = frame_size frame /\
    (frame_size frame <= tr_count trace)%nat) frames traces.
Proof.
  revert frames traces. induction labels as [|d labels IH]; intros frames traces H;
    simpl in H.
  - inversion H; subst. split; [destruct (Qeq_dec proximity_value 0); reflexivity|].
    constructor.
  - bind_inv H o Eo. destruct o as [frame|].
    + bind_inv H trace Et. bind_inv H out Eout. destruct out as [fs ts].
      inversion H; subst; clear H. cbn [fst snd].
      destruct (IH fs ts Eout) as (Hnames & Hall).
      destruct (make_trace_shape _ _ _ _ Et) as (Hd & Hc & Hx & Hy & Ht & Hcd).
      assert (Hsize : (frame_size frame <= tr_count trace)%nat /\
                      (¬ (proximity_value == 0)%Q -> d ≠ "Unknown"%string)).
      { rewrite Hc. unfold aggregate_group in Eo.
        destruct (Qeq_dec proximity_value 0) as [Hz|Hnz].
        - inversion Eo; subst. simpl. split; [lia|]. intros Hn. contradiction.
        - destruct (decide (d = "Unknown"%string)); [discriminate|].
          bind_inv Eo rows Er. inversion Eo; subst. simpl.
          split; [|intros _; assumption].
          rewrite greedy_rows_of_clusters in Er.
          destruct (greedy_clusters _ _ _) as [clusters|] eqn:Ecl;
            simpl in Er; [|discriminate].
          rewrite (mapM_result_Ok_length _ _ _ Er).
          eapply clusters_at_most_records. eassumption. }
      destruct Hsize as [Hsize Hdne]. split.
      * rewrite fmap_cons, Hd, Hnames.
        destruct (Qeq_dec proximity_value 0); [reflexivity|].
        rewrite filter_cons_True by auto. reflexivity.
      * constructor; [|assumption]. rewrite Hd at 1. rewrite <- Hc. auto 10.
    + destruct (IH frames traces H) as (Hnames & Hall). split; [|assumption].
      unfold aggregate_group in Eo.
      destruct (Qeq_dec proximity_value 0); [discriminate|].
      destruct (decide (d = "Unknown"%string)) as [->|Hd].
      * rewrite filter_cons_False by (intros Hn; apply Hn; reflexivity). assumption.
      * bind_inv Eo rows Er. discriminate.
Qed.

(** X9.  In the dataset returned by [get_gt_model] the traces follow the
    label order (all the labels for a threshold of zero, the labels other
    than ["Unknown"] otherwise), one trace per frame.  Each trace plots as
    many points as its frame has rows, and its legend count is the number of
    records of its deposit type in the table, which the number of plotted
    points never exceeds. *)
Theorem traces_follow_labels_and_frames gt ranked proximity_value frames traces :
  get_gt_model gt ranked proximity_value = Ok (frames, traces) ->
  tr_d_type <$> traces
    = (if Qeq_dec proximity_value 0 then unique_labels ranked
       else filter (fun d => d ≠ "Unknown"%string) ranked) /\
  Forall2 (fun frame trace =>
    tr_count trace = length (df_filter (tr_d_type trace) (gt_df gt)) /\
    length (tr_x trace) = frame_size frame /\
    length (tr_y trace) = frame_size frame /\
    length (tr_text trace) = frame_size frame /\
    length (tr_customdata trace) = frame_size frame /\
    (frame_size frame <= tr_count trace)%nat) frames traces.
Proof.
  unfold get_gt_model. intros H.
  destruct (groups_loop_aligned _ _ _ _ _ H) as (Hnames & Hall).
  split; [|assumption]. rewrite Hnames.
  destruct (Qeq_dec proximity_value 0); [reflexivity|apply filter_unique_labels].
Qed.

Lemma traces_follow_labels_and_frames_witness :
  get_gt_model Sample.gt_unknown ["Porphyry"; "Unknown"]%string 10
    = Ok (MoreSamples.dataset_unknown.1, MoreSamples.dataset_unknown.2) /\
  tr_d_type <$> MoreSamples.dataset_unknown.2
    = (if Qeq_dec 10 0 then unique_labels ["Porphyry"; "Unknown"]%string
       else filter (fun d => d ≠ "Unknown"%string) ["Porphyry"; "Unknown"]%string) /\
  Forall2 (fun frame trace =>
    tr_count trace
      = length (df_filter (tr_d_type trace) (gt_df Sample.gt_unknown)) /\
    length (tr_x trace) = frame_size frame /\
    length (tr_y trace) = frame_size frame /\
    length (tr_text trace) = frame_size frame /\
    length (tr_customdata trace) = frame_size frame /\
    (frame_size frame <= tr_count trace)%nat)
    MoreSamples.dataset_unknown.1 MoreSamples.dataset_unknown.2.
Proof.
  split; [vm_compute; reflexivity|].
  apply (traces_follow_labels_and_frames Sample.gt_unknown
           ["Porphyry"; "Unknown"]%string 10).
  vm_compute; reflexivity.
Defined.

(** ** A deposit type without cached distances *)

Lemma concat_nil_nonempty (clusters : list (list Z)) :
  Forall (fun group => group ≠ []) clusters -> concat clusters = [] -> clusters = [].
Proof.
  intros H Hc. destruct H as [|group clusters Hne _]; [reflexivity|].
  simpl in Hc. apply app_eq_nil in Hc as [Hg _]. contradiction.
Qed.

Lemma sorted_items_raises distances e :
  sorted_items distances = Raise e -> e = TypeError.
Proof.
  unfold sorted_items. destruct distances as [|[k v] [|kv rest]]; try discriminate.
  destruct (numeric_items _); [discriminate|]. intros H. inversion H. reflexivity.
Qed.

(** When no label of the frame occurs in a key of the cache, the aggregation
    returns no row at all (or the sort of the cache raises). *)
Lemma aggregation_without_cached_label df distances proximity_threshold :
  (forall idx key, idx ∈ df_index df -> key ∈ distances.*1 ->
     idx ≠ key.1 /\ idx ≠ key.2) ->
  greedy_weighted_avg_aggregation df distances proximity_threshold = Ok [] \/
  greedy_weighted_avg_aggregation df distances proximity_threshold = Raise TypeError.
Proof.
  intros Hno. rewrite greedy_rows_of_clusters.
  destruct (greedy_clusters df distances proximity_threshold) as [clusters|e] eqn:Ec.
  - left. destruct (greedy_clusters_spec _ _ _ _ Ec) as (_ & Hin & Hcl).
    assert (Hnil : clusters = []).
    { apply concat_nil_nonempty.
      - eapply Forall_impl; [exact Hcl|]. intros group (i & added & -> & _). discriminate.
      - destruct (concat clusters) as [|x l] eqn:Ecat; [reflexivity|exfalso].
        destruct (proj1 (Hin x)) as (Hv & key & Hk & Hx); [left|].
        apply elem_of_valid_indices in Hv.
        destruct (Hno x key Hv Hk) as [H1 H2]. destruct Hx; contradiction. }
    subst clusters. reflexivity.
  - right. unfold greedy_clusters in Ec.
    destruct (sorted_items distances) as [pairs|e'] eqn:Es; simpl in Ec; [discriminate|].
    inversion Ec; subst. rewrite (sorted_items_raises _ _ Es). reflexivity.
Qed.

Lemma groups_loop_trace_fails gt proximity_value labels d_type :
  d_type ∈ labels ->
  (exists e, aggregate_group gt proximity_value d_type = Raise e) \/
  (exists frame e, aggregate_group gt proximity_value d_type = Ok (Some frame) /\
                   make_trace gt d_type frame = Raise e) ->
  exists e', groups_loop gt proximity_value labels = Raise e'.
Proof.
  intros Hin Hfail. induction labels as [|l labels IH]; [inversion Hin|].
  simpl. apply elem_of_cons in Hin as [<-|Hin].
  - destruct Hfail as [(e & ->)|(frame & e & -> & Ht)]; simpl; [eauto|].
    rewrite Ht. simpl. eauto.
  - destruct (IH Hin) as (e' & He').
    destruct (aggregate_group gt proximity_value l) as [[frame|]|e0]; simpl;
      [|eauto|eauto].
    destruct (make_trace gt l frame); simpl; [|eauto].
    rewrite He'. simpl. eauto.
Qed.

(** X10.  With a threshold different from zero, a ranked deposit type other
    than ["Unknown"] none of whose records occurs in a key of the distance
    cache makes [get_gt_model] fail: its aggregation returns a frame without
    rows and without columns, and selecting the tonnage column of that frame
    raises.  One site without coordinates that is alone in its deposit type
    is enough. *)
Theorem deposit_type_without_distances_fails gt ranked proximity_value d_type :
  ¬ (proximity_value == 0)%Q ->
  d_type ∈ ranked ->
  d_type ≠ "Unknown"%string ->
  (forall row key, row ∈ df_filter d_type (gt_df gt) ->
     key ∈ (distance_caches gt).*1 -> row.1 ≠ key.1 /\ row.1 ≠ key.2) ->
  (aggregate_group gt proximity_value d_type = Ok (Some (Aggregated [])) \/
   aggregate_group gt proximity_value d_type = Raise TypeError) /\
  make_trace gt d_type (Aggregated []) = Raise KeyError /\
  exists e, get_gt_model gt ranked proximity_value = Raise e.
Proof.
  intros Hp Hd Hu Hno.
  assert (Hagg : aggregate_group gt proximity_value d_type = Ok (Some (Aggregated [])) \/
                 aggregate_group gt proximity_value d_type = Raise TypeError).
  { unfold aggregate_group. destruct (Qeq_dec proximity_value 0); [contradiction|].
    rewrite decide_False by assumption.
    destruct (aggregation_without_cached_label (df_filter d_type (gt_df gt))
                (distance_caches gt) proximity_value) as [-> | ->];
      [|left; reflexivity|right; reflexivity].
    intros idx key Hidx Hkey. unfold df_index in Hidx.
    apply list_elem_of_fmap in Hidx as (row & -> & Hrow). apply Hno; assumption. }
  split; [assumption|]. split; [reflexivity|].
  unfold get_gt_model. apply (groups_loop_trace_fails gt proximity_value _ d_type).
  - apply elem_of_unique_labels. assumption.
  - destruct Hagg as [Hagg|Hagg]; [right|left; eauto].
    exists (Aggregated []), KeyError. split; [assumption|reflexivity].
Qed.

Lemma deposit_type_without_distances_fails_witness :
  ¬ (10 == 0)%Q /\
  (aggregate_group MoreSamples.gt_lone 10 "Skarn" = Ok (Some (Aggregated [])) \/
   aggregate_group MoreSamples.gt_lone 10 "Skarn" = Raise TypeError) /\
  make_trace MoreSamples.gt_lone "Skarn" (Aggregated []) = Raise KeyError /\
  exists e, get_gt_model MoreSamples.gt_lone ["Porphyry"; "Skarn"]%string 10 = Raise e.
Proof.
  split; [discriminate|].
  apply (deposit_type_without_distances_fails MoreSamples.gt_lone
           ["Porphyry"; "Skarn"]%string 10 "Skarn").
  - discriminate.
  - set_solver.
  - discriminate.
  - intros row key Hrow Hkey. vm_compute in Hrow, Hkey.
    apply list_elem_of_singleton in Hrow. apply list_elem_of_singleton in Hkey.
    subst. split; discriminate.
Defined.

(** ** Splitting on spaces *)

Section Words.

Local Open Scope string_scope.

Import PyText.

Lemma split_ws_space c s : is_space c = true -> split_ws (String c s) = split_ws s.
Proof. intros H. simpl. rewrite H. reflexivity. Qed.

Lemma split_ws_last c : is_space c = false -> split_ws (String c "") = [String c ""].
Proof. intros H. simpl. rewrite H. reflexivity. Qed.

Lemma split_ws_before_space c c' s :
  is_space c = false -> is_space c' = true ->
  split_ws (String c (String c' s)) = String c "" :: split_ws (String c' s).
Proof.
  intros H H'.
  change (split_ws (String c (String c' s)))
    with (if is_space c then split_ws (String c' s)
          else if is_space c' then String c "" :: split_ws (String c' s)
               else match split_ws (String c' s) with
                    | w :: ws => String c w :: ws
                    | [] => [String c ""]
                    end).
  rewrite H, H'. reflexivity.
Qed.

Lemma split_ws_before_letter c c' s :
  is_space c = false -> is_space c' = false ->
  split_ws (String c (String c' s))
  = match split_ws (String c' s) with
    | w :: ws => String c w :: ws
    | [] => [String c ""]
    end.
Proof.
  intros H H'.
  change (split_ws (String c (String c' s)))
    with (if is_space c then split_ws (String c' s)
          else if is_space c' then String c "" :: split_ws (String c' s)
               else match split_ws (String c' s) with
                    | w :: ws => String c w :: ws
                    | [] => [String c ""]
                    end).
  rewrite H, H'. reflexivity.
Qed.

Lemma word_cons c s :
  word (String c s) = true <-> is_space c = false /\ space_free s = true.
Proof.
  unfold word. simpl. rewrite andb_true_iff, negb_true_iff. tauto.
Qed.

Lemma word_inv w :
  word w = true -> exists c s, w = String c s /\ is_space c = false /\ space_free s = true.
Proof.
  destruct w as [|c s]; [discriminate|]. intros H.
  apply word_cons in H. eauto.
Qed.

Lemma space_free_tail_word c s :
  space_free (String c s) = true -> word (String c s) = true.
Proof.
  simpl. rewrite andb_true_iff, negb_true_iff. intros [H1 H2].
  apply word_cons. split; assumption.
Qed.

(** A word followed by a space and a text splits into the word and the
    tokens of the text. *)
Lemma split_ws_word_then w sp s :
  word w = true -> is_space sp = true ->
  split_ws (w ++ String sp s) = w :: split_ws s.
Proof.
  intros Hw Hsp. destruct (word_inv w Hw) as (c & t & -> & Hc & Ht). clear Hw.
  revert c Hc. induction t as [|c' t IH]; intros c Hc.
  - change (String c "" ++ String sp s) with (String c (String sp s)).
    rewrite split_ws_before_space, split_ws_space by assumption. reflexivity.
  - simpl in Ht. apply andb_true_iff in Ht as [Hc' Ht]. apply negb_true_iff in Hc'.
    change (String c (String c' t) ++ String sp s)
      with (String c (String c' t ++ String sp s)).
    change (String c' t ++ String sp s) with (String c' (t ++ String sp s)).
    rewrite split_ws_before_letter by assumption.
    change (String c' (t ++ String sp s)) with (String c' t ++ String sp s).
    rewrite (IH Ht c' Hc'). reflexivity.
Qed.

Lemma split_ws_word w : word w = true -> split_ws w = [w].
Proof.
  intros Hw. destruct (word_inv w Hw) as (c & t & -> & Hc & Ht). clear Hw.
  revert c Hc. induction t as [|c' t IH]; intros c Hc.
  - apply split_ws_last. assumption.
  - simpl in Ht. apply andb_true_iff in Ht as [Hc' Ht]. apply negb_true_iff in Hc'.
    rewrite split_ws_before_letter by assumption.
    rewrite (IH Ht c' Hc'). reflexivity.
Qed.

(** Every token is a word. *)
Lemma split_ws_words s : Forall (fun w => word w = true) (split_ws s).
Proof.
  induction s as [|c s IH]; [constructor|].
  destruct (is_space c) eqn:Hc; [rewrite split_ws_space by assumption; exact IH|].
  destruct s as [|c' s]; [rewrite split_ws_last by assumption; repeat constructor;
    apply word_cons; split; [assumption|reflexivity]|].
  destruct (is_space c') eqn:Hc'.
  - rewrite split_ws_before_space by assumption. constructor; [|exact IH].
    apply word_cons. split; [assumption|reflexivity].
  - rewrite split_ws_before_letter by assumption.
    destruct (split_ws (String c' s)) as [|w ws].
    + repeat constructor. apply word_cons. split; [assumption|reflexivity].
    + inversion IH as [|? ? Hw Hws]; subst. constructor; [|assumption].
      apply word_cons. split; [assumption|].
      destruct (word_inv w Hw) as (a & t & -> & Ha & Ht). simpl.
      rewrite Ha, Ht. reflexivity.
Qed.

Lemma split_ws_nonempty c s : is_space c = false -> split_ws (String c s) ≠ [].
Proof.
  intros Hc. destruct s as [|c' s]; [rewrite split_ws_last by assumption; discriminate|].
  destruct (is_space c') eqn:Hc'.
  - rewrite split_ws_before_space by assumption. discriminate.
  - rewrite split_ws_before_letter by assumption.
    destruct (split_ws (String c' s)); discriminate.
Qed.

(** A text followed by a space and a word splits into the tokens of the
    text and the word. *)
Lemma split_ws_then_word d sp w :
  is_space sp = true -> word w = true ->
  split_ws (d ++ String sp w) = (split_ws d ++ [w])%list.
Proof.
  intros Hsp Hw. induction d as [|c d IH].
  - change ("" ++ String sp w) with (String sp w).
    rewrite split_ws_space by assumption. apply split_ws_word. assumption.
  - change (String c d ++ String sp w) with (String c (d ++ String sp w)).
    destruct (is_space c) eqn:Hc.
    { rewrite !split_ws_space by assumption. exact IH. }
    destruct d as [|c' d].
    + change ("" ++ String sp w) with (String sp w).
      rewrite split_ws_before_space, split_ws_space, split_ws_last by assumption.
      rewrite split_ws_word by assumption. reflexivity.
    + change (String c' d ++ String sp w) with (String c' (d ++ String sp w)) in *.
      destruct (is_space c') eqn:Hc'.
      * rewrite !split_ws_before_space by assumption. rewrite IH. reflexivity.
      * rewrite !split_ws_before_letter by assumption. rewrite IH.
        pose proof (split_ws_nonempty c' d Hc') as Hne.
        destruct (split_ws (String c' d)) as [|t ts]; [congruence|reflexivity].
Qed.

(** Words joined by single spaces split back into the same words. *)
Lemma split_ws_join words :
  Forall (fun w => word w = true) words ->
  split_ws (PyStr.join " " words) = words.
Proof.
  unfold PyStr.join. induction 1 as [|w words Hw Hws IH]; [reflexivity|].
  destruct words as [|w' words].
  - apply split_ws_word. assumption.
  - change (String.concat " " (w :: w' :: words))
      with (w ++ String " " (String.concat " " (w' :: words))).
    rewrite split_ws_word_then by (assumption || reflexivity).
    rewrite IH. reflexivity.
Qed.

Lemma space_free_digits d : space_free (NilEmpty.string_of_uint d) = true.
Proof. induction d; simpl; [reflexivity|assumption..]. Qed.

Lemma space_free_app s t :
  space_free s = true -> space_free t = true -> space_free (s ++ t) = true.
Proof.
  intros Hs Ht. induction s as [|c s IH]; [exact Ht|].
  simpl in Hs. apply andb_true_iff in Hs as [Hc Hs].
  change (String c s ++ t) with (String c (s ++ t)). simpl.
  rewrite Hc, IH by assumption. reflexivity.
Qed.

(** The count in parentheses is one word. *)
Lemma count_is_word n : word ("(" ++ of_nat n ++ ")") = true.
Proof.
  apply space_free_tail_word.
  change ("(" ++ of_nat n ++ ")") with (String "(" (of_nat n ++ ")")).
  change (space_free (String "(" (of_nat n ++ ")")))
    with (space_free (of_nat n ++ ")")).
  apply space_free_app; [|reflexivity].
  unfold of_nat, NilZero.string_of_uint.
  destruct (Nat.to_uint n); try reflexivity; apply (space_free_digits (_ _)).
Qed.

Lemma trace_label_legend_name d_type n :
  trace_label (legend_name d_type n) = PyStr.join " " (split_ws d_type).
Proof.
  unfold trace_label, legend_name.
  change (d_type ++ " (" ++ of_nat n ++ ")")
    with (d_type ++ String " " ("(" ++ of_nat n ++ ")")).
  rewrite split_ws_then_word by (reflexivity || apply count_is_word).
  rewrite removelast_last. reflexivity.
Qed.

End Words.

(** ** Legend names and visibility *)

(** X11.  Reading a deposit type back from its legend name
    [f"{d_type} ({count})"] with [" ".join(name.split()[:-1])] gives the
    words of the deposit type joined by single spaces, whatever the count.
    The deposit type itself is recovered exactly when it is written as
    words separated by single spaces, without a space at either end. *)
Theorem legend_name_round_trip d_type n :
  trace_label (legend_name d_type n) = PyStr.join " " (PyText.split_ws d_type) /\
  (trace_label (legend_name d_type n) = d_type <->
   exists words,
     Forall (fun w => PyText.word w = true) words /\
     d_type = PyStr.join " " words).
Proof.
  split; [apply trace_label_legend_name|].
  rewrite trace_label_legend_name. split.
  - intros H. exists (PyText.split_ws d_type). split; [apply split_ws_words|].
    symmetry. exact H.
  - intros (words & Hw & ->). rewrite split_ws_join by assumption. reflexivity.
Qed.

Lemma visible_names_guides n : visible_names (replicate n GuideLine) = [].
Proof. induction n as [|n IH]; [reflexivity|exact IH]. Qed.

Lemma visible_names_app data1 data2 :
  visible_names (data1 ++ data2) = visible_names data1 ++ visible_names data2.
Proof. unfold visible_names. apply omap_app. Qed.

Lemma visible_names_shown traces :
  visible_names ((fun t => Marker t Shown) <$> traces)
  = (fun t => trace_label (trace_name t)) <$> traces.
Proof.
  induction traces as [|t traces IH]; [reflexivity|].
  rewrite !fmap_cons. unfold visible_names in *. cbn [omap list_omap].
  f_equal. exact IH.
Qed.

Lemma set_visibility_nil data : set_visibility [] data = data.
Proof. reflexivity. Qed.

Lemma set_visibility_cons v vs data :
  set_visibility (v :: vs) data
  = (fun trace =>
       match trace with
       | Marker t _ =>
           if decide (trace_label (trace_name t) ∈ v :: vs)
           then Marker t Shown
           else Marker t LegendOnly
       | GuideLine => GuideLine
       end) <$> data.
Proof. reflexivity. Qed.

Lemma visible_names_pass (visible_traces : list string) traces :
  visible_names
    ((fun trace =>
        match trace with
        | Marker t _ =>
            if decide (trace_label (trace_name t) ∈ visible_traces)
            then Marker t Shown
            else Marker t LegendOnly
        | GuideLine => GuideLine
        end) <$> ((fun t => Marker t Shown) <$> traces))
  = filter (fun name => name ∈ visible_traces)
      ((fun t => trace_label (trace_name t)) <$> traces).
Proof.
  induction traces as [|t traces IH]; [reflexivity|].
  rewrite !fmap_cons. unfold visible_names in *. cbn [omap list_omap].
  destruct (decide (trace_label (trace_name t) ∈ visible_traces)) as [Hin|Hin].
  - rewrite filter_cons_True by assumption. rewrite IH. reflexivity.
  - rewrite filter_cons_False by assumption. exact IH.
Qed.

Lemma visible_names_pass_guides (visible_traces : list string) n :
  visible_names
    ((fun trace =>
        match trace with
        | Marker t _ =>
            if decide (trace_label (trace_name t) ∈ visible_traces)
            then Marker t Shown
            else Marker t LegendOnly
        | GuideLine => GuideLine
        end) <$> replicate n GuideLine) = [].
Proof. induction n as [|n IH]; [reflexivity|exact IH]. Qed.

(** X12.  After the visibility pass of [get_gt_model], the marker traces
    read as visible are those whose label is among the given visible names,
    in figure order; the guide lines are never among them.  When the list of
    visible names is empty the pass is skipped and every marker trace is
    visible: hiding all traces before aggregating shows them all again. *)
Theorem visibility_pass_keeps_visible_names visible_traces traces :
  visible_names (set_visibility visible_traces (figure_data traces))
  = match visible_traces with
    | [] => (fun t => trace_label (trace_name t)) <$> traces
    | _ => filter (fun name => name ∈ visible_traces)
             ((fun t => trace_label (trace_name t)) <$> traces)
    end.
Proof.
  unfold figure_data. destruct visible_traces as [|v vs].
  - rewrite set_visibility_nil, visible_names_app, visible_names_guides, app_nil_r.
    apply visible_names_shown.
  - rewrite set_visibility_cons, fmap_app, visible_names_app.
    rewrite visible_names_pass_guides, app_nil_r.
    apply visible_names_pass.
Qed.

Lemma visible_names_regular data name :
  name ∈ visible_names data ->
  exists words,
    Forall (fun w => PyText.word w = true) words /\ name = PyStr.join " " words.
Proof.
  unfold visible_names. rewrite list_elem_of_omap.
  intros ([t [|]|] & _ & H); try discriminate.
  inversion H; subst. unfold trace_name. rewrite trace_label_legend_name.
  exists (PyText.split_ws (tr_d_type t)). split; [apply split_ws_words|reflexivity].
Qed.

Lemma download_csv_sources {json : Type} (read_json : json -> list TableRow)
    agg_data visible_traces out row :
  download_csv read_json agg_data visible_traces = Some out ->
  row ∈ out ->
  exists source,
    source ∈ agg_data ≫= read_json /\
    row_top1_deposit_name source ∈ Text <$> visible_traces /\
    row_top1_deposit_name row = row_top1_deposit_name source.
Proof.
  intros H Hrow. apply list_elem_of_lookup in Hrow as (n & Hn).
  destruct (Forall2_lookup_r _ _ _ _ _ (download_csv_rows _ _ _ _ H) Hn)
    as (source & Hs & url & name & _ & _ & ->).
  apply list_elem_of_lookup_2 in Hs. apply list_elem_of_filter in Hs as [Hv Hs].
  exists source. split; [assumption|]. split; [assumption|reflexivity].
Qed.

(** X13.  When the visible names are read from a figure, every exported row
    belongs to a deposit type whose name is made of words separated by single
    spaces: the rows of a deposit type written with a space at either end or
    with two spaces in a row are never exported, the name read back from the
    legend being different from it. *)
Theorem export_keeps_regular_deposit_names {json : Type}
    (read_json : json -> list TableRow) data agg_data out :
  download_csv read_json agg_data (visible_names data) = Some out ->
  Forall (fun row =>
    exists deposit_name,
      row_top1_deposit_name row = Text deposit_name /\
      deposit_name ∈ visible_names data /\
      exists words,
        Forall (fun w => PyText.word w = true) words /\
        deposit_name = PyStr.join " " words) out.
Proof.
  intros H. apply Forall_forall. intros row Hrow.
  destruct (download_csv_sources _ _ _ _ _ H Hrow) as (source & _ & Hv & ->).
  apply list_elem_of_fmap in Hv as (deposit_name & -> & Hv).
  exists deposit_name. split; [reflexivity|]. split; [assumption|].
  apply (visible_names_regular data). assumption.
Qed.

Lemma export_keeps_regular_deposit_names_witness :
  download_csv decoded_frame [Aggregated Sample.rows_once]
    (visible_names (figure_data MoreSamples.dataset_unknown.2))
    = Some Sample.export_once /\
  Forall (fun row =>
    exists deposit_name,
      row_top1_deposit_name row = Text deposit_name /\
      deposit_name ∈ visible_names (figure_data MoreSamples.dataset_unknown.2) /\
      exists words,
        Forall (fun w => PyText.word w = true) words /\
        deposit_name = PyStr.join " " words) Sample.export_once.
Proof.
  split; [vm_compute; reflexivity|].
  apply (export_keeps_regular_deposit_names decoded_frame
           (figure_data MoreSamples.dataset_unknown.2)
           [Aggregated Sample.rows_once] Sample.export_once).
  vm_compute; reflexivity.
Defined.

(** ** Opening the page of a clicked site *)

(** The first element of a selection: it satisfies the test and nothing
    before it does. *)
Lemma filter_first {A} (P : A -> Prop) `{!forall x, Decision (P x)} l x rest :
  filter P l = x :: rest ->
  exists before after,
    l = before ++ x :: after /\ Forall (fun y => ¬ P y) before /\ P x.
Proof.
  induction l as [|a l IH]; [discriminate|].
  destruct (decide (P a)) as [Ha|Ha].
  - rewrite filter_cons_True by assumption. intros Hf. inversion Hf; subst.
    exists [], l. split; [reflexivity|]. split; [constructor|assumption].
  - rewrite filter_cons_False by assumption. intros Hf.
    destruct (IH Hf) as (before & after & -> & Hb & Hx).
    exists (a :: before), after. split; [reflexivity|].
    split; [constructor; assumption|assumption].
Qed.

Lemma open_url_first {json : Type} (read_json : json -> list TableRow)
    df_data text r :
  r ∈ read_json df_data ->
  row_ms_name r = Text text ->
  exists before first after,
    read_json df_data = before ++ first :: after /\
    row_ms_name first = Text text /\
    Forall (fun row => row_ms_name row ≠ Text text) before /\
    open_url read_json (Some text) (Some df_data) = Returned (Some (row_ms first)).
Proof.
  intros Hin Hname. unfold open_url.
  destruct (filter _ (read_json df_data)) as [|first rest] eqn:E.
  - assert (Hf : r ∈ @nil TableRow); [|inversion Hf].
    rewrite <- E. apply list_elem_of_filter. split; assumption.
  - destruct (filter_first _ _ _ _ E) as (before & after & Hl & Hb & Hx).
    exists before, first, after. repeat split; assumption.
Qed.

Lemma replace_without_colons new s :
  PyStr.free_of ":" s = true -> PyStr.replace "::" new s = s.
Proof.
  intros H. unfold PyStr.replace.
  rewrite <- (append_empty_right s) at 1.
  rewrite replace_free by assumption. apply append_empty_right.
Qed.

(** X14.  Clicking the point of a record whose name has no colon (its label
    on the plot is then the name itself) and whose name the decoder returned
    as a text opens the URL of the first row of the decoded table that bears
    this name: every row before it has another name.  It is the clicked
    record's own row when no two rows share a name, otherwise the first of
    the namesakes. *)
Theorem click_opens_first_record_of_that_name {json : Type}
    (read_json : json -> list TableRow) df_data name r :
  r ∈ read_json df_data ->
  row_ms_name r = Text name ->
  PyStr.free_of ":" name = true ->
  exists before first after,
    read_json df_data = before ++ first :: after /\
    row_ms_name first = Text name /\
    Forall (fun row => row_ms_name row ≠ Text name) before /\
    open_url read_json (Some (PyStr.replace "::" "<br>" name)) (Some df_data)
      = Returned (Some (row_ms first)) /\
    (NoDup (row_ms_name <$> read_json df_data) -> first = r).
Proof.
  intros Hin Hname Hfree. rewrite replace_without_colons by assumption.
  destruct (open_url_first read_json df_data name r Hin Hname)
    as (before & first & after & Hl & Hfirst & Hb & Hopen).
  exists before, first, after. do 4 (split; [assumption|]).
  intros Hnd.
  assert (Hin' : first ∈ read_json df_data).
  { rewrite Hl. apply elem_of_app. right. left. }
  apply list_elem_of_lookup in Hin as (i & Hi).
  apply list_elem_of_lookup in Hin' as (j & Hj).
  assert (i = j).
  { eapply NoDup_lookup; [exact Hnd| |]; rewrite list_lookup_fmap.
    - rewrite Hi. simpl. rewrite Hname. reflexivity.
    - rewrite Hj. simpl. rewrite Hfirst. reflexivity. }
  subst j. congruence.
Qed.

Lemma click_opens_first_record_witness :
  Sample.namesake ∈ decoded_table Sample.namesakes /\
  exists before first after,
    decoded_table Sample.namesakes = before ++ first :: after /\
    row_ms_name first = Text "B" /\
    Forall (fun row => row_ms_name row ≠ Text "B") before /\
    open_url decoded_table (Some (PyStr.replace "::" "<br>" "B"))
      (Some Sample.namesakes)
      = Returned (Some (row_ms first)) /\
    (NoDup (row_ms_name <$> decoded_table Sample.namesakes) ->
     first = Sample.namesake).
Proof.
  split; [right; right; left|].
  apply (click_opens_first_record_of_that_name decoded_table Sample.namesakes
           "B" Sample.namesake).
  - right; right; left.
  - reflexivity.
  - reflexivity.
Defined.

(** On the sample table the namesake clicked is the third row, and the page
    opened is that of the second. *)
Example click_on_namesake_opens_the_other :
  row_ms Sample.namesake = Text "/derived/B2" /\
  open_url decoded_table (Some (PyStr.replace "::" "<br>" "B"))
    (Some Sample.namesakes)
  = Returned (Some (Text "/derived/B1")).
Proof. split; reflexivity. Qed.

(** When the decoder returned the names as numbers, no click opens a page. *)
Lemma click_on_retyped_table_raises {json : Type}
    (read_json : json -> list TableRow) df_data text :
  Forall (fun row => forall name, row_ms_name row ≠ Text name) (read_json df_data) ->
  open_url read_json (Some text) (Some df_data) = Raised (Builtin IndexError).
Proof.
  intros Hall. unfold open_url.
  destruct (filter _ (read_json df_data)) as [|row rest] eqn:E; [reflexivity|exfalso].
  assert (Hrow : row ∈ row :: rest) by left.
  rewrite <- E in Hrow. apply list_elem_of_filter in Hrow as [Hname Hrow].
  rewrite Forall_forall in Hall. exact (Hall row Hrow text Hname).
Qed.

Example click_on_digit_name_raises :
  open_url id (Some "101"%string) (Some Sample.digit_names_frame)
  = Raised (Builtin IndexError).
Proof. reflexivity. Qed.

Lemma label_of_cluster_starts_with_tag parts :
  (2 <= length parts)%nat ->
  exists t, PyStr.replace "::" "<br>" (combine parts) = String "<" t.
Proof.
  destruct parts as [|x [|y parts]]; simpl; try lia. intros _.
  eexists. reflexivity.
Qed.

(** X15.  Clicking the point of a cluster of two or more sites never opens a
    page: its label starts with ["<br>"], no row of the table bears that
    name when no site name contains ["<"], and the subscript of the empty
    selection raises [IndexError]. *)
Theorem click_on_cluster_raises {json : Type} (read_json : json -> list TableRow)
    df_data parts :
  (2 <= length parts)%nat ->
  (forall row name, row ∈ read_json df_data -> row_ms_name row = Text name ->
     PyStr.free_of "<" name = true) ->
  open_url read_json (Some (PyStr.replace "::" "<br>" (combine parts))) (Some df_data)
  = Raised (Builtin IndexError).
Proof.
  intros Hlen Hfree.
  destruct (label_of_cluster_starts_with_tag parts Hlen) as (t & ->).
  unfold open_url.
  destruct (filter _ (read_json df_data)) as [|row rest] eqn:E; [reflexivity|exfalso].
  assert (Hrow : row ∈ row :: rest) by left.
  rewrite <- E in Hrow. apply list_elem_of_filter in Hrow as [Hname Hrow].
  specialize (Hfree row _ Hrow Hname). discriminate.
Qed.

Lemma click_on_cluster_raises_witness :
  (2 <= length ["B"; "C"]%string)%nat /\
  open_url decoded_table
    (Some (PyStr.replace "::" "<br>" (combine ["B"; "C"]%string)))
    (Some Sample.porphyry)
  = Raised (Builtin IndexError).
Proof.
  split; [simpl; lia|].
  apply (click_on_cluster_raises decoded_table Sample.porphyry ["B"; "C"]%string).
  - simpl; lia.
  - intros row name Hrow Hname. vm_compute in Hrow.
    apply elem_of_cons in Hrow as [->|Hrow]; [inversion Hname; reflexivity|].
    apply elem_of_cons in Hrow as [->|Hrow]; [inversion Hname; reflexivity|].
    apply elem_of_cons in Hrow as [->|Hrow]; [inversion Hname; reflexivity|inversion Hrow].
Defined.

(** ** Loading the reference tables *)

Section Loading.

Local Open Scope string_scope.

Import Geo GeoLoad.

Lemma split_on_nonempty sep s : PyText.split_on sep s ≠ [].
Proof.
  destruct s as [|c s]; simpl; [discriminate|].
  destruct (Ascii.eqb c sep); [discriminate|].
  destruct (PyText.split_on sep s); discriminate.
Qed.

Lemma split_on_free sep k :
  PyStr.free_of sep k = true -> PyText.split_on sep k = [k].
Proof.
  induction k as [|c k IH]; [reflexivity|]. simpl.
  intros H. apply andb_true_iff in H as [Hc Hk]. apply negb_true_iff in Hc.
  rewrite Hc, (IH Hk). reflexivity.
Qed.

Lemma last_cons_nonempty {A} (x : A) l : l ≠ [] -> last (x :: l) = last l.
Proof. destruct l; [congruence|reflexivity]. Qed.

(** The segments of a text followed by the separator and a last part: there
    are at least two, and the last is the last segment of that part. *)
Lemma split_on_last sep base k :
  exists w ws,
    PyText.split_on sep (base ++ String sep k) = w :: ws /\
    ws ≠ [] /\
    last ws = last (PyText.split_on sep k).
Proof.
  induction base as [|c base IH].
  - change ("" ++ String sep k) with (String sep k). simpl.
    rewrite Ascii.eqb_refl. exists "", (PyText.split_on sep k).
    split; [reflexivity|]. split; [apply split_on_nonempty|reflexivity].
  - destruct IH as (w & ws & E & Hne & Hlast).
    change (String c base ++ String sep k) with (String c (base ++ String sep k)).
    simpl. rewrite E. destruct (Ascii.eqb c sep).
    + exists "", (w :: ws). split; [reflexivity|]. split; [discriminate|].
      rewrite last_cons_nonempty by assumption. assumption.
    + exists (String c w), ws. split; [reflexivity|]. split; assumption.
Qed.

Lemma q_key_of_path base key :
  PyStr.free_of "/" key = true -> q_key (base ++ "/" ++ key) = key.
Proof.
  intros Hfree. unfold q_key.
  change (base ++ "/" ++ key) with (base ++ String "/" key).
  destruct (split_on_last "/" base key) as (w & ws & -> & Hne & Hlast).
  rewrite last_cons_nonempty by assumption. rewrite Hlast.
  rewrite split_on_free by assumption. reflexivity.
Qed.

Lemma load_table_app {A} (records1 records2 : list (string * A)) table :
  load_table (records1 ++ records2) table
  = load_table records2 (load_table records1 table).
Proof. unfold load_table. apply foldl_app. Qed.

Lemma load_table_other {A} (records : list (string * A)) table key :
  (forall record, record ∈ records -> q_key record.1 ≠ key) ->
  load_table records table !! key = table !! key.
Proof.
  revert table. induction records as [|record records IH]; intros table H;
    [reflexivity|].
  change (load_table (record :: records) table)
    with (load_table records (<[q_key record.1 := record.2]> table)).
  rewrite IH by (intros r Hr; apply H; right; assumption).
  apply lookup_insert_ne. apply H. left.
Qed.

(** X16.  A record fetched under a URI that ends in ["/" ++ key] is stored
    under [key] and found there after the load, unless a record fetched
    after it has a URI with the same last segment (which then replaces
    it). *)
Theorem fetched_record_is_found {A} (records1 records2 : list (string * A))
    (table : gmap string A) base key a :
  PyStr.free_of "/" key = true ->
  (forall record, record ∈ records2 -> q_key record.1 ≠ key) ->
  load_table (records1 ++ (base ++ "/" ++ key, a) :: records2) table !! key = Some a.
Proof.
  intros Hfree Hlater.
  rewrite load_table_app.
  change (load_table ((base ++ "/" ++ key, a) :: records2) (load_table records1 table))
    with (load_table records2
            (<[q_key (base ++ "/" ++ key) := a]> (load_table records1 table))).
  rewrite load_table_other by assumption.
  rewrite q_key_of_path by assumption. apply lookup_insert_eq.
Qed.

Lemma fetched_record_is_found_witness :
  PyStr.free_of "/" "Q380" = true /\
  load_table ([("https://minmod.isi.edu/resource/Q1", 1%nat)] ++
              ("https://minmod.isi.edu/resource" ++ "/" ++ "Q380", 2%nat)
              :: [("Q9", 3%nat)]) ∅ !! "Q380" = Some 2%nat.
Proof.
  split; [reflexivity|].
  apply (fetched_record_is_found [("https://minmod.isi.edu/resource/Q1", 1%nat)]
           [("Q9", 3%nat)] ∅ "https://minmod.isi.edu/resource" "Q380" 2%nat).
  - reflexivity.
  - intros record Hrecord. apply list_elem_of_singleton in Hrecord. subst record.
    vm_compute. discriminate.
Defined.

End Loading.

(** ** Which sites are cleaned, and when the cleaning fails *)

Section Cleaning.

Import Geo GeoLoad.

Lemma max_confidence_spec best l :
  max_confidence best l ∈ best :: l /\
  forall d, d ∈ best :: l ->
    (dt_confidence d <= dt_confidence (max_confidence best l))%Q.
Proof.
  revert best. induction l as [|x l IH]; intros best; simpl.
  - split; [left|]. intros d Hd. apply list_elem_of_singleton in Hd. subst.
    apply Qle_refl.
  - destruct (Qlt_le_dec (dt_confidence best) (dt_confidence x)) as [Hlt|Hge].
    + destruct (IH x) as (Hin & Hall). split; [right; assumption|].
      intros d Hd. apply elem_of_cons in Hd as [->|Hd]; [|apply Hall; assumption].
      eapply Qle_trans; [apply Qlt_le_weak; exact Hlt|]. apply Hall. left.
    + destruct (IH best) as (Hin & Hall). split.
      { apply elem_of_cons in Hin as [->|Hin]; [left|right; right; assumption]. }
      intros d Hd. apply elem_of_cons in Hd as [->|Hd]; [apply Hall; left|].
      apply elem_of_cons in Hd as [->|Hd]; [|apply Hall; right; assumption].
      eapply Qle_trans; [exact Hge|]. apply Hall. left.
Qed.

(** The three ways the loop body ends. *)
Lemma clean_one_cases cache data :
  match kept cache data, malformed data with
  | false, _ => clean_one cache data = Ok None
  | true, true =>
      clean_one cache data = Raise IndexError \/
      clean_one cache data = Raise KeyError
  | true, false =>
      exists cd d0 ds details,
        clean_one cache data = Ok (Some cd) /\
        raw_deposit_types data = d0 :: ds /\
        deposit_types cache !! dt_id (max_confidence d0 ds) = Some details /\
        cd_ms cd = PyStr.join "/" ["/derived"; raw_id data]%string /\
        cd_ms_name cd = raw_name data /\
        cd_top1_deposit_confidence cd = dt_confidence (max_confidence d0 ds) /\
        cd_top1_deposit_source cd = dt_source (max_confidence d0 ds) /\
        cd_top1_deposit_group cd = dd_group details
  end.
Proof.
  unfold kept, malformed, clean_one.
  destruct (raw_deposit_types data) as [|d0 ds]; [reflexivity|].
  destruct (deposit_types cache !! dt_id (max_confidence d0 ds)) as [details|] eqn:Ed.
  2:{ rewrite bool_decide_false by (intros [? ?]; discriminate). reflexivity. }
  rewrite bool_decide_true by eauto.
  destruct (raw_grade_tonnage data) as [|e es]; [left; reflexivity|].
  simpl. destruct (gte_total_grade e) as [grade|].
  - destruct (gte_total_tonnage e) as [tonnage|]; simpl.
    + destruct (gte_total_contained_metal e) as [metal|]; simpl.
      * eexists _, d0, ds, details. repeat split; assumption.
      * right. reflexivity.
    + right. reflexivity.
  - eexists _, d0, ds, details. repeat split; assumption.
Qed.

Lemma clean_and_fix_cons cache data rest :
  clean_and_fix cache (data :: rest)
  = (o ← clean_one cache data;
     results ← clean_and_fix cache rest;
     Ok (match o with
         | Some combined_data => combined_data :: results
         | None => results
         end)).
Proof. reflexivity. Qed.

(** X17.  [clean_and_fix] returns a list exactly when no site that passes
    the two skip tests is malformed, that is without any grade-tonnage entry
    or with a grade but no tonnage or contained metal in its first entry; a
    single such site makes the whole cleaning raise, and the sites skipped
    for their deposit types are never inspected. *)
Theorem clean_and_fix_succeeds_iff cache raw_data :
  (exists results, clean_and_fix cache raw_data = Ok results) <->
  Forall (fun data => kept cache data = true -> malformed data = false) raw_data.
Proof.
  induction raw_data as [|data rest IH].
  - split; [constructor|]. intros _. exists []. reflexivity.
  - rewrite clean_and_fix_cons, Forall_cons, <- IH.
    pose proof (clean_one_cases cache data) as Hc.
    destruct (kept cache data), (malformed data).
    + split.
      * intros (results & H). destruct Hc as [Hc|Hc]; rewrite Hc in H; discriminate.
      * intros [H _]. specialize (H eq_refl). discriminate.
    + destruct Hc as (cd & _ & _ & _ & -> & _). simpl. split.
      * intros (results & H). split; [reflexivity|].
        destruct (clean_and_fix cache rest) as [rs|]; [eauto|discriminate].
      * intros [_ (rs & ->)]. simpl. eauto.
    + rewrite Hc. simpl. split.
      * intros (results & H). split; [discriminate|].
        destruct (clean_and_fix cache rest) as [rs|]; [eauto|discriminate].
      * intros [_ (rs & ->)]. simpl. eauto.
    + rewrite Hc. simpl. split.
      * intros (results & H). split; [discriminate|].
        destruct (clean_and_fix cache rest) as [rs|]; [eauto|discriminate].
      * intros [_ (rs & ->)]. simpl. eauto.
Qed.

Lemma clean_and_fix_kept cache raw_data results :
  clean_and_fix cache raw_data = Ok results ->
  Forall2 (fun data cd => clean_one cache data = Ok (Some cd))
    (filter (fun data => kept cache data = true) raw_data) results.
Proof.
  revert results. induction raw_data as [|data rest IH]; intros results H.
  - inversion H. constructor.
  - rewrite clean_and_fix_cons in H. bind_inv H o Eo. bind_inv H rs Er.
    inversion H; subst; clear H. specialize (IH rs Er).
    pose proof (clean_one_cases cache data) as Hc.
    destruct (kept cache data) eqn:Ek.
    + rewrite filter_cons_True by assumption.
      destruct (malformed data).
      * destruct Hc as [Hc|Hc]; rewrite Hc in Eo; discriminate.
      * destruct Hc as (cd & _ & _ & _ & Hcd & _). rewrite Hcd in Eo.
        inversion Eo; subst. constructor; assumption.
    + rewrite filter_cons_False by (rewrite Ek; discriminate).
      rewrite Hc in Eo. inversion Eo; subst. assumption.
Qed.

Lemma cleaned_names_and_ids cache sites records :
  Forall2 (fun data cd => clean_one cache data = Ok (Some cd)) sites records ->
  cd_ms_name <$> records = raw_name <$> sites /\
  cd_ms <$> records = (fun data => ("/derived/" ++ raw_id data)%string) <$> sites.
Proof.
  induction 1 as [|data cd sites records Hcd _ [IH1 IH2]]; [split; reflexivity|].
  rewrite !fmap_cons, IH1, IH2.
  pose proof (clean_one_cases cache data) as Hc.
  destruct (kept cache data); [|rewrite Hc in Hcd; discriminate].
  destruct (malformed data);
    [destruct Hc as [Hc|Hc]; rewrite Hc in Hcd; discriminate|].
  destruct Hc as (cd' & _ & _ & _ & Hcd' & _ & _ & Hms & Hname & _).
  rewrite Hcd' in Hcd. inversion Hcd; subst cd'.
  split; f_equal; assumption.
Qed.

(** X18.  The records returned by [clean_and_fix] are, in input order, those
    of the sites that have at least one deposit type and whose deposit type
    of highest confidence is in the cache, one record per such site, with
    the site's name and the identifier ["/derived/" ++ id]; the other sites
    are dropped. *)
Theorem clean_and_fix_keeps_sites_in_order cache raw_data results :
  clean_and_fix cache raw_data = Ok results ->
  cd_ms_name <$> results
    = raw_name <$> filter (fun data => kept cache data = true) raw_data /\
  cd_ms <$> results
    = (fun data => ("/derived/" ++ raw_id data)%string)
        <$> filter (fun data => kept cache data = true) raw_data /\
  (length results <= length raw_data)%nat.
Proof.
  intros H. pose proof (clean_and_fix_kept _ _ _ H) as Hk.
  destruct (cleaned_names_and_ids _ _ _ Hk) as [Hn Hi].
  split; [assumption|]. split; [assumption|].
  rewrite <- (Forall2_length _ _ _ Hk). apply length_filter.
Qed.

Lemma clean_and_fix_keeps_sites_in_order_witness :
  clean_and_fix GeoSample.cache GeoSample.raw_data = Ok GeoSample.results /\
  cd_ms_name <$> GeoSample.results
    = raw_name <$> filter (fun data => kept GeoSample.cache data = true)
                     GeoSample.raw_data /\
  cd_ms <$> GeoSample.results
    = (fun data => ("/derived/" ++ raw_id data)%string)
        <$> filter (fun data => kept GeoSample.cache data = true) GeoSample.raw_data /\
  (length GeoSample.results <= length GeoSample.raw_data)%nat.
Proof.
  split; [vm_compute; reflexivity|].
  apply (clean_and_fix_keeps_sites_in_order GeoSample.cache GeoSample.raw_data
           GeoSample.results).
  vm_compute; reflexivity.
Defined.

(** X19.  Each returned record carries the confidence and the source of one
    of its site's deposit types, and no deposit type of the site has a
    greater confidence: the recorded deposit type is one of highest
    confidence. *)
Theorem top1_deposit_has_highest_confidence cache raw_data results :
  clean_and_fix cache raw_data = Ok results ->
  Forall2 (fun data cd =>
    (exists d, d ∈ raw_deposit_types data /\
               is_Some (deposit_types cache !! dt_id d) /\
               cd_top1_deposit_confidence cd = dt_confidence d /\
               cd_top1_deposit_source cd = dt_source d) /\
    forall d, d ∈ raw_deposit_types data ->
      (dt_confidence d <= cd_top1_deposit_confidence cd)%Q)
    (filter (fun data => kept cache data = true) raw_data) results.
Proof.
  intros H. eapply Forall2_impl; [exact (clean_and_fix_kept _ _ _ H)|].
  intros data cd Hcd. simpl in Hcd.
  pose proof (clean_one_cases cache data) as Hc.
  destruct (kept cache data); [|rewrite Hc in Hcd; discriminate].
  destruct (malformed data);
    [destruct Hc as [Hc|Hc]; rewrite Hc in Hcd; discriminate|].
  destruct Hc as (cd' & d0 & ds & details & Hcd' & Hd & Hdet & _ & _ & Hconf & Hsrc & _).
  rewrite Hcd' in Hcd. inversion Hcd; subst cd'. rewrite Hd, Hconf.
  destruct (max_confidence_spec d0 ds) as (Hin & Hall). split.
  - exists (max_confidence d0 ds). split; [assumption|]. split; [eauto|].
    split; [reflexivity|assumption].
  - assumption.
Qed.

Lemma top1_deposit_has_highest_confidence_witness :
  clean_and_fix GeoSample.cache GeoSample.raw_data = Ok GeoSample.results /\
  Forall2 (fun data cd =>
    (exists d, d ∈ raw_deposit_types data /\
               is_Some (deposit_types GeoSample.cache !! dt_id d) /\
               cd_top1_deposit_confidence cd = dt_confidence d /\
               cd_top1_deposit_source cd = dt_source d) /\
    forall d, d ∈ raw_deposit_types data ->
      (dt_confidence d <= cd_top1_deposit_confidence cd)%Q)
    (filter (fun data => kept GeoSample.cache data = true) GeoSample.raw_data)
    GeoSample.results.
Proof.
  split; [vm_compute; reflexivity|].
  apply (top1_deposit_has_highest_confidence GeoSample.cache GeoSample.raw_data
           GeoSample.results).
  vm_compute; reflexivity.
Defined.

End Cleaning.

(** ** Coordinates of a point *)

Section Coordinates.

Local Open Scope string_scope.

Lemma free_of_app c s t :
  PyStr.free_of c s = true -> PyStr.free_of c t = true ->
  PyStr.free_of c (s ++ t) = true.
Proof.
  intros Hs Ht. induction s as [|a s IH]; [exact Ht|].
  simpl in Hs. apply andb_true_iff in Hs as [Ha Hs].
  change (String a s ++ t) with (String a (s ++ t)). simpl.
  rewrite Ha, IH by assumption. reflexivity.
Qed.

(** A text without the first character of [old] is left alone. *)
Lemma replace_from_first_free c0 old' new s t :
  PyStr.free_of c0 s = true ->
  PyStr.replace_from (String c0 old') new 0 (s ++ t)
  = s ++ PyStr.replace_from (String c0 old') new 0 t.
Proof.
  induction s as [|c s IH]; intros H; [reflexivity|].
  simpl in H. apply andb_true_iff in H as [Hc Hs]. apply negb_true_iff in Hc.
  change (PyStr.replace_from (String c0 old') new 0 (String c s ++ t))
    with (if String.prefix (String c0 old') (String c (s ++ t))
          then new ++ PyStr.replace_from (String c0 old') new
                        (Nat.pred (String.length (String c0 old'))) (s ++ t)
          else String c (PyStr.replace_from (String c0 old') new 0 (s ++ t))).
  change (String.prefix (String c0 old') (String c (s ++ t)))
    with (if Ascii.ascii_dec c0 c then String.prefix old' (s ++ t) else false).
  destruct (Ascii.ascii_dec c0 c) as [->|_].
  - rewrite Ascii.eqb_refl in Hc. discriminate.
  - rewrite IH by assumption. reflexivity.
Qed.

Lemma replace_first_free c0 old' new s :
  PyStr.free_of c0 s = true -> PyStr.replace (String c0 old') new s = s.
Proof.
  intros H. unfold PyStr.replace. rewrite <- (append_empty_right s) at 1.
  rewrite replace_from_first_free by assumption. apply append_empty_right.
Qed.

Lemma replace_strips_point rest :
  PyStr.replace "POINT (" "" ("POINT (" ++ rest) = PyStr.replace "POINT (" "" rest.
Proof.
  unfold PyStr.replace.
  change (PyStr.replace_from "POINT (" "" 0 ("POINT (" ++ rest))
    with (if String.prefix "POINT (" ("POINT (" ++ rest)
          then "" ++ PyStr.replace_from "POINT (" "" 6 ("OINT (" ++ rest)
          else String "P" (PyStr.replace_from "POINT (" "" 0 ("OINT (" ++ rest))).
  replace (String.prefix "POINT (" ("POINT (" ++ rest)) with true
    by (destruct rest; reflexivity).
  reflexivity.
Qed.

Lemma word_space_free w : PyText.word w = true -> PyText.space_free w = true.
Proof. unfold PyText.word. rewrite andb_true_iff. tauto. Qed.

(** X20.  For a point written ["POINT (" ++ lon ++ " " ++ lat ++ ")"], where
    the two coordinates are texts without spaces, ["P"] or [")"],
    [extract_lat_lon] converts both and returns them in the order latitude,
    longitude, the reverse of the order in the text; it raises [ValueError]
    when one of them is not a number. *)
Theorem extract_lat_lon_swaps_coordinates {number : Type}
    (float : string -> option number) lon lat :
  PyText.word lon = true -> PyText.word lat = true ->
  PyStr.free_of "P" lon = true -> PyStr.free_of "P" lat = true ->
  PyStr.free_of ")" lon = true -> PyStr.free_of ")" lat = true ->
  extract_lat_lon float (Some ("POINT (" ++ lon ++ " " ++ lat ++ ")"))
  = match float lon, float lat with
    | Some x, Some y => Returned (Some y, Some x)
    | _, _ => Raised ValueError
    end.
Proof.
  intros Hwlon Hwlat HPlon HPlat Hplon Hplat. unfold extract_lat_lon.
  assert (E1 : PyStr.replace "POINT (" "" ("POINT (" ++ lon ++ " " ++ lat ++ ")")
               = lon ++ " " ++ lat ++ ")").
  { rewrite replace_strips_point. apply replace_first_free.
    repeat (apply free_of_app; [assumption || reflexivity|]). reflexivity. }
  rewrite E1.
  assert (E2 : PyStr.replace ")" "" (lon ++ " " ++ lat ++ ")") = lon ++ String " " lat).
  { unfold PyStr.replace.
    rewrite replace_from_first_free by assumption.
    rewrite (replace_from_first_free ")" "" "" " ") by reflexivity.
    rewrite replace_from_first_free by assumption.
    change (PyStr.replace_from ")" "" 0 ")") with "".
    rewrite append_empty_right. reflexivity. }
  rewrite E2.
  rewrite split_ws_word_then by (assumption || reflexivity).
  rewrite split_ws_word by assumption.
  destruct (float lon), (float lat); reflexivity.
Qed.

Lemma extract_lat_lon_swaps_coordinates_witness :
  PyText.word "-117.5" = true /\
  extract_lat_lon (fun s => if String.eqb s "34.25" then Some (137 # 4)
                            else if String.eqb s "-117.5" then Some (-235 # 2)
                            else None)
    (Some ("POINT (" ++ "-117.5" ++ " " ++ "34.25" ++ ")"))
  = Returned (Some (137 # 4), Some (-235 # 2)).
Proof.
  split; [reflexivity|].
  apply (extract_lat_lon_swaps_coordinates
           (fun s => if String.eqb s "34.25" then Some (137 # 4)
                     else if String.eqb s "-117.5" then Some (-235 # 2)
                     else None) "-117.5" "34.25"); reflexivity.
Defined.

End Coordinates.

(** ** Greedy maximality *)

Section Maximality.

Variable df : DataFrame.
Variable distances : DistanceCache.
Variable proximity_threshold : Q.

Local Abbreviation far := (far distances proximity_threshold).
Local Abbreviation seeds_far_from_later :=
  (seeds_far_from_later distances proximity_threshold).

Lemma scan_grows i candidates st x :
  x ∈ st.1 -> x ∈ (scan df distances proximity_threshold i candidates st).1.
Proof.
  intros Hx.
  destruct (scan_spec df distances proximity_threshold i candidates st)
    as (added & _ & -> & _). set_solver.
Qed.

(** The scan leaves no eligible candidate behind. *)
Lemma scan_complete i candidates st j d :
  j ∈ candidates -> i ≠ j -> j ∈ valid_indices df ->
  dict_get distances (i, j) = Some d -> (d < proximity_threshold)%Q ->
  j ∈ (scan df distances proximity_threshold i candidates st).1.
Proof.
  intros Hj Hne Hv Hd Hlt. revert st.
  induction candidates as [|c candidates IH]; intros st; [inversion Hj|].
  apply elem_of_cons in Hj as [<-|Hj].
  - simpl. case_bool_decide as Hc.
    + rewrite Hd. destruct (Qlt_le_dec d proximity_threshold) as [_|Hge];
        [|exfalso; apply (Qlt_not_le _ _ Hlt Hge)].
      rewrite bool_decide_true by assumption.
      apply scan_grows. simpl. set_solver.
    + apply scan_grows. destruct (decide (j ∈ st.1)); [assumption|].
      exfalso. apply Hc. split; assumption.
  - simpl. case_bool_decide; [|apply IH; assumption].
    destruct (dict_get distances (i, c)) as [d'|]; [|apply IH; assumption].
    destruct (Qlt_le_dec d' proximity_threshold); [|apply IH; assumption].
    case_bool_decide; apply IH; assumption.
Qed.

Lemma seed_groups_maximal sorted_row_indices seeds processed :
  (forall x, x ∈ seeds -> x ∈ valid_indices df) ->
  (forall x, x ∈ seeds -> x ∈ sorted_row_indices) ->
  seeds_far_from_later
    (seed_groups df distances proximity_threshold sorted_row_indices seeds processed).
Proof.
  revert processed. induction seeds as [|i rest IH]; intros processed Hv Hs;
    [exact I|].
  assert (Hvr : forall x, x ∈ rest -> x ∈ valid_indices df)
    by (intros x Hx; apply Hv; right; assumption).
  assert (Hsr : forall x, x ∈ rest -> x ∈ sorted_row_indices)
    by (intros x Hx; apply Hs; right; assumption).
  rewrite seed_groups_cons. case_bool_decide; [apply IH; assumption|].
  destruct (open_cluster_spec df distances proximity_threshold
              sorted_row_indices processed i) as (added & E2 & E1 & _ & _);
    [apply Hv; left|].
  rewrite E2. split; [|apply IH; assumption].
  intros i' added' j Eg Hj d Hd. inversion Eg; subst i' added'.
  destruct (Qlt_le_dec d proximity_threshold) as [Hlt|Hge]; [exfalso|assumption].
  destruct (seed_groups_spec df distances proximity_threshold sorted_row_indices rest
              (open_cluster df distances proximity_threshold
                 sorted_row_indices processed i).1 Hvr) as (_ & Hin & _ & _).
  destruct (Hin j Hj) as (Hnp & Hjv & Hjs).
  apply Hnp. unfold open_cluster. simpl.
  assert (Hij : i ≠ j).
  { intros ->. apply Hnp. rewrite E1. set_solver. }
  apply (scan_complete i sorted_row_indices _ j d); try assumption.
  destruct Hjs as [Hjs|Hjs]; [apply Hsr|]; assumption.
Qed.

Lemma seeds_far_lookup clusters n m i added group j :
  seeds_far_from_later clusters ->
  clusters !! n = Some (i :: added) ->
  clusters !! m = Some group ->
  (n < m)%nat -> j ∈ group -> far i j.
Proof.
  revert n m. induction clusters as [|c later IH]; intros n m Hfar Hn Hm Hlt Hj;
    [discriminate|].
  destruct Hfar as [Hhead Hlater]. destruct m as [|m]; [lia|]. simpl in Hm.
  destruct n as [|n].
  - simpl in Hn. inversion Hn; subst c. apply (Hhead i added j eq_refl).
    apply list_elem_of_lookup_2 in Hm.
    eapply elem_of_concat_groups; eassumption.
  - simpl in Hn. apply (IH n m); [assumption|assumption|assumption|lia|assumption].
Qed.

End Maximality.

(** X21.  The aggregation is greedy to the full: when a cluster is opened,
    its seed takes in every record not yet assigned whose cached distance
    under the key (seed, record) is below the threshold.  Hence, for two
    clusters of the result, no member of the later one has such a distance
    to the seed of the earlier one. *)
Theorem earlier_seed_is_far_from_later_members
    df distances proximity_threshold clusters n m i added group j d :
  greedy_clusters df distances proximity_threshold = Ok clusters ->
  clusters !! n = Some (i :: added) ->
  clusters !! m = Some group ->
  (n < m)%nat ->
  j ∈ group ->
  dict_get distances (i, j) = Some d ->
  (proximity_threshold <= d)%Q.
Proof.
  unfold greedy_clusters. intros H Hn Hm Hlt Hj Hd.
  destruct (sorted_items distances) as [pairs|] eqn:Es; simpl in H; [|discriminate].
  inversion H; subst clusters; clear H.
  assert (Hfar : far distances proximity_threshold i j).
  { eapply (seeds_far_lookup distances proximity_threshold _ n m);
      [|eassumption|eassumption|assumption|assumption].
    apply seed_groups_maximal; [|tauto].
    intros x Hx. apply elem_of_flatten_pairs in Hx. tauto. }
  exact (Hfar d Hd).
Qed.

Lemma earlier_seed_is_far_from_later_members_witness :
  greedy_clusters Sample.porphyry Sample.cache_both 5 = Ok [[1; 2]; [0]] /\
  (5 <= 5)%Q.
Proof.
  split; [vm_compute; reflexivity|].
  apply (earlier_seed_is_far_from_later_members Sample.porphyry Sample.cache_both 5
           [[1; 2]; [0]] 0 1 1 [2] [0] 0 5).
  - vm_compute; reflexivity.
  - reflexivity.
  - reflexivity.
  - lia.
  - left.
  - vm_compute; reflexivity.
Defined.

(** ** Loading, then cleaning *)

Section LoadThenClean.

Local Open Scope string_scope.

Import Geo GeoLoad.

(** A key that is present stays present through a load. *)
Lemma load_table_keeps_key {A} (records : list (string * A)) table key :
  is_Some (table !! key) -> is_Some (load_table records table !! key).
Proof.
  revert table. induction records as [|record records IH]; intros table H;
    [exact H|].
  change (load_table (record :: records) table)
    with (load_table records (<[q_key record.1 := record.2]> table)).
  apply IH. destruct (decide (q_key record.1 = key)) as [->|Hne].
  - rewrite lookup_insert_eq. eauto.
  - rewrite lookup_insert_ne by assumption. exact H.
Qed.

(** X22.  After [load_data_cache], a site is not skipped by [clean_and_fix]
    as soon as the identifier of its deposit type of highest confidence is
    the last segment of the URI of a fetched deposit type: the site passes
    both skip tests, whatever the cache held before and whatever the other
    tables are. *)
Theorem site_with_fetched_deposit_type_is_kept
    cache commodity_table data_results records1 records2 base details data d0 ds :
  raw_deposit_types data = d0 :: ds ->
  PyStr.free_of "/" (dt_id (max_confidence d0 ds)) = true ->
  fetched_deposit_types data_results
    = (records1 ++
       ((base ++ "/" ++ dt_id (max_confidence d0 ds))%string, details) :: records2)%list ->
  kept (load_data_cache cache commodity_table data_results).1 data = true.
Proof.
  intros Hd Hfree Hfetched. unfold kept, load_data_cache. rewrite Hd. simpl.
  apply bool_decide_eq_true. rewrite Hfetched, load_table_app.
  set (key := dt_id (max_confidence d0 ds)) in *.
  set (loaded := load_table records1 (deposit_types cache)).
  change (load_table ((base ++ "/" ++ key, details) :: records2) loaded)
    with (load_table records2 (<[q_key (base ++ "/" ++ key) := details]> loaded)).
  rewrite q_key_of_path by assumption.
  apply load_table_keeps_key. rewrite lookup_insert_eq. eauto.
Qed.

Lemma site_with_fetched_deposit_type_is_kept_witness :
  PyStr.free_of "/" "Q380" = true /\
  kept (load_data_cache (mkCache ∅ ∅ ∅) ∅
          (mkFetched [] []
             ([] ++ (("https://minmod.isi.edu/resource" ++ "/" ++ "Q380")%string,
                     mkDetails "Porphyry copper" "Porphyry" "Magmatic") :: [])%list
             [])).1
       (GeoSample.raw "full" None None) = true.
Proof.
  split; [reflexivity|].
  apply (site_with_fetched_deposit_type_is_kept (mkCache ∅ ∅ ∅) ∅
           (mkFetched [] []
              ([] ++ (("https://minmod.isi.edu/resource" ++ "/" ++ "Q380")%string,
                      mkDetails "Porphyry copper" "Porphyry" "Magmatic") :: [])%list
              [])
           [] [] "https://minmod.isi.edu/resource"
           (mkDetails "Porphyry copper" "Porphyry" "Magmatic")
           (GeoSample.raw "full" None None)
           (mkDepositType "Q1" (1 # 2) "algorithm")
           [mkDepositType "Q380" (9 # 10) "expert"]); reflexivity.
Defined.

End LoadThenClean.

(** ** The guide curves *)

Section CurveShape.

Context {number : Type}.
Variable of_Z : Z -> number.
Variables add sub mul divide : number -> number -> number.
Variable power10 : number -> number.

Lemma linspace_length start stop num :
  length (linspace of_Z add sub mul divide start stop num) = num.
Proof.
  unfold linspace. destruct (0 <? num - 1)%nat eqn:E.
  - apply Nat.ltb_lt in E.
    rewrite length_app, length_take, length_fmap, length_seq. simpl. lia.
  - rewrite length_fmap, length_seq. reflexivity.
Qed.

(** In whatever arithmetic the curves are computed: there are twenty of
    them, one for each metal content and in that order; each has the hundred
    tonnage values as [y], the quotients of its metal content by them as
    [x], and its metal content divided by 100 as label. *)
Lemma guide_curves_shape :
  let metal_contents := logspace of_Z add sub mul divide power10 (-9) 10 20 in
  let tonnage_range := logspace of_Z add sub mul divide power10 (-8) 8 100 in
  length metal_contents = 20%nat /\
  length tonnage_range = 100%nat /\
  Forall2 (fun metal_content curve =>
      curve_y curve = tonnage_range /\
      curve_x curve = (fun tonnage => divide metal_content tonnage) <$> tonnage_range /\
      length (curve_x curve) = 100%nat /\
      curve_label curve = divide metal_content (of_Z 100))
    metal_contents
    (guide_curves of_Z add sub mul divide power10).
Proof.
  cbv zeta. unfold guide_curves, logspace.
  rewrite !length_fmap, !linspace_length.
  split; [reflexivity|]. split; [reflexivity|].
  apply Forall2_fmap_r, Forall_Forall2_diag, Forall_forall.
  intros metal_content _. unfold compose.
  cbn [curve_y curve_x curve_label guide_curve].
  rewrite !length_fmap, linspace_length. repeat split.
Qed.

End CurveShape.

Section ExactCurves.

Local Open Scope R_scope.

Lemma exact_linspace_lookup start stop num k :
  (1 < num)%nat -> (k < num)%nat ->
  linspace IZR Rplus Rminus Rmult Rdiv start stop num !! k
  = Some (IZR start + INR k * (IZR stop - IZR start) / INR (num - 1)).
Proof.
  intros Hnum Hk. unfold linspace.
  replace (0 <? num - 1)%nat with true by (symmetry; apply Nat.ltb_lt; lia).
  assert (Hdiv : INR (num - 1) <> 0) by (apply not_0_INR; lia).
  rewrite <- INR_IZR_INZ.
  destruct (decide (k < num - 1)%nat) as [Hlt|Hge].
  - rewrite lookup_app_l by (rewrite length_take, length_fmap, length_seq; lia).
    rewrite lookup_take_lt by assumption.
    rewrite list_lookup_fmap, lookup_seq_lt by lia. simpl.
    rewrite <- INR_IZR_INZ. f_equal. field. assumption.
  - assert (k = (num - 1)%nat) as -> by lia.
    rewrite lookup_app_r by (rewrite length_take, length_fmap, length_seq; lia).
    rewrite length_take, length_fmap, length_seq.
    replace (num - 1 - (num - 1) `min` num)%nat with 0%nat by lia.
    simpl. f_equal. field. assumption.
Qed.


(** The first level is [10 ^ -9] and the last [10 ^ 10]; the first tonnage
    is [10 ^ -8] and the last [10 ^ 8]. *)
Lemma exact_logspace_ends :
  let metal_contents := logspace IZR Rplus Rminus Rmult Rdiv (Rpower 10) (-9) 10 20 in
  let tonnage_range := logspace IZR Rplus Rminus Rmult Rdiv (Rpower 10) (-8) 8 100 in
  metal_contents !! 0%nat = Some (Rpower 10 (-9)) /\
  metal_contents !! 19%nat = Some (Rpower 10 10) /\
  tonnage_range !! 0%nat = Some (Rpower 10 (-8)) /\
  tonnage_range !! 99%nat = Some (Rpower 10 8).
Proof.
  cbv zeta. unfold logspace. rewrite !list_lookup_fmap.
  rewrite !exact_linspace_lookup by lia. simpl.
  repeat split; do 2 f_equal; field.
Qed.

End ExactCurves.




(** That pair is a point of the thirteenth curve whenever numpy's power
    returns [1000] for [10 ** 3] and [1e8] for [10 ** 8], two powers that
    are binary64 numbers: the exponents [3] and [8] are computed without
    rounding. *)
Lemma binary64_curve_misses_its_level (power10 : float -> float) :
  power10 3%float = 1000%float ->
  power10 8%float = 100000000%float ->
  exists curve tonnage grade,
    Binary64.guide_curves power10 !! 12%nat = Some curve /\
    curve_label curve = 10%float /\
    curve_y curve !! 99%nat = Some tonnage /\
    curve_x curve !! 99%nat = Some grade /\
    tonnage = 100000000%float /\
    grade = PrimFloat.div 1000 tonnage /\
    PrimFloat.eqb (PrimFloat.mul tonnage grade) 1000 = false.
Proof.
  intros H3 H8.
  exists (Binary64.guide_curve
            (logspace Binary64.of_Z PrimFloat.add PrimFloat.sub PrimFloat.mul
               PrimFloat.div power10 (-8) 8 100)
            (power10 3%float)).
  eexists _, _. split; [vm_compute; reflexivity|].
  split; [cbn [Binary64.guide_curve guide_curve curve_label]; rewrite H3; reflexivity|].
  split; [vm_compute; reflexivity|]. split; [vm_compute; reflexivity|].
  rewrite H3, H8. repeat split.
Qed.
